(** * ISO 8601 durations: a shallow embedding of [iso8601.go]

    The Go package parses, formats, compares and applies ISO 8601
    duration literals.  This development embeds its functions as Rocq
    functions over

    - [Z] for Go's [int] / [int64] / [time.Duration], with the 64-bit
      wrap-around written out ([GoInt]);
    - [spec_float] at binary64 parameters for [float64] ([F64]);
    - [string] (a list of bytes) for Go strings;
    - a small backtracking matcher for the [regexp] pattern and a small
      interpreter for the [html/template] template, so that the pattern
      and the template are transcribed rather than paraphrased.  *)

From Stdlib Require Import ZArith Lia List String Ascii Bool.
From Stdlib Require Import Floats.SpecFloat.
Import ListNotations.

Open Scope Z_scope.

(* ------------------------------------------------------------------ *)
(** * Go's [int] on a 64-bit target *)

Module GoInt.

Definition min_int : Z := - 2 ^ 63.
Definition max_int : Z := 2 ^ 63 - 1.

Definition in_range (z : Z) : Prop := min_int <= z <= max_int.

Definition in_rangeb (z : Z) : bool := (min_int <=? z) && (z <=? max_int).

(** Two's-complement wrap-around of a mathematical integer. *)
Definition wrap (z : Z) : Z := (z + 2 ^ 63) mod 2 ^ 64 - 2 ^ 63.

Definition add (a b : Z) : Z := wrap (a + b).
Definition sub (a b : Z) : Z := wrap (a - b).
Definition mul (a b : Z) : Z := wrap (a * b).
Definition neg (a : Z) : Z := wrap (- a).

(** Go's [/] on integers truncates toward zero. *)
Definition quo (a b : Z) : Z := wrap (Z.quot a b).

End GoInt.

(* ------------------------------------------------------------------ *)
(** * Go's [float64]: IEEE 754 binary64, round to nearest even *)

Module F64.

(** [spec_float] has the two zeros, the two infinities, the finite
    values and one NaN.  A Go NaN also carries a sign and a payload,
    and [==] is false on it; so two floats are compared here by
    [eqb] (Go's [==]) wherever a NaN can occur, and by Rocq's equality
    only for results that are not NaN. *)
Definition float64 : Type := spec_float.

Definition prec : Z := 53.
Definition emax : Z := 1024.

Definition zero : float64 := S754_zero false.

Definition neg (x : float64) : float64 := SFopp x.
Definition add (x y : float64) : float64 := SFadd prec emax x y.
Definition sub (x y : float64) : float64 := SFsub prec emax x y.
Definition mul (x y : float64) : float64 := SFmul prec emax x y.
Definition div (x y : float64) : float64 := SFdiv prec emax x y.

(** [==] and [<]: false as soon as an operand is NaN; the two zeros
    are equal. *)
Definition eqb (x y : float64) : bool := SFeqb x y.
Definition ltb (x y : float64) : bool := SFltb x y.

Definition is_nan (x : float64) : bool :=
  match x with S754_nan => true | _ => false end.

(** The same datum, bit for bit (NaN has one representation here). *)
Definition same (x y : float64) : bool :=
  match x, y with
  | S754_zero a, S754_zero b => Bool.eqb a b
  | S754_infinity a, S754_infinity b => Bool.eqb a b
  | S754_nan, S754_nan => true
  | S754_finite a m e, S754_finite b m' e' =>
      Bool.eqb a b && Pos.eqb m m' && Z.eqb e e'
  | _, _ => false
  end.

(** The values a [float64] variable can hold. *)
Definition valid (x : float64) : Prop := valid_binary prec emax x = true.

(** [float64(n)] for an integer [n]: the nearest binary64. *)
Definition of_Z (n : Z) : float64 := binary_normalize prec emax n 0 false.

(** The integer part of a float, rounding toward zero; nothing for
    NaN and the infinities. *)
Definition trunc (x : float64) : option Z :=
  match x with
  | S754_zero _ => Some 0
  | S754_finite s m e =>
      let a := if 0 <=? e then Z.pos m * 2 ^ e else Z.pos m / 2 ^ (- e) in
      Some (if s then - a else a)
  | S754_infinity _ | S754_nan => None
  end.

End F64.

Abbreviation float64 := F64.float64.

(** The Go specification leaves [int64(x)] implementation-dependent when
    [x] is NaN, infinite or its integer part does not fit: the target
    architecture decides.  [convert_unrepresentable] is that choice. *)
Class Arch : Type := {
  convert_unrepresentable : float64 -> Z
}.

(** x86-64: [CVTTSD2SI] answers the "integer indefinite" value. *)
Definition amd64 : Arch :=
  {| convert_unrepresentable := fun _ => GoInt.min_int |}.

(** AArch64: [FCVTZS] saturates, and sends NaN to zero. *)
Definition arm64 : Arch :=
  {| convert_unrepresentable := fun x =>
       match x with
       | S754_nan => 0
       | S754_infinity s | S754_finite s _ _ | S754_zero s =>
           if s then GoInt.min_int else GoInt.max_int
       end |}.

(** [int64(x)] for a [float64] [x]. *)
Definition int64_of_float `{Arch} (x : float64) : Z :=
  match F64.trunc x with
  | Some z =>
      if GoInt.in_rangeb z then z
      else GoInt.wrap (convert_unrepresentable x)
  | None => GoInt.wrap (convert_unrepresentable x)
  end.

(* ------------------------------------------------------------------ *)
(** * The data model *)

Record Duration : Type := mkDuration {
  Y  : Z;
  M  : Z;
  W  : Z;
  D  : Z;
  TH : Z;
  TM : Z;
  TS : float64
}.

(** The zero value [Duration{}]. *)
Definition zeroDuration : Duration := mkDuration 0 0 0 0 0 0 F64.zero.

(** Every integer field holds a Go [int], the seconds a binary64. *)
Definition wellTyped (d : Duration) : Prop :=
  GoInt.in_range (Y d) /\ GoInt.in_range (M d) /\ GoInt.in_range (W d) /\
  GoInt.in_range (D d) /\ GoInt.in_range (TH d) /\ GoInt.in_range (TM d) /\
  F64.valid (TS d).

Definition neqb (a b : Z) : bool := negb (a =? b).

Definition IsZero (d : Duration) : bool :=
  (Y d =? 0) && (M d =? 0) && (W d =? 0) && (D d =? 0) &&
  (TH d =? 0) && (TM d =? 0) && F64.eqb (TS d) F64.zero.

Definition IsNegative (d : Duration) : bool :=
  (Y d <? 0) || (M d <? 0) || (W d <? 0) || (D d <? 0) ||
  (TH d <? 0) || (TM d <? 0) || F64.ltb (TS d) F64.zero.

Definition Negate (d : Duration) : Duration :=
  {| Y := GoInt.neg (Y d);
     M := GoInt.neg (M d);
     W := GoInt.neg (W d);
     D := GoInt.neg (D d);
     TH := GoInt.neg (TH d);
     TM := GoInt.neg (TM d);
     TS := F64.neg (TS d) |}.

(** [d.TS != 0.0] is true for NaN. *)
Definition HasTimePart (d : Duration) : bool :=
  neqb (TH d) 0 || neqb (TM d) 0 || negb (F64.eqb (TS d) F64.zero).

Definition Add (d other : Duration) : Duration :=
  {| Y := GoInt.add (Y d) (Y other);
     M := GoInt.add (M d) (M other);
     W := GoInt.add (W d) (W other);
     D := GoInt.add (D d) (D other);
     TH := GoInt.add (TH d) (TH other);
     TM := GoInt.add (TM d) (TM other);
     TS := F64.add (TS d) (TS other) |}.

Definition Subtract (d other : Duration) : Duration :=
  {| Y := GoInt.sub (Y d) (Y other);
     M := GoInt.sub (M d) (M other);
     W := GoInt.sub (W d) (W other);
     D := GoInt.sub (D d) (D other);
     TH := GoInt.sub (TH d) (TH other);
     TM := GoInt.sub (TM d) (TM other);
     TS := F64.sub (TS d) (TS other) |}.

Definition Multiply (d : Duration) (n : Z) : Duration :=
  {| Y := GoInt.mul (Y d) n;
     M := GoInt.mul (M d) n;
     W := GoInt.mul (W d) n;
     D := GoInt.mul (D d) n;
     TH := GoInt.mul (TH d) n;
     TM := GoInt.mul (TM d) n;
     TS := F64.mul (TS d) (F64.of_Z n) |}.

Definition Equal (d other : Duration) : bool :=
  (Y d =? Y other) && (M d =? M other) && (W d =? W other) &&
  (D d =? D other) && (TH d =? TH other) && (TM d =? TM other) &&
  F64.eqb (TS d) (TS other).

(** The guard of [LessThan], [Shift] and [Unshift]:
    [d.Y != 0 || d.M != 0 || d.W != 0 || d.D != 0]. *)
Definition hasDatePart (d : Duration) : bool :=
  neqb (Y d) 0 || neqb (M d) 0 || neqb (W d) 0 || neqb (D d) 0.

(** The tail of [LessThan], after the date block. *)
Definition lessThanTime (d other : Duration) : bool :=
  if neqb (TH d) (TH other) then TH d <? TH other
  else if neqb (TM d) (TM other) then TM d <? TM other
  else F64.ltb (TS d) (TS other).

Definition LessThan (d other : Duration) : bool :=
  if hasDatePart d || hasDatePart other then
    if neqb (Y d) (Y other) then Y d <? Y other
    else if neqb (M d) (M other) then M d <? M other
    else if neqb (W d) (W other) then W d <? W other
    else if neqb (D d) (D other) then D d <? D other
    else lessThanTime d other
  else lessThanTime d other.

Definition GreaterThan (d other : Duration) : bool := LessThan other d.

(* ------------------------------------------------------------------ *)
(** * The bridge to [time.Duration] (an [int64] count of nanoseconds) *)

Definition Nanosecond : Z := 1.
Definition Second : Z := 1000000000 * Nanosecond.
Definition Minute : Z := 60 * Second.
Definition Hour : Z := 60 * Minute.

Definition timeDuration `{Arch} (d : Duration) : Z :=
  let dur := 0 in
  let dur := GoInt.add dur (GoInt.mul (TH d) Hour) in
  let dur := GoInt.add dur (GoInt.mul (TM d) Minute) in
  let dur :=
    GoInt.add dur (int64_of_float (F64.mul (TS d) (F64.of_Z Second))) in
  dur.

Definition ToTimeDuration `{Arch} (d : Duration) : Z := timeDuration d.

Definition FromTimeDuration (td : Z) : Duration :=
  let hours := GoInt.quo td Hour in
  let td := GoInt.sub td (GoInt.mul hours Hour) in
  let minutes := GoInt.quo td Minute in
  let td := GoInt.sub td (GoInt.mul minutes Minute) in
  let seconds := F64.div (F64.of_Z td) (F64.of_Z Second) in
  {| Y := 0; M := 0; W := 0; D := 0;
     TH := hours; TM := minutes; TS := seconds |}.

(* ------------------------------------------------------------------ *)
(** * The calendar shifter

    [time.Time] and its two methods belong to the Go standard library;
    the shifter only composes them, so they are an interface here. *)

Class Clock : Type := {
  Time : Type;
  (** [t.AddDate(years, months, days)] *)
  AddDate : Time -> Z -> Z -> Z -> Time;
  (** [t.Add(d)] for a [time.Duration] [d] *)
  TimeAdd : Time -> Z -> Time
}.

(** [d.W*7 + d.D] in Go's [int]. *)
Definition totalDays (d : Duration) : Z :=
  GoInt.add (GoInt.mul (W d) 7) (D d).

Definition Shift `{Arch} `{Clock} (d : Duration) (t : Time) : Time :=
  let t :=
    if hasDatePart d then
      let days := totalDays d in
      AddDate t (Y d) (M d) days
    else t in
  let t := TimeAdd t (timeDuration d) in
  t.

Definition Unshift `{Arch} `{Clock} (d : Duration) (t : Time) : Time :=
  let t :=
    if hasDatePart d then
      let days := totalDays d in
      AddDate t (GoInt.neg (Y d)) (GoInt.neg (M d)) (GoInt.neg days)
    else t in
  let t := TimeAdd t (GoInt.neg (timeDuration d)) in
  t.

(** A clock for closed examples: the instant as a count of nanoseconds
    since the epoch in UTC, a day as 24 hours; months and years are
    approximated (30 and 365 days), which no statement below relies on. *)
Definition utcClock : Clock :=
  {| Time := Z;
     AddDate := fun t y m d => t + ((y * 365 + m * 30 + d) * 24) * Hour;
     TimeAdd := fun t d => t + d |}.



(* ------------------------------------------------------------------ *)
(** * Strings and bytes *)

Open Scope string_scope.
Open Scope Z_scope.

Definition isDigit (c : ascii) : bool :=
  (48 <=? nat_of_ascii c)%nat && (nat_of_ascii c <=? 57)%nat.

Definition digitValue (c : ascii) : Z := Z.of_nat (nat_of_ascii c) - 48.

Definition allDigits (s : string) : bool :=
  forallb isDigit (list_ascii_of_string s).

(** The number a run of decimal digits denotes, most significant first. *)
Definition decimalValue (s : string) : Z :=
  fold_left (fun n c => n * 10 + digitValue c) (list_ascii_of_string s) 0.

(** [s[0] == c], guarded by [s != ""]. *)
Definition firstByteIs (c : ascii) (s : string) : bool :=
  match s with
  | String a _ => Ascii.eqb a c
  | EmptyString => false
  end.

(* ------------------------------------------------------------------ *)
(** * The regular expression engine

    Only the operators the pattern uses.  Matching is leftmost-first,
    as Go's [regexp] defines submatches: an optional or repeated
    sub-expression prefers to match, and prefers more over fewer.  The
    matcher backtracks through continuations; a capture made on an
    abandoned branch is dropped with the branch. *)

Inductive regex : Type :=
| Bol                              (* ^ , without the m flag *)
| Eol                              (* $ , without the m flag *)
| Chr (c : ascii)
| Digit                            (* \d *)
| Cat (r1 r2 : regex)
| Opt (r : regex)                  (* r? *)
| Plus (r : regex)                 (* r+ *)
| Group (i : nat) (r : regex).     (* the i-th capturing group *)

Definition captures : Type := list string.

Fixpoint setNth (i : nat) (v : string) (c : captures) : captures :=
  match c, i with
  | [], _ => []
  | _ :: c', O => v :: c'
  | x :: c', S i' => x :: setNth i' v c'
  end.

Definition cont : Type := nat -> string -> captures -> option captures.

Definition orElse {A} (x y : option A) : option A :=
  match x with Some _ => x | None => y end.

(** [r+]: one round of [step], then more rounds if they lead to a match,
    else the continuation.  At most [fuel] rounds. *)
Fixpoint rounds (step : nat -> string -> captures -> cont -> option captures)
  (k : cont) (fuel : nat) (pos : nat) (s : string) (c : captures)
  : option captures :=
  match fuel with
  | O => None
  | S fuel' =>
      step pos s c
        (fun pos1 s1 c1 =>
           orElse (rounds step k fuel' pos1 s1 c1) (k pos1 s1 c1))
  end.

(** [run r pos s c k]: match [r] against the input from offset [pos],
    where [s] is what remains of it, then hand over to [k].  A repetition
    runs at most once per remaining byte plus one: each round that
    matters consumes a byte. *)
Fixpoint run (r : regex) (pos : nat) (s : string) (c : captures) (k : cont)
  {struct r} : option captures :=
  match r with
  | Bol => if (pos =? 0)%nat then k pos s c else None
  | Eol => match s with EmptyString => k pos s c | String _ _ => None end
  | Chr a =>
      match s with
      | String b s' => if Ascii.eqb a b then k (S pos) s' c else None
      | EmptyString => None
      end
  | Digit =>
      match s with
      | String b s' => if isDigit b then k (S pos) s' c else None
      | EmptyString => None
      end
  | Cat r1 r2 => run r1 pos s c (fun pos1 s1 c1 => run r2 pos1 s1 c1 k)
  | Opt r1 => orElse (run r1 pos s c k) (k pos s c)
  | Plus r1 => rounds (run r1) k (S (String.length s)) pos s c
  | Group i r1 =>
      run r1 pos s c
        (fun pos1 s1 c1 =>
           k pos1 s1 (setNth i (substring 0 (pos1 - pos) s) c1))
  end.

Fixpoint seq (rs : list regex) : regex :=
  match rs with
  | [] => Opt Bol   (* unused: every sequence below is non-empty *)
  | [r] => r
  | r :: rs' => Cat r (seq rs')
  end.

(** The leftmost match: offsets are tried in order.  The result lists the
    text of the whole match and of every group, [""] for a group that
    took no part. *)
Fixpoint searchFrom (r : regex) (ngroups : nat) (pos : nat) (s : string)
  : option captures :=
  match
    run r pos s (repeat "" (S ngroups))
      (fun pos1 _ c1 => Some (setNth 0 (substring 0 (pos1 - pos) s) c1))
  with
  | Some c => Some c
  | None =>
      match s with
      | EmptyString => None
      | String _ s' => searchFrom r ngroups (S pos) s'
      end
  end.

Record Regexp : Type := {
  expr : regex;
  SubexpNames : list string
}.

Definition NumSubexp (re : Regexp) : nat := Nat.pred (List.length (SubexpNames re)).

Definition FindStringSubmatch (re : Regexp) (s : string) : option (list string) :=
  searchFrom (expr re) (NumSubexp re) 0 s.

Definition MatchString (re : Regexp) (s : string) : bool :=
  match FindStringSubmatch re s with Some _ => true | None => false end.

(** [((?P<name>\d+)L)?] with group numbers [outer] and [outer + 1]. *)
Definition component (outer : nat) (letter : ascii) : regex :=
  Opt (Group outer (Cat (Group (S outer) (Plus Digit)) (Chr letter))).

(** [^(-)?P((?P<year>\d+)Y)?((?P<month>\d+)M)?((?P<week>\d+)W)?((?P<day>\d+)D)?]
    [(T((?P<hour>\d+)H)?((?P<minute>\d+)M)?((?P<second>\d+(?:\.\d+)?)S)?)?$] *)
Definition pattern : Regexp :=
  {| expr :=
       seq [ Bol;
             Opt (Group 1 (Chr "-"));
             Chr "P";
             component 2 "Y";
             component 4 "M";
             component 6 "W";
             component 8 "D";
             Opt (Group 10
                    (seq [ Chr "T";
                           component 11 "H";
                           component 13 "M";
                           Opt (Group 15
                                  (Cat
                                     (Group 16
                                        (Cat (Plus Digit)
                                             (Opt (Cat (Chr ".") (Plus Digit)))))
                                     (Chr "S"))) ]));
             Eol ];
     SubexpNames :=
       [ ""; ""; ""; "year"; ""; "month"; ""; "week"; ""; "day";
         ""; ""; "hour"; ""; "minute"; ""; "second" ] |}.

(* ------------------------------------------------------------------ *)
(** * [strconv] *)

Inductive error : Type :=
| ErrCouldNotParse   (* errors.New("could not parse duration string") *)
| ErrSyntax          (* strconv.ErrSyntax *)
| ErrRange.          (* strconv.ErrRange *)

Inductive result (A : Type) : Type :=
| Ok (a : A)
| Err (e : error).

Arguments Ok {A} a.
Arguments Err {A} e.

(** [strconv.Atoi]: an optional sign, then decimal digits; out of the
    range of [int] is [ErrRange]. *)
Definition Atoi (s : string) : result Z :=
  let (negative, digits) :=
    match s with
    | String "-" s' => (true, s')
    | String "+" s' => (false, s')
    | _ => (false, s)
    end in
  match digits with
  | EmptyString => Err ErrSyntax
  | String _ _ =>
      if allDigits digits then
        let n := if negative then - decimalValue digits
                 else decimalValue digits in
        if GoInt.in_rangeb n then Ok n else Err ErrRange
      else Err ErrSyntax
  end.

(** The text before the first ["."], and the text after it if there is
    one. *)
Fixpoint splitDot (s : string) : string * option string :=
  match s with
  | EmptyString => (EmptyString, None)
  | String c s' =>
      if Ascii.eqb c "." then (EmptyString, Some s')
      else let (a, b) := splitDot s' in (String c a, b)
  end.

(** The binary64 nearest to [n / d], ties to even, for [0 <= n] and
    [0 < d]; an infinity when the quotient is beyond the largest
    finite value. *)
Definition nearestRatio (n d : Z) : float64 :=
  match n with
  | Z0 => S754_zero false
  | Zpos _ =>
      let '(q, e, l) := SFdiv_core_binary F64.prec F64.emax n 0 d 0 in
      binary_round_aux F64.prec F64.emax false q e l
  | Zneg _ => S754_nan
  end.

(** [strconv.ParseFloat(s, 64)] on the decimal literals
    [digits] and [digits.digits], the only texts the pattern's [second]
    group captures: the correctly rounded value, [ErrRange] when it
    overflows.  Every other text is answered [ErrSyntax] here, although
    Go accepts more (signs, exponents, hexadecimal, "inf"). *)
Definition ParseFloat (s : string) : result float64 :=
  let (ip, fp) := splitDot s in
  let fraction := match fp with Some f => f | None => EmptyString end in
  let wellFormed :=
    negb (String.eqb ip "") && allDigits ip &&
    match fp with
    | Some f => negb (String.eqb f "") && allDigits f
    | None => true
    end in
  if wellFormed then
    let x :=
      nearestRatio (decimalValue (ip ++ fraction))
                   (10 ^ Z.of_nat (String.length fraction)) in
    match x with
    | S754_infinity _ => Err ErrRange
    | _ => Ok x
    end
  else Err ErrSyntax.

(* ------------------------------------------------------------------ *)
(** * The parser *)

Definition integerField (name : string) : bool :=
  existsb (String.eqb name)
    ["year"; "month"; "week"; "day"; "hour"; "minute"].

(** The inner [switch name] of the parser: the assignment to the field
    that [name] selects. *)
Definition assignInt (name : string) (val : Z) (d : Duration) : Duration :=
  if String.eqb name "year" then
    {| Y := val; M := M d; W := W d; D := D d;
       TH := TH d; TM := TM d; TS := TS d |}
  else if String.eqb name "month" then
    {| Y := Y d; M := val; W := W d; D := D d;
       TH := TH d; TM := TM d; TS := TS d |}
  else if String.eqb name "week" then
    {| Y := Y d; M := M d; W := val; D := D d;
       TH := TH d; TM := TM d; TS := TS d |}
  else if String.eqb name "day" then
    {| Y := Y d; M := M d; W := W d; D := val;
       TH := TH d; TM := TM d; TS := TS d |}
  else if String.eqb name "hour" then
    {| Y := Y d; M := M d; W := W d; D := D d;
       TH := val; TM := TM d; TS := TS d |}
  else if String.eqb name "minute" then
    {| Y := Y d; M := M d; W := W d; D := D d;
       TH := TH d; TM := val; TS := TS d |}
  else d.

Definition assignTS (val : float64) (d : Duration) : Duration :=
  {| Y := Y d; M := M d; W := W d; D := D d;
     TH := TH d; TM := TM d; TS := val |}.

(** The [for i, name := range pattern.SubexpNames()] loop, from index
    [i] on; [names] is what is left of the names.  An error leaves the
    loop with [d] as it stands. *)
Fixpoint parseGroups (negative : bool) (matched : list string)
  (i : nat) (names : list string) (d : Duration) : Duration * option error :=
  match names with
  | [] => (d, None)
  | name :: names' =>
      let part := nth i matched "" in
      if (i =? 0)%nat || String.eqb name "" || String.eqb part "" then
        parseGroups negative matched (S i) names' d
      else if integerField name then
        match Atoi part with
        | Err err => (d, Some err)
        | Ok val =>
            let val := if negative then GoInt.neg val else val in
            parseGroups negative matched (S i) names' (assignInt name val d)
        end
      else if String.eqb name "second" then
        match ParseFloat part with
        | Err err => (d, Some err)
        | Ok val =>
            let val := if negative then F64.neg val else val in
            parseGroups negative matched (S i) names' (assignTS val d)
        end
      else parseGroups negative matched (S i) names' d
  end.

(** [ParseISO8601] returns a [Duration] and an [error]; [None] is
    [nil]. *)
Definition ParseISO8601 (from : string) : Duration * option error :=
  let d := zeroDuration in
  match FindStringSubmatch pattern from with
  | None => (d, Some ErrCouldNotParse)
  | Some matched =>
      let negative := firstByteIs "-" from in
      parseGroups negative matched 0 (SubexpNames pattern) d
  end.

(* ------------------------------------------------------------------ *)
(** * [fmt]: printing integers and floats *)

From Stdlib Require Import DecimalString.
From Stdlib Require DecimalPos.

(** [%d] / [fmt.Sprint] of an integer. *)
Definition formatInt (z : Z) : string := NilZero.string_of_int (Z.to_int z).

Fixpoint zeros (n : nat) : string :=
  match n with
  | O => EmptyString
  | S n' => String "0" (zeros n')
  end.

(** Decimal digits [ds] read as [0.ds * 10^dp]; no digit at all is zero. *)
Record decimal : Type := {
  digits : string;
  dp : Z
}.

Definition nd (d : decimal) : Z := Z.of_nat (String.length (digits d)).

(** The digit at index [j], ['0'] outside the digits. *)
Definition digitAt (d : decimal) (j : Z) : ascii :=
  if (0 <=? j) && (j <? nd d) then
    match String.get (Z.to_nat j) (digits d) with
    | Some c => c
    | None => "0"%char
    end
  else "0"%char.

Fixpoint digitsFrom (d : decimal) (j : Z) (n : nat) : string :=
  match n with
  | O => EmptyString
  | S n' => String (digitAt d j) (digitsFrom d (j + 1) n')
  end.

(** [%f] with [prec] digits after the point, sign apart. *)
Definition fmtF (d : decimal) (prec : Z) : string :=
  (if 0 <? dp d then digitsFrom d 0 (Z.to_nat (dp d)) else "0") ++
  (if 0 <? prec then "." ++ digitsFrom d (dp d) (Z.to_nat prec) else "").

(** [%e] with [prec] digits after the point, sign apart. *)
Definition fmtE (d : decimal) (prec : Z) : string :=
  let exp := if nd d =? 0 then 0 else dp d - 1 in
  String (digitAt d 0)
    ((if 0 <? prec then "." ++ digitsFrom d 1 (Z.to_nat prec) else "") ++
     "e" ++ (if exp <? 0 then "-" else "+") ++
     (if Z.abs exp <? 10 then "0" else "") ++ formatInt (Z.abs exp)).

Fixpoint stripZeros (fuel : nat) (c q : Z) : Z * Z :=
  match fuel with
  | O => (c, q)
  | S fuel' =>
      if (c mod 10 =? 0) && negb (c =? 0) then stripZeros fuel' (c / 10) (q + 1)
      else (c, q)
  end.

(** The search behind the shortest decimal that reads back as the same
    binary64.  The float is [x / den], the floats that round to it are
    those between [lo / den] and [hi / den] (bounds included when
    [inclusive]).  For [q] going down from its start, the multiples of
    [10^q] on either side of the float are tried: the first [q] with one
    of them inside the bounds gives the fewest digits, and of two the
    nearer wins, the even one on a tie. *)
Fixpoint shortestSearch (fuel : nat) (x lo hi den : Z) (inclusive : bool)
  (q : Z) : Z * Z :=
  match fuel with
  | O => (0, 0)
  | S fuel' =>
      let num := 10 ^ Z.max (- q) 0 in     (* scale of the float *)
      let unit := den * 10 ^ Z.max q 0 in  (* 10^q at that scale *)
      let down := (x * num) / unit in
      let up := if (x * num) mod unit =? 0 then down else down + 1 in
      let inside c :=
        negb (c =? 0) &&
        (if inclusive
         then (lo * num <=? c * unit) && (c * unit <=? hi * num)
         else (lo * num <? c * unit) && (c * unit <? hi * num)) in
      let below := x * num - down * unit in
      let above := up * unit - x * num in
      if inside down && inside up then
        if below <? above then (down, q)
        else if above <? below then (up, q)
        else if Z.even down then (down, q) else (up, q)
      else if inside down then (down, q)
      else if inside up then (up, q)
      else shortestSearch fuel' x lo hi den inclusive (q - 1)
  end.

(** The shortest digits of the finite positive float [m * 2^e].  The
    neighbour below is half as far when [m] is the smallest mantissa of
    its binade (and not the lowest one). *)
Definition shortestDecimal (m : positive) (e : Z) : decimal :=
  let narrow := (Z.pos m =? 2 ^ (F64.prec - 1)) && (emin F64.prec F64.emax <? e) in
  let scale := 2 ^ Z.max (e - 2) 0 in
  let den := 2 ^ Z.max (2 - e) 0 in
  let x := 4 * Z.pos m * scale in
  let lo := (if narrow then 4 * Z.pos m - 1 else 4 * Z.pos m - 2) * scale in
  let hi := (4 * Z.pos m + 2) * scale in
  let start := (Z.log2 (Z.pos m) + e + 1) * 30103 / 100000 + 2 in
  let '(c, q) :=
    shortestSearch 30 x lo hi den (Z.even (Z.pos m)) start in
  let '(c, q) := stripZeros 30 c q in
  {| digits := formatInt c;
     dp := Z.of_nat (String.length (formatInt c)) + q |}.

Definition signOf (x : float64) : string :=
  match x with
  | S754_zero true | S754_finite true _ _ => "-"
  | _ => ""
  end.

(** [fmt.Sprintf("%g", x)]: the shortest digits, in [%e] form when the
    decimal exponent is below -4 or at least 6 (the precision that
    decides for the shortest form). *)
Definition formatG (x : float64) : string :=
  match x with
  | S754_nan => "NaN"
  | S754_infinity s => if s then "-Inf" else "+Inf"
  | S754_zero _ => signOf x ++ "0"
  | S754_finite _ m e =>
      let d := shortestDecimal m e in
      let exp := dp d - 1 in
      signOf x ++
      (if (exp <? -4) || (6 <=? exp) then fmtE d (nd d - 1)
       else fmtF d (Z.max (nd d - dp d) 0))
  end.

(** [fmt.Sprintf("%.0f", x)]: the nearest integer, the even one on a
    tie, in full. *)
Definition formatF0 (x : float64) : string :=
  match x with
  | S754_nan => "NaN"
  | S754_infinity s => if s then "-Inf" else "+Inf"
  | S754_zero _ => signOf x ++ "0"
  | S754_finite _ m e =>
      let n :=
        if 0 <=? e then Z.pos m * 2 ^ e
        else
          let q := Z.pos m / 2 ^ (- e) in
          let r := Z.pos m mod 2 ^ (- e) in
          match 2 * r ?= 2 ^ (- e) with
          | Lt => q
          | Gt => q + 1
          | Eq => if Z.even q then q else q + 1
          end in
      signOf x ++ formatInt n
  end.

(* ------------------------------------------------------------------ *)
(** * [html/template]

    The template is parsed once, at package initialisation; here it is
    its parse tree.  Execution can fail: on a name that is neither a
    field, a method nor a registered function, and on an argument of the
    wrong type.  In the text context of this template every action's
    output passes through the HTML escaper; literal text does not. *)

Inductive value : Type :=
| VInt (n : Z)
| VFloat (x : float64)
| VBool (b : bool)
| VString (s : string)
| VDuration (d : Duration).

Inductive pipeline : Type :=
| Dot                                     (* .              *)
| Field (name : string)                   (* .Name          *)
| Call (fn : string) (arg : pipeline).    (* fn arg         *)

#[local] Unset Elimination Schemes.
Inductive node : Type :=
| Text (s : string)
| Action (p : pipeline)                   (* {{p}}          *)
| If (cond : pipeline) (body : list node). (* {{if p}}..{{end}} *)
#[local] Set Elimination Schemes.

Inductive execError : Type :=
| CannotEvaluateField (name : string)
| FunctionNotDefined (fn : string)
| WrongTypeForValue (fn : string)
| CannotPrint.

Definition execResult (A : Type) : Type := (A + execError)%type.

(** The functions registered with [Funcs]. *)

Definition formatSeconds `{Arch} (ts : float64) : string :=
  if F64.eqb ts (F64.of_Z (int64_of_float ts)) then formatF0 ts
  else formatG ts.

Definition isNegative (d : Duration) : bool :=
  (Y d <? 0) || (M d <? 0) || (W d <? 0) || (D d <? 0) ||
  (TH d <? 0) || (TM d <? 0) || F64.ltb (TS d) F64.zero.

Definition abs (n : Z) : Z := if n <? 0 then GoInt.neg n else n.

Definition absFloat (f : float64) : float64 :=
  if F64.ltb f F64.zero then F64.neg f else f.

Definition callFunc `{Arch} (fn : string) (arg : value) : execResult value :=
  if String.eqb fn "formatSeconds" then
    match arg with
    | VFloat ts => inl (VString (formatSeconds ts))
    | _ => inr (WrongTypeForValue fn)
    end
  else if String.eqb fn "isNegative" then
    match arg with
    | VDuration d => inl (VBool (isNegative d))
    | _ => inr (WrongTypeForValue fn)
    end
  else if String.eqb fn "abs" then
    match arg with
    | VInt n => inl (VInt (abs n))
    | _ => inr (WrongTypeForValue fn)
    end
  else if String.eqb fn "absFloat" then
    match arg with
    | VFloat f => inl (VFloat (absFloat f))
    | _ => inr (WrongTypeForValue fn)
    end
  else inr (FunctionNotDefined fn).

(** [.Name] on the data: the fields of [Duration] and the method the
    template calls. *)
Definition evalField (name : string) (dot : value) : execResult value :=
  match dot with
  | VDuration d =>
      if String.eqb name "Y" then inl (VInt (Y d))
      else if String.eqb name "M" then inl (VInt (M d))
      else if String.eqb name "W" then inl (VInt (W d))
      else if String.eqb name "D" then inl (VInt (D d))
      else if String.eqb name "TH" then inl (VInt (TH d))
      else if String.eqb name "TM" then inl (VInt (TM d))
      else if String.eqb name "TS" then inl (VFloat (TS d))
      else if String.eqb name "HasTimePart" then inl (VBool (HasTimePart d))
      else inr (CannotEvaluateField name)
  | _ => inr (CannotEvaluateField name)
  end.

Fixpoint evalPipeline `{Arch} (p : pipeline) (dot : value) : execResult value :=
  match p with
  | Dot => inl dot
  | Field name => evalField name dot
  | Call fn arg =>
      match evalPipeline arg dot with
      | inl v => callFunc fn v
      | inr e => inr e
      end
  end.

(** The truth of a value in [{{if}}]: a number is true when it is not
    zero (so NaN is true), a struct always. *)
Definition truth (v : value) : bool :=
  match v with
  | VInt n => neqb n 0
  | VFloat x => negb (F64.eqb x F64.zero)
  | VBool b => b
  | VString s => negb (String.eqb s "")
  | VDuration _ => true
  end.

(** The replacements of the HTML escaper. *)
Definition htmlEscapeByte (c : ascii) : string :=
  if Ascii.eqb c (ascii_of_nat 34) then "&#34;"
  else if Ascii.eqb c "&" then "&amp;"
  else if Ascii.eqb c "'" then "&#39;"
  else if Ascii.eqb c "+" then "&#43;"
  else if Ascii.eqb c "<" then "&lt;"
  else if Ascii.eqb c ">" then "&gt;"
  else if Ascii.eqb c zero then
    String (ascii_of_nat 239) (String (ascii_of_nat 191)
      (String (ascii_of_nat 189) ""))
  else String c "".

Fixpoint htmlEscape (s : string) : string :=
  match s with
  | EmptyString => EmptyString
  | String c s' => htmlEscapeByte c ++ htmlEscape s'
  end.

(** What an action prints.  A [Duration] would print through its own
    [String] method; the template never prints one, and the model stops
    there. *)
Definition printValue (v : value) : execResult string :=
  match v with
  | VInt n => inl (htmlEscape (formatInt n))
  | VFloat x => inl (htmlEscape (formatG x))
  | VBool b => inl (if b then "true" else "false")
  | VString s => inl (htmlEscape s)
  | VDuration _ => inr CannotPrint
  end.

Fixpoint execNode `{Arch} (n : node) (dot : value) (out : string)
  {struct n} : execResult string :=
  match n with
  | Text s => inl (out ++ s)
  | Action p =>
      match evalPipeline p dot with
      | inl v =>
          match printValue v with
          | inl s => inl (out ++ s)
          | inr e => inr e
          end
      | inr e => inr e
      end
  | If cond body =>
      match evalPipeline cond dot with
      | inl v =>
          if truth v then
            (fix execList (ns : list node) (out : string) : execResult string :=
               match ns with
               | [] => inl out
               | n' :: ns' =>
                   match execNode n' dot out with
                   | inl out' => execList ns' out'
                   | inr e => inr e
                   end
               end) body out
          else inl out
      | inr e => inr e
      end
  end.

Fixpoint Execute `{Arch} (t : list node) (dot : value) (out : string)
  : execResult string :=
  match t with
  | [] => inl out
  | n :: t' =>
      match execNode n dot out with
      | inl out' => Execute t' dot out'
      | inr e => inr e
      end
  end.

(** [{{if .F}}{{abs .F}}L{{end}}] *)
Definition unitNodes (field unit : string) : node :=
  If (Field field) [Action (Call "abs" (Field field)); Text unit].

Definition tmpl : list node :=
  [ If (Call "isNegative" Dot) [Text "-"];
    Text "P";
    unitNodes "Y" "Y";
    unitNodes "M" "M";
    unitNodes "W" "W";
    unitNodes "D" "D";
    If (Field "HasTimePart") [Text "T"];
    unitNodes "TH" "H";
    unitNodes "TM" "M";
    If (Field "TS")
       [Action (Call "formatSeconds" (Call "absFloat" (Field "TS")));
        Text "S"] ].

(** What a call of [d.String()] does. *)
Inductive outcome : Type :=
| Returns (s : string)
| Panics (e : execError).

(** [Duration.String] (the name [String] is the constructor of Rocq's
    strings). *)
Definition DurationString `{Arch} (d : Duration) : outcome :=
  if IsZero d then Returns "P0D"
  else
    match Execute tmpl (VDuration d) "" with
    | inl s => Returns s
    | inr e => Panics e
    end.

(* ------------------------------------------------------------------ *)
(** * Vocabulary of the statements *)

(** Lexicographic comparison, as the documentation words it: the first
    pair whose components differ decides; no answer when none does. *)
Fixpoint firstDifference (l : list (Z * Z)) : option bool :=
  match l with
  | [] => None
  | (x, y) :: l' => if x =? y then firstDifference l' else Some (x <? y)
  end.

Definition dateFields (a b : Duration) : list (Z * Z) :=
  [(Y a, Y b); (M a, M b); (W a, W b); (D a, D b)].

(** The time fields in the order TH, TM, TS, the seconds by the
    floating-point [<]. *)
Definition timeLexLess (a b : Duration) : bool :=
  match firstDifference [(TH a, TH b); (TM a, TM b)] with
  | Some r => r
  | None => F64.ltb (TS a) (TS b)
  end.

(** The nanoseconds of [d.TS], [d.TS * 1e9] cut to an integer, fit
    [int64] with either sign. *)
Definition secondsFit (d : Duration) : Prop :=
  exists z,
    F64.trunc (F64.mul (TS d) (F64.of_Z Second)) = Some z /\
    - GoInt.max_int <= z <= GoInt.max_int.

(** Ten billion seconds. *)
Definition tenGigaseconds : Duration :=
  mkDuration 0 0 0 0 0 0 (F64.of_Z 10000000000).

(** Ninety minutes, left as minutes. *)
Definition ninetyMinutes : Duration := mkDuration 0 0 0 0 0 90 F64.zero.

(** The integer part of a float, as arithmetic has it: [z] has the sign
    of [x] and [|z| <= |x| < |z| + 1], where [|x| = m * 2 ^ e].  Both
    sides are scaled by a power of two, so that the comparison stays in
    [Z]. *)
Definition integerPart (x : float64) (z : Z) : Prop :=
  match x with
  | S754_zero _ => z = 0
  | S754_finite s m e =>
      (if s then z <= 0 else 0 <= z) /\
      Z.abs z * 2 ^ Z.max 0 (- e) <= Z.pos m * 2 ^ Z.max 0 e
        < (Z.abs z + 1) * 2 ^ Z.max 0 (- e)
  | S754_infinity _ | S754_nan => False
  end.

(** A duration that [FromTimeDuration] can give back, with [ns] the
    whole nanoseconds of its seconds: the seconds are [ns / 1e9] again,
    [ns] stays below a minute and TM below sixty, TH, TM and [ns] have
    one sign, and the total fits [int64]. *)
Definition restoredFrom (d : Duration) (ns : Z) : Prop :=
  integerPart (F64.mul (TS d) (F64.of_Z Second)) ns /\
  F64.eqb (F64.div (F64.of_Z ns) (F64.of_Z Second)) (TS d) = true /\
  - Minute < ns < Minute /\ - 60 < TM d < 60 /\
  ((0 <= TH d /\ 0 <= TM d /\ 0 <= ns) \/
   (TH d <= 0 /\ TM d <= 0 /\ ns <= 0)) /\
  GoInt.in_range (TH d * Hour + TM d * Minute + ns).

(** 1.5 *)
Definition oneAndAHalf : float64 := S754_finite false 6755399441055744 (-52).

(** 8.2 seconds, as [ParseFloat] reads ["8.2"]. *)
Definition eightPointTwo : Duration :=
  mkDuration 0 0 0 0 0 0 (S754_finite false 4616189618054758 (-49)).

(** Ninety seconds, left as seconds. *)
Definition ninetySeconds : Duration := mkDuration 0 0 0 0 0 0 (F64.of_Z 90).

(** One hour less thirty minutes. *)
Definition mixedSigns : Duration := mkDuration 0 0 0 0 1 (-30) F64.zero.

(** More hours than [int64] nanoseconds hold. *)
Definition threeMillionHours : Duration :=
  mkDuration 0 0 0 0 3000000 0 F64.zero.

(** Seconds without bound. *)
Definition infiniteSeconds : Duration :=
  mkDuration 0 0 0 0 0 0 (S754_infinity false).

(** Whole seconds from -59 to 59. *)
Definition wholeSeconds : list Z :=
  map (fun n => Z.of_nat n - 59) (List.seq 0 119).

(** [k] seconds become [k * 1e9] nanoseconds, and those nanoseconds
    divide back to [k] seconds. *)
Definition secondsExact (k : Z) : bool :=
  match F64.trunc (F64.mul (F64.of_Z k) (F64.of_Z Second)) with
  | Some z => z =? k * Second
  | None => false
  end &&
  F64.same (F64.div (F64.of_Z (k * Second)) (F64.of_Z Second)) (F64.of_Z k) &&
  F64.eqb (F64.of_Z k) (F64.of_Z k).

(** Ten microseconds, as [ParseFloat] reads ["0.00001"]. *)
Definition tenMicroseconds : Duration :=
  mkDuration 0 0 0 0 0 0 (S754_finite false 5902958103587057 (-69)).

(** The pattern behind [^(-)?]. *)
Definition afterSign : regex :=
  seq [ Chr "P";
        component 2 "Y";
        component 4 "M";
        component 6 "W";
        component 8 "D";
        Opt (Group 10
               (seq [ Chr "T";
                      component 11 "H";
                      component 13 "M";
                      Opt (Group 15
                             (Cat
                                (Group 16
                                   (Cat (Plus Digit)
                                        (Opt (Cat (Chr ".") (Plus Digit)))))
                                (Chr "S"))) ]));
        Eol ].

(** An expression that matches alike one byte further into the input:
    no [^], and no group below the second. *)
Fixpoint shiftable (r : regex) : bool :=
  match r with
  | Bol => false
  | Eol | Chr _ | Digit => true
  | Cat r1 r2 => shiftable r1 && shiftable r2
  | Opt r1 | Plus r1 => shiftable r1
  | Group i r1 => (2 <=? i)%nat && shiftable r1
  end.

(** Captures that agree from the second group on. *)
Definition agree (c' c : captures) : Prop :=
  List.length c' = List.length c /\
  forall i, (2 <= i)%nat -> nth i c' "" = nth i c "".

Definition sameOutcome (x' x : option captures) : Prop :=
  match x', x with
  | Some c', Some c => agree c' c
  | None, None => True
  | _, _ => False
  end.

(** Continuations that answer alike when the first is called one byte
    further. *)
Definition shifted (k' k : cont) : Prop :=
  forall p s c' c, agree c' c -> sameOutcome (k' (S p) s c') (k p s c).

(** [d'] holds the negated fields of [d]; the seconds are compared as Go
    compares floats, so that a zero of either sign negates a zero. *)
Definition negationOf (d' d : Duration) : Prop :=
  Y d' = GoInt.neg (Y d) /\ M d' = GoInt.neg (M d) /\
  W d' = GoInt.neg (W d) /\ D d' = GoInt.neg (D d) /\
  TH d' = GoInt.neg (TH d) /\ TM d' = GoInt.neg (TM d) /\
  F64.eqb (TS d') (F64.neg (TS d)) = true.

(** All seven fields, in the order Y, M, W, D, TH, TM, TS. *)
Definition intFields (a b : Duration) : list (Z * Z) :=
  [(Y a, Y b); (M a, M b); (W a, W b); (D a, D b); (TH a, TH b); (TM a, TM b)].

Definition lexLess (a b : Duration) : bool :=
  match firstDifference (intFields a b) with
  | Some r => r
  | None => F64.ltb (TS a) (TS b)
  end.

Definition swapPairs (l : list (Z * Z)) : list (Z * Z) :=
  map (fun p => (snd p, fst p)) l.

(** Seconds that are a number: a zero or a finite value. *)
Definition finiteSeconds (d : Duration) : bool :=
  match TS d with
  | S754_zero _ | S754_finite _ _ _ => true
  | S754_infinity _ | S754_nan => false
  end.

(** The formatter as a field-by-field builder: a suppressed zero, else
    the magnitude and the unit letter. *)
Definition unitText (n : Z) (letter : string) : string :=
  if neqb n 0 then formatInt (abs n) ++ letter else "".

Definition formatDuration `{Arch} (d : Duration) : string :=
  (if IsNegative d then "-" else "") ++ "P" ++
  unitText (Y d) "Y" ++ unitText (M d) "M" ++
  unitText (W d) "W" ++ unitText (D d) "D" ++
  (if HasTimePart d then "T" else "") ++
  unitText (TH d) "H" ++ unitText (TM d) "M" ++
  (if negb (F64.eqb (TS d) F64.zero)
   then htmlEscape (formatSeconds (absFloat (TS d))) ++ "S"
   else "").

(** The groups that the parser hands to [strconv.Atoi]: year, month,
    week, day, hour, minute. *)
Definition digitGroup (i : nat) : bool :=
  existsb (Nat.eqb i) [3; 5; 7; 9; 12; 14]%nat.

(** Every such group of an expression is [(\d+)]. *)
Fixpoint wellCaptured (r : regex) : bool :=
  match r with
  | Bol | Eol | Chr _ | Digit => true
  | Cat r1 r2 => wellCaptured r1 && wellCaptured r2
  | Opt r1 | Plus r1 => wellCaptured r1
  | Group i r1 =>
      if digitGroup i then
        match r1 with Plus Digit => true | _ => false end
      else wellCaptured r1
  end.

(** Captures whose integer groups hold decimal digits only (or
    nothing). *)
Definition digitCaptures (c : captures) : Prop :=
  forall i, digitGroup i = true -> allDigits (nth i c "") = true.

(** A continuation that keeps [digitCaptures]. *)
Definition keeps (k : cont) : Prop :=
  forall p s c res, digitCaptures c -> k p s c = Some res -> digitCaptures res.

(** The integer fields of a duration, all within [lo, hi]. *)
Definition intsWithin (lo hi : Z) (d : Duration) : Prop :=
  lo <= Y d <= hi /\ lo <= M d <= hi /\ lo <= W d <= hi /\
  lo <= D d <= hi /\ lo <= TH d <= hi /\ lo <= TM d <= hi.

(** A float without a minus sign (NaN has none). *)
Definition unsignedFloat (x : float64) : Prop :=
  match x with
  | S754_zero s | S754_infinity s | S754_finite s _ _ => s = false
  | S754_nan => True
  end.

(** The fields of one sign: none above zero under a leading minus, none
    below zero without it. *)
Definition oneSign (negative : bool) (d : Duration) : Prop :=
  if negative
  then intsWithin (- GoInt.max_int) 0 d /\ F64.ltb F64.zero (TS d) = false
  else intsWithin 0 GoInt.max_int d /\ F64.ltb (TS d) F64.zero = false.

(** The digits the formatter writes for a field (nothing for zero), and
    the text of its unit. *)
Definition digitsOf (n : Z) : string :=
  if neqb n 0 then formatInt n else "".

Definition digitsText (n : Z) (letter : ascii) (rest : string) : string :=
  if neqb n 0 then formatInt n ++ String letter rest else rest.

(** The captures a unit leaves: its digits in the inner group, digits
    and letter in the outer one. *)
Definition unitCaptures (outer : nat) (n : Z) (letter : ascii) (c : captures)
  : captures :=
  if neqb n 0
  then setNth outer (formatInt n ++ String letter "")
         (setNth (S outer) (formatInt n) c)
  else c.

(** A text on which [(\d+)L] fails at once and after every backtrack:
    digits, then the end or a byte that is neither a digit nor [L]. *)
Fixpoint neverLetter (L : ascii) (s : string) : bool :=
  match s with
  | EmptyString => true
  | String b s' => if isDigit b then neverLetter L s' else negb (Ascii.eqb b L)
  end.

Definition startsWithDigit (s : string) : bool :=
  match s with
  | String b _ => isDigit b
  | EmptyString => false
  end.

(** The offset behind a unit that starts at [pos]. *)
Definition unitEnd (n : Z) (pos : nat) : nat :=
  if neqb n 0 then S (String.length (formatInt n) + pos) else pos.

(** [((\d+)L)] as the matcher sees it, and the group of the time part. *)
Definition unitGroup (outer : nat) (letter : ascii) : regex :=
  Group outer (Cat (Group (S outer) (Plus Digit)) (Chr letter)).

Definition secondsGroup : regex :=
  Opt (Group 15
         (Cat (Group 16 (Cat (Plus Digit) (Opt (Cat (Chr ".") (Plus Digit)))))
              (Chr "S"))).

Definition timeGroup : regex :=
  Opt (Group 10
         (Cat (Chr "T")
              (Cat (component 11 "H") (Cat (component 13 "M") secondsGroup)))).

(** The time part the formatter writes when the seconds are zero, the
    offset behind it and the captures it leaves. *)
Definition timeText (th tm : Z) : string :=
  if neqb th 0 || neqb tm 0
  then String "T" (digitsText th "H" (digitsText tm "M" ""))
  else "".

Definition timeEnd (th tm : Z) (pos : nat) : nat :=
  if neqb th 0 || neqb tm 0 then unitEnd tm (unitEnd th (S pos)) else pos.

Definition timeCaptures (th tm : Z) (pos : nat) (c : captures) : captures :=
  if neqb th 0 || neqb tm 0
  then setNth 10 (substring 0 (timeEnd th tm pos - pos) (timeText th tm))
         (unitCaptures 13 tm "M" (unitCaptures 11 th "H" c))
  else c.

(** The text of a duration without sign and without seconds, unit by
    unit. *)
Definition durationText (d : Duration) : string :=
  String "P"
    (digitsText (Y d) "Y"
       (digitsText (M d) "M"
          (digitsText (W d) "W"
             (digitsText (D d) "D" (timeText (TH d) (TM d)))))).

(** Captures whose named groups hold the digits of the fields of [d],
    and no seconds. *)
Definition namedCaptures (d : Duration) (c : captures) : Prop :=
  nth 3 c "" = digitsOf (Y d) /\ nth 5 c "" = digitsOf (M d) /\
  nth 7 c "" = digitsOf (W d) /\ nth 9 c "" = digitsOf (D d) /\
  nth 12 c "" = digitsOf (TH d) /\ nth 14 c "" = digitsOf (TM d) /\
  nth 16 c "" = "".

(** The magnitudes of the integer fields, and no seconds. *)
Definition magnitudes (d : Duration) : Duration :=
  mkDuration (- Y d) (- M d) (- W d) (- D d) (- TH d) (- TM d) F64.zero.

(** The words of a regular expression.  The anchors stand for the empty
    word; where they hold is the matcher's business. *)
Inductive lang : regex -> string -> Prop :=
| LBol : lang Bol ""
| LEol : lang Eol ""
| LChr (a : ascii) : lang (Chr a) (String a "")
| LDigit (b : ascii) : isDigit b = true -> lang Digit (String b "")
| LCat (r1 r2 : regex) (w1 w2 : string) :
    lang r1 w1 -> lang r2 w2 -> lang (Cat r1 r2) (w1 ++ w2)
| LOptNone (r : regex) : lang (Opt r) ""
| LOptSome (r : regex) (w : string) : lang r w -> lang (Opt r) w
| LPlusOne (r : regex) (w : string) : lang r w -> lang (Plus r) w
| LPlusMore (r : regex) (w1 w2 : string) :
    lang r w1 -> lang (Plus r) w2 -> lang (Plus r) (w1 ++ w2)
| LGroup (i : nat) (r : regex) (w : string) : lang r w -> lang (Group i r) w.

(** The bytes an expression can consume. *)
Fixpoint inAlphabet (r : regex) (ch : ascii) : bool :=
  match r with
  | Bol | Eol => false
  | Chr a => Ascii.eqb a ch
  | Digit => isDigit ch
  | Cat r1 r2 => inAlphabet r1 ch || inAlphabet r2 ch
  | Opt r1 | Plus r1 | Group _ r1 => inAlphabet r1 ch
  end.

(** An expression whose last factor is [$]. *)
Fixpoint endsWithEol (r : regex) : bool :=
  match r with
  | Eol => true
  | Cat _ r2 => endsWithEol r2
  | _ => false
  end.

(** Every group [i] of [r] matches only words that satisfy [P i]. *)
Fixpoint groupsSatisfy (P : nat -> string -> Prop) (r : regex) : Prop :=
  match r with
  | Bol | Eol | Chr _ | Digit => True
  | Cat r1 r2 => groupsSatisfy P r1 /\ groupsSatisfy P r2
  | Opt r1 | Plus r1 => groupsSatisfy P r1
  | Group i r1 => (forall w, lang r1 w -> P i w) /\ groupsSatisfy P r1
  end.

Definition capturesSatisfy (P : nat -> string -> Prop) (c : captures) : Prop :=
  forall i, P i (nth i c "").

(** The bytes of a duration literal. *)
Definition durationByte (ch : ascii) : bool :=
  isDigit ch || existsb (Ascii.eqb ch) (list_ascii_of_string "-PYMWDTHS.").

(** What the parser needs of a capture: digits in the integer groups,
    and in the seconds group nothing or a text that [ParseFloat] does
    not find malformed. *)
Definition parsable (i : nat) (w : string) : Prop :=
  (digitGroup i = true -> allDigits w = true) /\
  (i = 16%nat -> w = "" \/ forall e, ParseFloat w = Err e -> e = ErrRange).

(* ================================================================== *)
(** * Properties *)

(* ------------------------------------------------------------------ *)
(** ** Wrap-around arithmetic *)

Module GoIntFacts.
Import GoInt.

Lemma wrap_mod (z : Z) : wrap z mod 2 ^ 64 = z mod 2 ^ 64.
Proof.
  unfold wrap.
  pose proof (Z.div_mod (z + 2 ^ 63) (2 ^ 64) ltac:(lia)) as E.
  replace ((z + 2 ^ 63) mod 2 ^ 64 - 2 ^ 63)
    with (z + - ((z + 2 ^ 63) / 2 ^ 64) * 2 ^ 64) by lia.
  apply Z.mod_add. lia.
Qed.

Lemma wrap_congr (a b : Z) : a mod 2 ^ 64 = b mod 2 ^ 64 -> wrap a = wrap b.
Proof.
  intros E. unfold wrap.
  rewrite <- (Zplus_mod_idemp_l a), <- (Zplus_mod_idemp_l b), E.
  reflexivity.
Qed.

Lemma wrap_in_range (z : Z) : in_range (wrap z).
Proof.
  unfold in_range, wrap, min_int, max_int.
  pose proof (Z.mod_pos_bound (z + 2 ^ 63) (2 ^ 64)). lia.
Qed.

Lemma wrap_id (z : Z) : in_range z -> wrap z = z.
Proof.
  unfold in_range, wrap, min_int, max_int. intros R.
  rewrite Z.mod_small; lia.
Qed.

Lemma wrap_add_l (a b : Z) : wrap (wrap a + b) = wrap (a + b).
Proof.
  apply wrap_congr.
  rewrite <- Zplus_mod_idemp_l, wrap_mod, Zplus_mod_idemp_l. reflexivity.
Qed.

Lemma wrap_add_r (a b : Z) : wrap (a + wrap b) = wrap (a + b).
Proof. rewrite Z.add_comm, wrap_add_l. f_equal. lia. Qed.

Lemma wrap_mul_l (a b : Z) : wrap (wrap a * b) = wrap (a * b).
Proof.
  apply wrap_congr.
  rewrite <- Zmult_mod_idemp_l, wrap_mod, Zmult_mod_idemp_l. reflexivity.
Qed.

Lemma wrap_opp (a : Z) : wrap (- wrap a) = wrap (- a).
Proof.
  replace (- wrap a) with (wrap a * -1) by lia.
  rewrite wrap_mul_l. f_equal. lia.
Qed.

Lemma wrap_sub_r (a b : Z) : wrap (a - wrap b) = wrap (a - b).
Proof.
  replace (a - wrap b) with (a + - wrap b) by lia.
  rewrite <- wrap_add_r, wrap_opp, wrap_add_r. f_equal.
Qed.

Lemma wrap_char (z : Z) :
  exists k, wrap z = z + k * 2 ^ 64 /\
            - 2 ^ 63 <= z + k * 2 ^ 64 <= 2 ^ 63 - 1.
Proof.
  exists (- ((z + 2 ^ 63) / 2 ^ 64)).
  pose proof (wrap_in_range z) as R.
  unfold in_range, min_int, max_int in R.
  assert (E : wrap z = z + - ((z + 2 ^ 63) / 2 ^ 64) * 2 ^ 64).
  { unfold wrap.
    pose proof (Z.div_mod (z + 2 ^ 63) (2 ^ 64) ltac:(lia)). lia. }
  rewrite <- E. split; [reflexivity | exact R].
Qed.

Lemma in_rangeb_spec (z : Z) : in_rangeb z = true <-> in_range z.
Proof. unfold in_rangeb, in_range. lia. Qed.

(** Negation vanishes only at zero. *)
Lemma neg_eq_0 (z : Z) : in_range z -> (neg z =? 0) = (z =? 0).
Proof.
  unfold in_range, neg, wrap, min_int, max_int. intros R.
  destruct (Z.eq_dec z (- 2 ^ 63)) as [->|N].
  - reflexivity.
  - rewrite Z.mod_small by lia.
    destruct (Z.eqb_spec z 0); destruct (Z.eqb_spec (- z + 2 ^ 63 - 2 ^ 63) 0);
      lia.
Qed.

End GoIntFacts.

(** Linear goals over wrapped expressions: every [wrap x], innermost
    first, is [x] moved by a multiple of 2^64 into the range of [int]. *)
Ltac wrap_lia :=
  unfold GoInt.add, GoInt.sub, GoInt.mul, GoInt.neg, GoInt.in_range,
    GoInt.min_int, GoInt.max_int in *;
  repeat match goal with
    | |- context [GoInt.wrap ?x] =>
        lazymatch x with
        | context [GoInt.wrap _] => fail
        | _ => idtac
        end;
        let k := fresh "k" in
        let E := fresh "E" in
        let R := fresh "R" in
        destruct (GoIntFacts.wrap_char x) as (k & E & R);
        rewrite E in *; clear E
    end;
  lia.

(* ------------------------------------------------------------------ *)
(** ** Floating point *)

Module F64Facts.
Import F64.

Lemma sub_add_neg (x y : float64) : sub x y = add x (neg y).
Proof.
  destruct x as [sx|sx| |sx mx ex], y as [sy|sy| |sy my ey];
    try reflexivity;
    destruct sx, sy; reflexivity.
Qed.

(** Rounding to nearest even does not look at the sign. *)
Lemma binary_round_aux_opp (s : bool) (m e : Z) (l : location) :
  binary_round_aux prec emax (negb s) m e l
  = SFopp (binary_round_aux prec emax s m e l).
Proof.
  unfold binary_round_aux.
  destruct (shr_fexp prec emax m e l) as [mrs e'].
  destruct (shr_fexp prec emax _ e' loc_Exact) as [mrs' e''].
  destruct (shr_m mrs'); try reflexivity.
  destruct (e'' <=? emax - prec); reflexivity.
Qed.

Lemma mul_neg_l (x y : float64) : mul (neg x) y = neg (mul x y).
Proof.
  destruct x as [sx|sx| |sx mx ex], y as [sy|sy| |sy my ey];
    try reflexivity;
    try (destruct sx, sy; reflexivity).
  unfold mul, neg, SFmul. cbn [SFopp].
  replace (xorb (negb sx) sy) with (negb (xorb sx sy))
    by (destruct sx, sy; reflexivity).
  apply binary_round_aux_opp.
Qed.

Lemma same_eq (x y : float64) : same x y = true -> x = y.
Proof.
  destruct x as [a|a| |a m e], y as [b|b| |b m' e']; cbn;
    try discriminate; try reflexivity.
  - intros E. apply Bool.eqb_prop in E. now subst.
  - intros E. apply Bool.eqb_prop in E. now subst.
  - intros E. apply andb_prop in E as [E E3]. apply andb_prop in E as [E1 E2].
    apply Bool.eqb_prop in E1. apply Pos.eqb_eq in E2. apply Z.eqb_eq in E3.
    now subst.
Qed.

Lemma trunc_neg (x : float64) : trunc (neg x) = option_map Z.opp (trunc x).
Proof.
  destruct x as [s|s| |s m e]; try reflexivity.
  cbn. f_equal. destruct s; cbn; lia.
Qed.

End F64Facts.

(* ------------------------------------------------------------------ *)
(** ** Arithmetic *)

Lemma Equal_same (d : Duration) :
  F64.is_nan (TS d) = false -> Equal d d = true.
Proof.
  intros N. unfold Equal. rewrite !Z.eqb_refl. cbn [andb].
  destruct (TS d) as [s|s| |s m e]; try discriminate N;
    try (destruct s; reflexivity).
  unfold F64.eqb, SFeqb, SFcompare.
  destruct s; rewrite Z.compare_refl, Pos.compare_cont_refl; reflexivity.
Qed.

Lemma Subtract_Add_Negate (a b : Duration) : Subtract a b = Add a (Negate b).
Proof.
  unfold Subtract, Add, Negate; cbn [Y M W D TH TM TS].
  rewrite F64Facts.sub_add_neg.
  f_equal; wrap_lia.
Qed.

(** C10, as the code has it.  When the difference of the seconds is a
    number (not NaN), [Subtract a b] equals [Add a (Negate b)] by the
    package's own [Equal], and the two are the same field by field: the
    integer fields agree under wrap-around, and the binary64 difference
    [a.TS - b.TS] is the same float as [a.TS + (-b.TS)], the sign of a
    zero included. *)
Theorem Subtract_is_Add_Negate (a b : Duration) :
  F64.is_nan (F64.sub (TS a) (TS b)) = false ->
  Equal (Subtract a b) (Add a (Negate b)) = true /\
  Subtract a b = Add a (Negate b).
Proof.
  intros N. split; [|apply Subtract_Add_Negate].
  rewrite <- Subtract_Add_Negate. apply Equal_same. exact N.
Qed.

(** C10 as stated fails where the seconds give NaN: infinity minus
    infinity is NaN, and a NaN is equal to nothing, itself included. *)
Lemma infinite_seconds_differ :
  TS (Subtract infiniteSeconds infiniteSeconds) = S754_nan /\
  Equal (Subtract infiniteSeconds infiniteSeconds)
        (Add infiniteSeconds (Negate infiniteSeconds)) = false.
Proof. split; reflexivity. Qed.

Lemma Subtract_is_Add_Negate_witness :
  Equal (Subtract (mkDuration 1 0 0 3 0 0 oneAndAHalf)
                  (mkDuration 0 2 0 5 0 0 (F64.of_Z 4)))
        (Add (mkDuration 1 0 0 3 0 0 oneAndAHalf)
             (Negate (mkDuration 0 2 0 5 0 0 (F64.of_Z 4)))) = true.
Proof.
  apply (Subtract_is_Add_Negate (mkDuration 1 0 0 3 0 0 oneAndAHalf)
           (mkDuration 0 2 0 5 0 0 (F64.of_Z 4))).
  reflexivity.
Defined.

(* ------------------------------------------------------------------ *)
(** ** Comparison *)

Lemma lessThanTime_lex (a b : Duration) : lessThanTime a b = timeLexLess a b.
Proof.
  unfold lessThanTime, timeLexLess, firstDifference, neqb.
  destruct (TH a =? TH b), (TM a =? TM b); reflexivity.
Qed.

(** C7.  When either duration has a non-zero date field, the first of
    Y, M, W, D in which the two differ decides [LessThan]; when they
    differ in none, and when both date parts are all zero, the time
    fields TH, TM, TS are compared lexicographically, TS by the float
    [<]. *)
Theorem LessThan_lexicographic (a b : Duration) :
  (hasDatePart a || hasDatePart b = true ->
   forall r, firstDifference (dateFields a b) = Some r -> LessThan a b = r) /\
  (hasDatePart a || hasDatePart b = true ->
   firstDifference (dateFields a b) = None ->
   LessThan a b = timeLexLess a b) /\
  (hasDatePart a = false -> hasDatePart b = false ->
   LessThan a b = timeLexLess a b).
Proof.
  unfold LessThan, dateFields, firstDifference, neqb.
  rewrite lessThanTime_lex.
  repeat split.
  - intros -> r.
    destruct (Y a =? Y b), (M a =? M b), (W a =? W b), (D a =? D b);
      cbn; congruence.
  - intros ->.
    destruct (Y a =? Y b), (M a =? M b), (W a =? W b), (D a =? D b);
      cbn; congruence.
  - intros -> ->. reflexivity.
Qed.

(** The three cases at work: a date difference decides although the time
    fields point the other way; equal dates fall through to the time
    fields; time-only durations compare by time. *)
Lemma LessThan_lexicographic_witness :
  LessThan (mkDuration 0 1 0 0 9 0 F64.zero) (mkDuration 0 2 0 0 1 0 F64.zero)
    = true /\
  LessThan (mkDuration 0 0 0 1 1 0 F64.zero) (mkDuration 0 0 0 1 2 0 F64.zero)
    = true /\
  LessThan (mkDuration 0 0 0 0 1 30 F64.zero) (mkDuration 0 0 0 0 2 15 F64.zero)
    = true.
Proof.
  split; [|split].
  - apply (proj1 (LessThan_lexicographic
                    (mkDuration 0 1 0 0 9 0 F64.zero)
                    (mkDuration 0 2 0 0 1 0 F64.zero))); reflexivity.
  - apply (proj1 (proj2 (LessThan_lexicographic
                           (mkDuration 0 0 0 1 1 0 F64.zero)
                           (mkDuration 0 0 0 1 2 0 F64.zero)))); reflexivity.
  - apply (proj2 (proj2 (LessThan_lexicographic
                           (mkDuration 0 0 0 0 1 30 F64.zero)
                           (mkDuration 0 0 0 0 2 15 F64.zero)))); reflexivity.
Defined.

(* ------------------------------------------------------------------ *)
(** ** The calendar shifter *)

(** The arithmetic integer part is what the conversion computes. *)
Lemma integerPart_trunc (x : float64) (z : Z) :
  integerPart x z -> F64.trunc x = Some z.
Proof.
  destruct x as [s|s| |s m e]; cbn [integerPart F64.trunc];
    try contradiction.
  - now intros ->.
  - intros [S B]. f_equal.
    destruct (Z.leb_spec 0 e) as [E|E].
    + rewrite (Z.max_l 0 (- e)), (Z.max_r 0 e) in B by lia.
      change (2 ^ 0) with 1 in B.
      destruct s; lia.
    + rewrite (Z.max_r 0 (- e)), (Z.max_l 0 e) in B by lia.
      change (2 ^ 0) with 1 in B.
      assert (P : 0 < 2 ^ (- e)) by (apply Z.pow_pos_nonneg; lia).
      assert (Q : Z.pos m / 2 ^ (- e) = Z.abs z).
      { symmetry.
        apply (Z.div_unique _ _ _ (Z.pos m - Z.abs z * 2 ^ (- e))); lia. }
      rewrite Q. destruct s; lia.
Qed.

Section Conversion.
Context `{Arch}.

Lemma int64_of_integerPart (x : float64) (z : Z) :
  integerPart x z -> GoInt.in_range z -> int64_of_float x = z.
Proof.
  intros I R. unfold int64_of_float. rewrite (integerPart_trunc x z I).
  apply GoIntFacts.in_rangeb_spec in R. now rewrite R.
Qed.

Lemma int64_of_float_in_range (x : float64) :
  GoInt.in_range (int64_of_float x).
Proof.
  unfold int64_of_float.
  destruct (F64.trunc x) as [z|]; [|apply GoIntFacts.wrap_in_range].
  destruct (GoInt.in_rangeb z) eqn:R; [|apply GoIntFacts.wrap_in_range].
  now apply GoIntFacts.in_rangeb_spec.
Qed.

Lemma timeDuration_wrap (d : Duration) :
  timeDuration d =
  GoInt.wrap (TH d * Hour + TM d * Minute +
              int64_of_float (F64.mul (TS d) (F64.of_Z Second))).
Proof. unfold timeDuration, Hour, Minute, Second, Nanosecond. wrap_lia. Qed.

(** The offset: TH hours plus TM minutes plus the whole nanoseconds of
    TS seconds, in [int64]. *)
Lemma timeDuration_integerPart (d : Duration) (ns : Z) :
  integerPart (F64.mul (TS d) (F64.of_Z Second)) ns ->
  GoInt.in_range ns ->
  timeDuration d = GoInt.wrap (TH d * Hour + TM d * Minute + ns).
Proof.
  intros I R. unfold timeDuration.
  rewrite (int64_of_integerPart _ ns I R).
  unfold Hour, Minute, Second, Nanosecond. clear I. wrap_lia.
Qed.

End Conversion.

Section Shifter.
Context `{Arch} `{Clock}.






End Shifter.


(** ** [Unshift] against [Shift] of the negation *)

Section Unshift.
Context `{Arch} `{Clock}.

Lemma hasDatePart_Negate (d : Duration) :
  wellTyped d -> hasDatePart (Negate d) = hasDatePart d.
Proof.
  intros (RY & RM & RW & RD & _).
  unfold hasDatePart, neqb, Negate; cbn [Y M W D].
  now rewrite !GoIntFacts.neg_eq_0 by assumption.
Qed.

Lemma totalDays_Negate (d : Duration) :
  totalDays (Negate d) = GoInt.neg (totalDays d).
Proof. unfold totalDays, Negate; cbn [W D]. wrap_lia. Qed.

Lemma int64_of_float_neg (x : float64) (z : Z) :
  F64.trunc x = Some z -> - GoInt.max_int <= z <= GoInt.max_int ->
  int64_of_float x = z /\ int64_of_float (F64.neg x) = - z.
Proof.
  intros E R. unfold int64_of_float.
  rewrite F64Facts.trunc_neg, E. cbn [option_map].
  assert (GoInt.in_rangeb z = true /\ GoInt.in_rangeb (- z) = true) as [-> ->].
  { rewrite !GoIntFacts.in_rangeb_spec.
    unfold GoInt.in_range, GoInt.min_int, GoInt.max_int in *. lia. }
  split; reflexivity.
Qed.

Lemma timeDuration_Negate (d : Duration) :
  secondsFit d -> timeDuration (Negate d) = GoInt.neg (timeDuration d).
Proof.
  intros (z & E & R).
  unfold timeDuration, Negate; cbn [TH TM TS].
  rewrite F64Facts.mul_neg_l.
  destruct (int64_of_float_neg _ z E R) as [-> ->].
  unfold Hour, Minute, Second, Nanosecond. wrap_lia.
Qed.

(** C3, as the code has it.  For a well-typed [d] whose seconds, in
    nanoseconds, fit [int64] with either sign, [Unshift d t] is
    [Shift (Negate d) t], on every architecture and for every clock. *)
Theorem Unshift_is_Shift_Negate (d : Duration) (t : Time) :
  wellTyped d -> secondsFit d -> Unshift d t = Shift (Negate d) t.
Proof.
  intros WT SF. unfold Unshift, Shift.
  rewrite hasDatePart_Negate, totalDays_Negate, timeDuration_Negate
    by assumption.
  reflexivity.
Qed.

End Unshift.

(** On x86-64 every conversion that does not fit answers the least
    [int64], which is its own negation: there the equation holds for all
    seconds. *)
Lemma int64_of_float_neg_amd64 (x : float64) :
  @int64_of_float amd64 (F64.neg x) = GoInt.neg (@int64_of_float amd64 x).
Proof.
  unfold int64_of_float. rewrite F64Facts.trunc_neg.
  destruct (F64.trunc x) as [z|]; cbn [option_map]; [|reflexivity].
  cbn [convert_unrepresentable amd64].
  unfold GoInt.in_rangeb, GoInt.min_int, GoInt.max_int.
  destruct (Z.leb_spec (- 2 ^ 63) z), (Z.leb_spec z (2 ^ 63 - 1)),
    (Z.leb_spec (- 2 ^ 63) (- z)), (Z.leb_spec (- z) (2 ^ 63 - 1));
    cbn [andb]; try lia; try reflexivity;
    try (assert (z = - 2 ^ 63) as -> by lia; reflexivity);
    try (assert (z = 2 ^ 63) as -> by lia; reflexivity);
    unfold GoInt.neg, GoInt.wrap; rewrite Z.mod_small; lia.
Qed.

Lemma Unshift_is_Shift_Negate_amd64 `{Clock} (d : Duration) (t : Time) :
  wellTyped d -> @Unshift amd64 _ d t = @Shift amd64 _ (Negate d) t.
Proof.
  intros WT. unfold Unshift, Shift.
  rewrite (@hasDatePart_Negate d WT), totalDays_Negate.
  replace (@timeDuration amd64 (Negate d))
    with (GoInt.neg (@timeDuration amd64 d)); [reflexivity|].
  unfold timeDuration, Negate; cbn [TH TM TS].
  rewrite F64Facts.mul_neg_l, int64_of_float_neg_amd64.
  unfold Hour, Minute, Second, Nanosecond. wrap_lia.
Qed.

(** C3 as stated fails where conversions saturate: for ten billion
    seconds on AArch64 the two results are one nanosecond apart, since
    [int64(1e19)] is the greatest [int64] and [int64(-1e19)] the least. *)
Lemma Unshift_differs_from_Shift_Negate_arm64 :
  wellTyped tenGigaseconds /\
  @Unshift arm64 utcClock tenGigaseconds 0 = - (2 ^ 63 - 1) /\
  @Shift arm64 utcClock (Negate tenGigaseconds) 0 = - 2 ^ 63 /\
  @Unshift arm64 utcClock tenGigaseconds 0
    <> @Shift arm64 utcClock (Negate tenGigaseconds) 0.
Proof.
  split; [|split; [|split]].
  - unfold wellTyped, GoInt.in_range, GoInt.min_int, GoInt.max_int.
    cbn. repeat split; try lia; discriminate.
  - vm_compute. reflexivity.
  - vm_compute. reflexivity.
  - vm_compute. discriminate.
Qed.

Lemma Unshift_is_Shift_Negate_witness :
  @Unshift arm64 utcClock (mkDuration 1 2 0 3 4 5 (F64.of_Z 6)) 0
  = @Shift arm64 utcClock (Negate (mkDuration 1 2 0 3 4 5 (F64.of_Z 6))) 0.
Proof.
  apply (@Unshift_is_Shift_Negate arm64 utcClock).
  - unfold wellTyped, GoInt.in_range, GoInt.min_int, GoInt.max_int.
    cbn. repeat split; try lia; discriminate.
  - exists 6000000000. split; [vm_compute; reflexivity|].
    unfold GoInt.max_int. lia.
Defined.

(* ------------------------------------------------------------------ *)
(** ** The bridge to [time.Duration] *)

(** Truncated division of [q * b + r] when the remainder has the sign of
    the quotient. *)
Lemma quot_of_parts (q r b : Z) :
  0 < b ->
  (0 <= q /\ 0 <= r < b) \/ (q <= 0 /\ - b < r <= 0) ->
  Z.quot (q * b + r) b = q.
Proof.
  intros B [[Q R]|[Q R]].
  - symmetry. apply (Z.quot_unique _ _ q r); nia.
  - replace (q * b + r) with (- ((- q) * b + (- r))) by lia.
    rewrite Z.quot_opp_l by lia.
    rewrite <- (Z.quot_unique ((- q) * b + - r) b (- q) (- r)); nia.
Qed.

Lemma wholeSeconds_checked : forallb secondsExact wholeSeconds = true.
Proof. vm_compute. reflexivity. Qed.

(** Whole seconds below a minute go to nanoseconds and back without
    loss. *)
Lemma wholeSeconds_exact (k : Z) :
  In k wholeSeconds ->
  F64.trunc (F64.mul (F64.of_Z k) (F64.of_Z Second)) = Some (k * Second) /\
  F64.div (F64.of_Z (k * Second)) (F64.of_Z Second) = F64.of_Z k /\
  F64.eqb (F64.of_Z k) (F64.of_Z k) = true.
Proof.
  intros I.
  pose proof (proj1 (forallb_forall _ _) wholeSeconds_checked k I) as C.
  unfold secondsExact in C.
  apply andb_prop in C as [C C3]. apply andb_prop in C as [C1 C2].
  repeat split.
  - destruct (F64.trunc _) as [z|]; [|discriminate].
    apply Z.eqb_eq in C1. now subst.
  - apply F64Facts.same_eq, C2.
  - exact C3.
Qed.

Lemma wholeSeconds_all (k : Z) : - 60 < k < 60 -> In k wholeSeconds.
Proof.
  intros R. unfold wholeSeconds.
  apply in_map_iff. exists (Z.to_nat (k + 59)). split; [lia|].
  apply in_seq. lia.
Qed.

Section Bridge.
Context `{Arch}.

Lemma timeDuration_in_range (d : Duration) : GoInt.in_range (timeDuration d).
Proof. unfold timeDuration, GoInt.add at 1. apply GoIntFacts.wrap_in_range. Qed.

(** [FromTimeDuration] undoes the sum of hours, minutes and remaining
    nanoseconds of one sign. *)
Lemma FromTimeDuration_of_parts (h m r : Z) :
  - 60 < m < 60 -> - Minute < r < Minute ->
  (0 <= h /\ 0 <= m /\ 0 <= r) \/ (h <= 0 /\ m <= 0 /\ r <= 0) ->
  GoInt.in_range (h * Hour + m * Minute + r) ->
  FromTimeDuration (h * Hour + m * Minute + r) =
  mkDuration 0 0 0 0 h m (F64.div (F64.of_Z r) (F64.of_Z Second)).
Proof.
  intros RM RR S R.
  unfold FromTimeDuration, GoInt.quo.
  assert (Q1 : Z.quot (h * Hour + m * Minute + r) Hour = h).
  { rewrite <- Z.add_assoc. apply quot_of_parts.
    - reflexivity.
    - unfold Hour, Minute, Second, Nanosecond in *. lia. }
  rewrite Q1.
  assert (W1 : GoInt.wrap h = h).
  { apply GoIntFacts.wrap_id.
    unfold GoInt.in_range, GoInt.min_int, GoInt.max_int,
      Hour, Minute, Second, Nanosecond in *. lia. }
  rewrite W1.
  assert (S1 : GoInt.sub (h * Hour + m * Minute + r) (GoInt.mul h Hour)
               = m * Minute + r).
  { unfold Hour, Minute, Second, Nanosecond in *. wrap_lia. }
  rewrite S1.
  assert (Q2 : Z.quot (m * Minute + r) Minute = m).
  { apply quot_of_parts.
    - reflexivity.
    - unfold Minute, Second, Nanosecond in *. lia. }
  rewrite Q2.
  assert (W2 : GoInt.wrap m = m).
  { apply GoIntFacts.wrap_id.
    unfold GoInt.in_range, GoInt.min_int, GoInt.max_int. lia. }
  rewrite W2.
  assert (S2 : GoInt.sub (m * Minute + r) (GoInt.mul m Minute) = r).
  { unfold Minute, Second, Nanosecond in *. wrap_lia. }
  rewrite S2. reflexivity.
Qed.

(** C5, as the code has it.  For a duration without date part that a
    decomposition can give (TH, TM and the whole nanoseconds [ns] of
    the seconds of one sign, TM below sixty, [ns] below a minute, the
    total within [int64], and the seconds equal to [ns / 1e9] again),
    converting to [time.Duration] and back gives an equal duration. *)
Theorem FromTimeDuration_ToTimeDuration (d : Duration) (ns : Z) :
  Y d = 0 -> M d = 0 -> W d = 0 -> D d = 0 -> restoredFrom d ns ->
  Equal (FromTimeDuration (ToTimeDuration d)) d = true.
Proof.
  intros EY EM EW ED (I & ETS & RR & RM & S & R).
  assert (Rns : GoInt.in_range ns).
  { unfold GoInt.in_range, GoInt.min_int, GoInt.max_int,
      Minute, Second, Nanosecond in *. lia. }
  unfold ToTimeDuration.
  rewrite (timeDuration_integerPart d ns I Rns).
  rewrite (GoIntFacts.wrap_id _ R).
  rewrite (FromTimeDuration_of_parts (TH d) (TM d) ns RM RR S R).
  unfold Equal; cbn [Y M W D TH TM TS].
  rewrite EY, EM, EW, ED, !Z.eqb_refl, ETS. reflexivity.
Qed.

Lemma same_remainder (h m c r : Z) :
  GoInt.in_range c -> - Minute < r < Minute ->
  GoInt.wrap (h * Hour + m * Minute + c) = h * Hour + m * Minute + r ->
  c = r.
Proof.
  unfold Hour, Minute, Second, Nanosecond. intros Rc Rr.
  destruct (GoIntFacts.wrap_char
              (h * (60 * (60 * (1000000000 * 1))) +
               m * (60 * (1000000000 * 1)) + c)) as (k & -> & _).
  unfold GoInt.in_range, GoInt.min_int, GoInt.max_int in Rc. lia.
Qed.

Lemma Equal_fields (a b : Duration) :
  Equal a b = true ->
  Y a = Y b /\ M a = M b /\ W a = W b /\ D a = D b /\
  TH a = TH b /\ TM a = TM b /\ F64.eqb (TS a) (TS b) = true.
Proof.
  unfold Equal. intros E.
  repeat match goal with
    | X : _ && _ = true |- _ => apply andb_prop in X as [? ?]
    end.
  repeat match goal with
    | X : (_ =? _) = true |- _ => apply Z.eqb_eq in X
    end.
  repeat split; assumption.
Qed.

Lemma ToTimeDuration_unfold (d : Duration) : ToTimeDuration d = timeDuration d.
Proof. reflexivity. Qed.

End Bridge.

(** C5 as stated fails, on either architecture.  Ninety minutes come
    back as one hour and thirty minutes; and 8.2 seconds, which are
    8199999999 whole nanoseconds, come back as 8.199999999 seconds.
    Ninety seconds, an hour less thirty minutes and three million hours
    do not come back either. *)
Lemma time_fields_not_restored :
  (hasDatePart ninetyMinutes = false /\
   FromTimeDuration (@ToTimeDuration amd64 ninetyMinutes)
     = mkDuration 0 0 0 0 1 30 F64.zero /\
   Equal (FromTimeDuration (@ToTimeDuration amd64 ninetyMinutes))
         ninetyMinutes = false /\
   Equal (FromTimeDuration (@ToTimeDuration arm64 ninetyMinutes))
         ninetyMinutes = false) /\
  (hasDatePart eightPointTwo = false /\
   ParseFloat "8.2" = Ok (TS eightPointTwo) /\
   @ToTimeDuration amd64 eightPointTwo = 8199999999 /\
   ParseFloat "8.199999999"
     = Ok (TS (FromTimeDuration (@ToTimeDuration amd64 eightPointTwo))) /\
   Equal (FromTimeDuration (@ToTimeDuration amd64 eightPointTwo))
         eightPointTwo = false /\
   Equal (FromTimeDuration (@ToTimeDuration arm64 eightPointTwo))
         eightPointTwo = false) /\
  (FromTimeDuration (@ToTimeDuration amd64 ninetySeconds)
     = mkDuration 0 0 0 0 0 1 (F64.of_Z 30) /\
   Equal (FromTimeDuration (@ToTimeDuration amd64 ninetySeconds))
         ninetySeconds = false) /\
  (FromTimeDuration (@ToTimeDuration amd64 mixedSigns)
     = mkDuration 0 0 0 0 0 30 F64.zero /\
   Equal (FromTimeDuration (@ToTimeDuration amd64 mixedSigns))
         mixedSigns = false) /\
  (wellTyped threeMillionHours /\
   TH (FromTimeDuration (@ToTimeDuration amd64 threeMillionHours))
     = - 2124095 /\
   Equal (FromTimeDuration (@ToTimeDuration amd64 threeMillionHours))
         threeMillionHours = false).
Proof.
  repeat match goal with |- _ /\ _ => split end;
    try (vm_compute; reflexivity).
  unfold wellTyped, GoInt.in_range, GoInt.min_int, GoInt.max_int.
  cbn. repeat split; try lia; discriminate.
Qed.

(** Minus one hour, thirty minutes and a second and a half. *)
Lemma FromTimeDuration_ToTimeDuration_witness :
  Equal (FromTimeDuration
           (@ToTimeDuration amd64
              (mkDuration 0 0 0 0 (-1) (-30) (F64.neg oneAndAHalf))))
        (mkDuration 0 0 0 0 (-1) (-30) (F64.neg oneAndAHalf)) = true.
Proof.
  apply (@FromTimeDuration_ToTimeDuration amd64
           (mkDuration 0 0 0 0 (-1) (-30) (F64.neg oneAndAHalf))
           (-1500000000));
    try reflexivity.
  unfold restoredFrom; cbn [TH TM TS].
  split; [vm_compute; repeat split; discriminate|].
  split; [vm_compute; reflexivity|].
  unfold GoInt.in_range, GoInt.min_int, GoInt.max_int,
    Hour, Minute, Second, Nanosecond.
  repeat split; try lia.
Defined.


(* ------------------------------------------------------------------ *)
(** ** The formatter *)

Section Formatter.
Context `{Arch}.

Lemma Execute_cons (n : node) (t : list node) (dot : value) (out : string) :
  Execute (n :: t) dot out =
  match execNode n dot out with
  | inl out' => Execute t dot out'
  | inr e => inr e
  end.
Proof. reflexivity. Qed.

Lemma execNode_If (c : pipeline) (body : list node) (dot : value)
  (out : string) :
  execNode (If c body) dot out =
  match evalPipeline c dot with
  | inl v => if truth v then Execute body dot out else inl out
  | inr e => inr e
  end.
Proof.
  cbn [execNode].
  destruct (evalPipeline c dot) as [v|e]; [|reflexivity].
  destruct (truth v); [|reflexivity].
  revert out. induction body as [|n body IH]; intros out; [reflexivity|].
  cbn [Execute]. destruct (execNode n dot out); [apply IH|reflexivity].
Qed.

Lemma execNode_Action (p : pipeline) (dot : value) (out : string) :
  execNode (Action p) dot out =
  match evalPipeline p dot with
  | inl v =>
      match printValue v with
      | inl s => inl (out ++ s)
      | inr e => inr e
      end
  | inr e => inr e
  end.
Proof. reflexivity. Qed.

Lemma execNode_Text (s : string) (dot : value) (out : string) :
  execNode (Text s) dot out = inl (out ++ s).
Proof. reflexivity. Qed.

Lemma evalPipeline_Field (name : string) (dot : value) :
  evalPipeline (Field name) dot = evalField name dot.
Proof. reflexivity. Qed.

Lemma evalPipeline_Call (fn : string) (arg : pipeline) (dot : value) :
  evalPipeline (Call fn arg) dot =
  match evalPipeline arg dot with
  | inl v => callFunc fn v
  | inr e => inr e
  end.
Proof. reflexivity. Qed.

(** A unit of the template prints whenever its field is an integer. *)
Lemma unitNodes_ok (field unit : string) (d : Duration) (n : Z) (out : string) :
  evalField field (VDuration d) = inl (VInt n) ->
  execNode (unitNodes field unit) (VDuration d) out =
  inl (if neqb n 0 then (out ++ htmlEscape (formatInt (abs n))) ++ unit
       else out).
Proof.
  intros E. unfold unitNodes.
  rewrite execNode_If, evalPipeline_Field, E.
  cbv beta iota. cbn [truth]. destruct (neqb n 0); [|reflexivity].
  rewrite !Execute_cons, execNode_Action, evalPipeline_Call,
    evalPipeline_Field, E.
  reflexivity.
Qed.

Lemma signNode_ok (d : Duration) (out : string) :
  execNode (If (Call "isNegative" Dot) [Text "-"]) (VDuration d) out =
  inl (if isNegative d then out ++ "-" else out).
Proof.
  rewrite execNode_If, evalPipeline_Call.
  change (evalPipeline Dot (VDuration d))
    with (@inl value execError (VDuration d)).
  cbv beta iota.
  change (callFunc "isNegative" (VDuration d)) with
    (@inl value execError (VBool (isNegative d))).
  cbv beta iota. cbn [truth]. destruct (isNegative d); reflexivity.
Qed.

Lemma timeNode_ok (d : Duration) (out : string) :
  execNode (If (Field "HasTimePart") [Text "T"]) (VDuration d) out =
  inl (if HasTimePart d then out ++ "T" else out).
Proof.
  rewrite execNode_If, evalPipeline_Field.
  change (evalField "HasTimePart" (VDuration d)) with
    (@inl value execError (VBool (HasTimePart d))).
  cbv beta iota. cbn [truth]. destruct (HasTimePart d); reflexivity.
Qed.

Lemma secondsNode_ok (d : Duration) (out : string) :
  execNode
    (If (Field "TS")
        [Action (Call "formatSeconds" (Call "absFloat" (Field "TS")));
         Text "S"]) (VDuration d) out =
  inl (if negb (F64.eqb (TS d) F64.zero)
       then (out ++ htmlEscape (formatSeconds (absFloat (TS d)))) ++ "S"
       else out).
Proof.
  rewrite execNode_If, evalPipeline_Field.
  change (evalField "TS" (VDuration d)) with
    (@inl value execError (VFloat (TS d))).
  cbv beta iota. cbn [truth].
  destruct (negb (F64.eqb (TS d) F64.zero)); [|reflexivity].
  rewrite !Execute_cons, execNode_Action, !evalPipeline_Call,
    evalPipeline_Field.
  change (evalField "TS" (VDuration d)) with
    (@inl value execError (VFloat (TS d))).
  reflexivity.
Qed.

(** What the template writes for a duration: a closed form of
    [Execute tmpl]. *)
Lemma Execute_tmpl (d : Duration) :
  Execute tmpl (VDuration d) "" =
  inl
    (let out := if isNegative d then "" ++ "-" else "" in
     let out := out ++ "P" in
     let out := if neqb (Y d) 0
                then (out ++ htmlEscape (formatInt (abs (Y d)))) ++ "Y"
                else out in
     let out := if neqb (M d) 0
                then (out ++ htmlEscape (formatInt (abs (M d)))) ++ "M"
                else out in
     let out := if neqb (W d) 0
                then (out ++ htmlEscape (formatInt (abs (W d)))) ++ "W"
                else out in
     let out := if neqb (D d) 0
                then (out ++ htmlEscape (formatInt (abs (D d)))) ++ "D"
                else out in
     let out := if HasTimePart d then out ++ "T" else out in
     let out := if neqb (TH d) 0
                then (out ++ htmlEscape (formatInt (abs (TH d)))) ++ "H"
                else out in
     let out := if neqb (TM d) 0
                then (out ++ htmlEscape (formatInt (abs (TM d)))) ++ "M"
                else out in
     if negb (F64.eqb (TS d) F64.zero)
     then (out ++ htmlEscape (formatSeconds (absFloat (TS d)))) ++ "S"
     else out).
Proof.
  unfold tmpl.
  rewrite Execute_cons, signNode_ok.
  rewrite Execute_cons, execNode_Text.
  rewrite Execute_cons, (unitNodes_ok "Y" "Y" d (Y d)) by reflexivity.
  rewrite Execute_cons, (unitNodes_ok "M" "M" d (M d)) by reflexivity.
  rewrite Execute_cons, (unitNodes_ok "W" "W" d (W d)) by reflexivity.
  rewrite Execute_cons, (unitNodes_ok "D" "D" d (D d)) by reflexivity.
  rewrite Execute_cons, timeNode_ok.
  rewrite Execute_cons, (unitNodes_ok "TH" "H" d (TH d)) by reflexivity.
  rewrite Execute_cons, (unitNodes_ok "TM" "M" d (TM d)) by reflexivity.
  rewrite Execute_cons, secondsNode_ok.
  reflexivity.
Qed.

(** C9.  [String] returns for every duration, whatever its fields
    (NaN and the infinities included): executing the template never
    yields an error, so the [panic] is never reached. *)
Theorem DurationString_total (d : Duration) :
  exists s, DurationString d = Returns s.
Proof.
  unfold DurationString.
  destruct (IsZero d); [eexists; reflexivity|].
  rewrite Execute_tmpl. eexists; reflexivity.
Qed.

(** C8.  The zero value formats as ["P0D"], and ["P0D"] parses, without
    error, to a duration that [IsZero] accepts. *)
Theorem zero_and_P0D :
  DurationString zeroDuration = Returns "P0D" /\
  snd (ParseISO8601 "P0D") = None /\
  IsZero (fst (ParseISO8601 "P0D")) = true.
Proof. repeat split; vm_compute; reflexivity. Qed.

(** C1 at its failing input.  ["PT0.00001S"] parses; the result formats
    with an exponent, as ["PT1e-05S"]; and that text is rejected by the
    parser. *)
Theorem small_seconds_do_not_round_trip :
  ParseISO8601 "PT0.00001S" = (tenMicroseconds, None) /\
  DurationString tenMicroseconds = Returns "PT1e-05S" /\
  ParseISO8601 "PT1e-05S" = (zeroDuration, Some ErrCouldNotParse).
Proof. repeat split; vm_compute; reflexivity. Qed.

End Formatter.

(* ------------------------------------------------------------------ *)
(** ** The parser *)

(** C4 at its failing input.  The year is parsed and stored, the month
    overflows [int]: the error comes back with the year still in the
    duration. *)
Theorem overflow_returns_partial_duration :
  ParseISO8601 "P1Y9223372036854775808M"
  = (mkDuration 1 0 0 0 0 0 F64.zero, Some ErrRange).
Proof. vm_compute. reflexivity. Qed.

(** *** The matcher, one byte further into the input *)

Lemma setNth_length (i : nat) (v : string) (c : captures) :
  List.length (setNth i v c) = List.length c.
Proof.
  revert i. induction c as [|x c IH]; intros [|i]; cbn [setNth List.length];
    try reflexivity.
  now rewrite IH.
Qed.

Lemma nth_setNth (i j : nat) (v : string) (c : captures) :
  nth i (setNth j v c) "" =
  if (i =? j)%nat && (j <? List.length c)%nat then v else nth i c "".
Proof.
  revert i j. induction c as [|x c IH]; intros i j.
  - destruct j; cbn [setNth List.length]; rewrite andb_false_r; reflexivity.
  - destruct j as [|j], i as [|i]; cbn [setNth nth]; try reflexivity.
    rewrite IH. reflexivity.
Qed.

Lemma agree_setNth (i : nat) (v : string) (c' c : captures) :
  agree c' c -> agree (setNth i v c') (setNth i v c).
Proof.
  intros [L A]. split.
  - now rewrite !setNth_length.
  - intros j J. rewrite !nth_setNth, L, (A j J). reflexivity.
Qed.

(** Groups 0 and 1 do not count. *)
Lemma agree_setNth_low (i : nat) (v' v : string) (c' c : captures) :
  (i < 2)%nat -> agree c' c -> agree (setNth i v' c') (setNth i v c).
Proof.
  intros I [L A]. split.
  - now rewrite !setNth_length.
  - intros j J. rewrite !nth_setNth.
    replace (j =? i)%nat with false by (symmetry; apply Nat.eqb_neq; lia).
    cbn [andb]. apply A, J.
Qed.

Lemma agree_refl (c : captures) : agree c c.
Proof. split; reflexivity. Qed.

Lemma agree_setNth_low_l (i : nat) (v : string) (c : captures) :
  (i < 2)%nat -> agree (setNth i v c) c.
Proof.
  intros I. split.
  - apply setNth_length.
  - intros j J. rewrite nth_setNth.
    replace (j =? i)%nat with false by (symmetry; apply Nat.eqb_neq; lia).
    reflexivity.
Qed.

Lemma sameOutcome_orElse (a' a b' b : option captures) :
  sameOutcome a' a -> sameOutcome b' b ->
  sameOutcome (orElse a' b') (orElse a b).
Proof. destruct a', a; cbn; tauto. Qed.

Lemma rounds_shift
  (step : nat -> string -> captures -> cont -> option captures) :
  (forall pos s c' c k' k,
     agree c' c -> shifted k' k ->
     sameOutcome (step (S pos) s c' k') (step pos s c k)) ->
  forall k' k, shifted k' k ->
  forall fuel pos s c' c,
    agree c' c ->
    sameOutcome (rounds step k' fuel (S pos) s c')
                (rounds step k fuel pos s c).
Proof.
  intros Step k' k K fuel.
  induction fuel as [|fuel IH]; intros pos s c' c A; [exact I|].
  cbn [rounds]. apply Step; [exact A|].
  intros p s1 c1' c1 A1.
  apply sameOutcome_orElse; [apply IH | apply K]; exact A1.
Qed.

Lemma run_shift (r : regex) :
  shiftable r = true ->
  forall pos s c' c k' k,
    agree c' c -> shifted k' k ->
    sameOutcome (run r (S pos) s c' k') (run r pos s c k).
Proof.
  induction r as [| |a| |r1 IH1 r2 IH2|r1 IH1|r1 IH1|i r1 IH1];
    intros Sh pos s c' c k' k A K; cbn [shiftable] in Sh.
  - discriminate.
  - cbn [run]. destruct s; [apply K, A | exact I].
  - cbn [run]. destruct s as [|b s]; [exact I|].
    destruct (Ascii.eqb a b); [apply K, A | exact I].
  - cbn [run]. destruct s as [|b s]; [exact I|].
    destruct (isDigit b); [apply K, A | exact I].
  - apply andb_prop in Sh as [S1 S2]. cbn [run].
    apply (IH1 S1); [exact A|].
    intros p s1 c1' c1 A1. apply (IH2 S2); assumption.
  - cbn [run]. apply sameOutcome_orElse; [apply (IH1 Sh) | apply K]; assumption.
  - cbn [run]. apply rounds_shift; try assumption.
    intros; apply (IH1 Sh); assumption.
  - apply andb_prop in Sh as [Si S1]. cbn [run].
    apply (IH1 S1); [exact A|].
    intros p s1 c1' c1 A1. cbn [Nat.sub]. apply K, agree_setNth, A1.
Qed.

(** *** The sign in front of the pattern *)

Lemma pattern_shape :
  expr pattern = Cat Bol (Cat (Opt (Group 1 (Chr "-"))) afterSign).
Proof. reflexivity. Qed.

Lemma afterSign_shiftable : shiftable afterSign = true.
Proof. reflexivity. Qed.

(** [^] holds at offset zero only: a search that starts later finds
    nothing. *)
Lemma searchFrom_later (r : regex) (n pos : nat) (s : string) :
  searchFrom (Cat Bol r) n (S pos) s = None.
Proof.
  revert pos. induction s as [|a s IH]; intros pos; cbn [searchFrom run].
  - reflexivity.
  - cbn. apply IH.
Qed.

Lemma searchFrom_start (r : regex) (n : nat) (s : string) :
  searchFrom (Cat Bol r) n 0 s =
  run r 0 s (repeat "" (S n))
    (fun pos1 _ c1 => Some (setNth 0 (substring 0 (pos1 - 0) s) c1)).
Proof.
  destruct s as [|a s]; cbn [searchFrom run Nat.eqb];
    match goal with |- match ?x with _ => _ end = _ => destruct x end;
    try reflexivity.
  apply searchFrom_later.
Qed.

Lemma run_sign_absent (r : regex) (s : string) (c : captures) (k : cont) :
  firstByteIs "-" s = false ->
  run (Cat (Opt (Group 1 (Chr "-"))) r) 0 s c k = run r 0 s c k.
Proof.
  intros F. destruct s as [|a s]; cbn [run orElse]; [reflexivity|].
  cbn [firstByteIs] in F. rewrite Ascii.eqb_sym, F. reflexivity.
Qed.

Lemma run_sign_present (r : regex) (s : string) (c : captures) (k : cont) :
  run (Cat (Opt (Group 1 (Chr "-"))) r) 0 (String "-" s) c k =
  orElse (run r 1 s (setNth 1 "-" c) k) (run r 0 (String "-" s) c k).
Proof. destruct s; reflexivity. Qed.

(** With a ["-"] in front the pattern still matches, and every group from
    the second on captures the same text. *)
Lemma FindStringSubmatch_minus (s : string) (c : captures) :
  firstByteIs "-" s = false ->
  FindStringSubmatch pattern s = Some c ->
  exists c', FindStringSubmatch pattern (String "-" s) = Some c' /\ agree c' c.
Proof.
  intros F E. unfold FindStringSubmatch in *.
  rewrite pattern_shape, searchFrom_start in *.
  rewrite run_sign_absent in E by exact F.
  rewrite run_sign_present.
  match goal with
  | |- exists c', orElse ?x _ = _ /\ _ =>
      assert (O : sameOutcome x (Some c))
  end.
  { rewrite <- E. apply run_shift.
    - exact afterSign_shiftable.
    - apply agree_setNth_low_l. lia.
    - intros p s1 c1' c1 A1. cbn [sameOutcome].
      apply agree_setNth_low; [lia | exact A1]. }
  destruct (run afterSign 1 s _ _) as [c'|]; [|contradiction].
  exists c'. split; [reflexivity | exact O].
Qed.

(** *** What [ParseFloat] can answer *)

Lemma shr_1_nonneg (mrs : shr_record) : 0 <= shr_m mrs -> 0 <= shr_m (shr_1 mrs).
Proof.
  destruct mrs as [m r s]. cbn [shr_m].
  destruct m as [|[p|p|]|[p|p|]]; cbn; lia.
Qed.

Lemma iter_shr_1_nonneg (p : positive) :
  forall mrs, 0 <= shr_m mrs -> 0 <= shr_m (iter_pos shr_1 p mrs).
Proof.
  induction p as [p IH|p IH|]; intros mrs N; cbn [iter_pos].
  - apply IH, IH, shr_1_nonneg, N.
  - apply IH, IH, N.
  - apply shr_1_nonneg, N.
Qed.

Lemma shr_fexp_nonneg (m e : Z) (l : location) :
  0 <= m -> 0 <= shr_m (fst (shr_fexp F64.prec F64.emax m e l)).
Proof.
  intros N. unfold shr_fexp, shr.
  assert (N0 : 0 <= shr_m (shr_record_of_loc m l))
    by (destruct l as [|[]]; exact N).
  destruct (fexp F64.prec F64.emax (Zdigits2 m + e) - e); cbn [fst];
    try exact N0.
  apply iter_shr_1_nonneg, N0.
Qed.

Lemma round_nearest_even_nonneg (m : Z) (l : location) :
  0 <= m -> 0 <= round_nearest_even m l.
Proof.
  intros N. destruct l as [|[]]; cbn; try destruct (Z.even m); lia.
Qed.

Lemma binary_round_aux_not_nan (s : bool) (m e : Z) (l : location) :
  0 <= m -> binary_round_aux F64.prec F64.emax s m e l <> S754_nan.
Proof.
  intros N. unfold binary_round_aux.
  pose proof (shr_fexp_nonneg m e l N) as N1.
  destruct (shr_fexp F64.prec F64.emax m e l) as [mrs e']. cbn [fst] in N1.
  pose proof (shr_fexp_nonneg _ e' loc_Exact
                (round_nearest_even_nonneg _ (loc_of_shr_record mrs) N1)) as N2.
  destruct (shr_fexp F64.prec F64.emax _ e' loc_Exact) as [mrs' e''].
  cbn [fst] in N2.
  destruct (shr_m mrs'); [discriminate| |lia].
  destruct (e'' <=? F64.emax - F64.prec); discriminate.
Qed.

Lemma nearestRatio_not_nan (n d : Z) :
  0 <= n -> 0 < d -> nearestRatio n d <> S754_nan.
Proof.
  intros N P. unfold nearestRatio.
  destruct n as [|p|p]; [discriminate| |lia].
  unfold SFdiv_core_binary.
  set (m' := match _ - _ with Z0 => _ | Zpos _ => _ | Zneg _ => _ end).
  assert (M : 0 <= m').
  { subst m'. destruct (_ - _); try lia. apply Z.shiftl_nonneg. lia. }
  pose proof (Z.div_pos m' d M P) as Q. unfold Z.div in Q.
  destruct (Z.div_eucl m' d) as [q r].
  apply binary_round_aux_not_nan, Q.
Qed.

Lemma decimalValue_nonneg (s : string) : allDigits s = true -> 0 <= decimalValue s.
Proof.
  unfold allDigits, decimalValue.
  assert (G : forall l acc, forallb isDigit l = true -> 0 <= acc ->
              0 <= fold_left (fun n c => n * 10 + digitValue c) l acc).
  { induction l as [|c l IH]; intros acc A N; cbn [fold_left]; [exact N|].
    cbn [forallb] in A. apply andb_prop in A as [C A].
    apply IH; [exact A|].
    unfold isDigit in C. apply andb_prop in C as [C1 C2].
    apply Nat.leb_le in C1. unfold digitValue. lia. }
  intros A. apply G; [exact A | lia].
Qed.

Lemma allDigits_app (a b : string) :
  allDigits a = true -> allDigits b = true -> allDigits (a ++ b) = true.
Proof.
  unfold allDigits. induction a as [|c a IH]; intros A B; [exact B|].
  cbn [append list_ascii_of_string forallb] in *.
  apply andb_prop in A as [C A]. rewrite C. cbn [andb]. apply IH; assumption.
Qed.

Lemma ParseFloat_not_nan (s : string) (x : float64) :
  ParseFloat s = Ok x -> x <> S754_nan.
Proof.
  unfold ParseFloat. destruct (splitDot s) as [ip fp].
  match goal with |- (if ?w then _ else _) = _ -> _ => destruct w eqn:WF end;
    [|discriminate].
  apply andb_prop in WF as [WF F]. apply andb_prop in WF as [_ I].
  assert (N : nearestRatio
                (decimalValue (ip ++ match fp with Some f => f | None => "" end))
                (10 ^ Z.of_nat (String.length
                                  match fp with Some f => f | None => "" end))
              <> S754_nan).
  { apply nearestRatio_not_nan; [|apply Z.pow_pos_nonneg; lia].
    apply decimalValue_nonneg, allDigits_app; [exact I|].
    destruct fp as [f|]; [|reflexivity].
    apply andb_prop in F as [_ F]. exact F. }
  destruct (nearestRatio _ _); try discriminate; intros [= <-];
    try discriminate; exact N.
Qed.

Lemma eqb_refl_not_nan (x : float64) : x <> S754_nan -> F64.eqb x x = true.
Proof.
  intros N. destruct x as [s|s| |s m e]; try reflexivity.
  - destruct s; reflexivity.
  - contradiction.
  - unfold F64.eqb, SFeqb, SFcompare.
    destruct s; rewrite Z.compare_refl, Pos.compare_cont_refl; reflexivity.
Qed.

Lemma neg_not_nan (x : float64) : x <> S754_nan -> F64.neg x <> S754_nan.
Proof. destruct x; cbn; congruence. Qed.

(** *** The loop over the groups, with and without the sign *)

Lemma negationOf_zero : negationOf zeroDuration zeroDuration.
Proof. repeat split. Qed.

Lemma negationOf_assignInt (name : string) (val : Z) (d' d : Duration) :
  negationOf d' d ->
  negationOf (assignInt name (GoInt.neg val) d') (assignInt name val d).
Proof.
  intros (EY & EM & EW & ED & EH & EN & ES).
  unfold assignInt.
  repeat match goal with
    | |- context [String.eqb name ?x] => destruct (String.eqb name x)
    end;
    repeat split; assumption.
Qed.

Lemma negationOf_assignTS (val : float64) (d' d : Duration) :
  val <> S754_nan ->
  negationOf d' d -> negationOf (assignTS (F64.neg val) d') (assignTS val d).
Proof.
  intros N (EY & EM & EW & ED & EH & EN & ES).
  repeat split; try assumption.
  cbn [assignTS TS]. apply eqb_refl_not_nan, neg_not_nan, N.
Qed.

Lemma negationOf_Equal (d' d : Duration) :
  negationOf d' d -> Equal d' (Negate d) = true.
Proof.
  intros (EY & EM & EW & ED & EH & EN & ES).
  unfold Equal, Negate; cbn [Y M W D TH TM TS].
  rewrite EY, EM, EW, ED, EH, EN, ES, !Z.eqb_refl. reflexivity.
Qed.

(** If the loop ends without error on the captures [c] of the unsigned
    text, it ends without error on captures that agree with [c] on every
    named group, with the sign set, and every field comes out negated. *)
Lemma parseGroups_negative (names : list string) :
  forall (i : nat) (c' c : list string) (d' d dr : Duration),
    (forall j, nth j names "" <> "" -> nth (i + j) c' "" = nth (i + j) c "") ->
    negationOf d' d ->
    parseGroups false c i names d = (dr, None) ->
    exists dr',
      parseGroups true c' i names d' = (dr', None) /\ negationOf dr' dr.
Proof.
  induction names as [|name names IH]; intros i c' c d' d dr A N E.
  - cbn [parseGroups] in *. injection E as <-. now exists d'.
  - assert (A' : forall j, nth j names "" <> "" ->
                          nth (S i + j) c' "" = nth (S i + j) c "").
    { intros j J. replace (S i + j)%nat with (i + S j)%nat by lia.
      apply A. exact J. }
    cbn [parseGroups] in *.
    destruct (String.eqb_spec name "") as [->|NE].
    + rewrite orb_true_r in *. cbn [orb] in *. eapply IH; eassumption.
    + assert (P : nth i c' "" = nth i c "").
      { specialize (A 0%nat NE). now rewrite Nat.add_0_r in A. }
      rewrite P. cbn [orb] in *.
      destruct ((i =? 0)%nat || false || String.eqb (nth i c "") "");
        [eapply IH; eassumption|].
      destruct (integerField name).
      * destruct (Atoi (nth i c "")) as [val|err]; [|discriminate].
        eapply IH; [exact A' | | exact E].
        apply negationOf_assignInt, N.
      * destruct (String.eqb name "second");
          [|eapply IH; eassumption].
        destruct (ParseFloat (nth i c "")) as [val|err] eqn:PF; [|discriminate].
        eapply IH; [exact A' | | exact E].
        apply negationOf_assignTS; [|exact N].
        eapply ParseFloat_not_nan, PF.
Qed.

Lemma named_groups_agree (c' c : captures) :
  agree c' c ->
  forall j, nth j (SubexpNames pattern) "" <> "" ->
            nth (0 + j) c' "" = nth (0 + j) c "".
Proof.
  intros [_ A] j J. cbn [Nat.add].
  destruct j as [|[|j]]; [now contradiction J | now contradiction J |].
  apply A. lia.
Qed.

Section Sign.
Context `{Arch}.

(** C6, as the code has it.  When [s] does not begin with ["-"] and
    parses without error, ["-" ++ s] parses without error too, and its
    result equals the negation of the result for [s], field by field.
    The signed literal of the documentation formats as itself. *)
Theorem leading_minus_negates (s : string) (d : Duration) :
  firstByteIs "-" s = false ->
  ParseISO8601 s = (d, None) ->
  (exists d',
     ParseISO8601 ("-" ++ s) = (d', None) /\
     negationOf d' d /\ Equal d' (Negate d) = true) /\
  DurationString (fst (ParseISO8601 "-P1Y2M3DT4H5M6S"))
    = Returns "-P1Y2M3DT4H5M6S".
Proof.
  intros F E. split; [|vm_compute; reflexivity].
  unfold ParseISO8601 in *.
  destruct (FindStringSubmatch pattern s) as [c|] eqn:EM; [|discriminate].
  destruct (FindStringSubmatch_minus s c F EM) as (c' & EM' & A).
  change ("-" ++ s) with (String "-" s). rewrite EM'.
  rewrite F in E.
  change (firstByteIs "-" (String "-" s)) with true.
  destruct (parseGroups_negative (SubexpNames pattern) 0 c' c
              zeroDuration zeroDuration d
              (named_groups_agree c' c A) negationOf_zero E)
    as (d' & E' & N).
  exists d'. split; [exact E'|].
  split; [exact N | apply negationOf_Equal, N].
Qed.

End Sign.

(** C6 as stated fails on a literal that is valid by the grammar but too
    large for [int]: the pattern matches ["P9223372036854775808Y"], it does
    not begin with ["-"], and ["-P9223372036854775808Y"] is refused with a
    range error although -9223372036854775808 is an [int]. *)
Lemma signed_overflow_is_refused :
  MatchString pattern "P9223372036854775808Y" = true /\
  firstByteIs "-" "P9223372036854775808Y" = false /\
  snd (ParseISO8601 ("-" ++ "P9223372036854775808Y")) = Some ErrRange.
Proof. repeat split; vm_compute; reflexivity. Qed.

Lemma leading_minus_negates_witness :
  exists d',
    ParseISO8601 ("-" ++ "P1Y2M3W4DT5H6M7.5S") = (d', None) /\
    negationOf d' (fst (ParseISO8601 "P1Y2M3W4DT5H6M7.5S")) /\
    Equal d' (Negate (fst (ParseISO8601 "P1Y2M3W4DT5H6M7.5S"))) = true.
Proof.
  apply (@leading_minus_negates amd64 "P1Y2M3W4DT5H6M7.5S"
           (fst (ParseISO8601 "P1Y2M3W4DT5H6M7.5S"))).
  - reflexivity.
  - vm_compute. reflexivity.
Defined.

(* ================================================================== *)
(** * Further properties of the code *)

(* ------------------------------------------------------------------ *)
(** ** Order and equality *)

Lemma compare_flip (x y : float64) :
  x <> S754_nan -> y <> S754_nan ->
  exists c, SFcompare x y = Some c /\ SFcompare y x = Some (CompOpp c).
Proof.
  intros NX NY.
  destruct x as [s1|s1| |s1 m1 e1], y as [s2|s2| |s2 m2 e2];
    try contradiction; cbn [SFcompare];
    try (destruct s1; eexists; split; reflexivity);
    try (destruct s2; eexists; split; reflexivity);
    try (destruct s1, s2; eexists; split; reflexivity).
  destruct s1, s2; try (eexists; split; reflexivity).
  - rewrite (Z.compare_antisym e1 e2).
    destruct (e1 ?= e2); cbn [CompOpp]; try (eexists; split; reflexivity).
    change (Pos.compare_cont Eq m1 m2) with (Pos.compare m1 m2).
    change (Pos.compare_cont Eq m2 m1) with (Pos.compare m2 m1).
    rewrite (Pos.compare_antisym m1 m2).
    destruct (m1 ?= m2)%positive; eexists; split; reflexivity.
  - rewrite (Z.compare_antisym e1 e2).
    destruct (e1 ?= e2); cbn [CompOpp]; try (eexists; split; reflexivity).
    change (Pos.compare_cont Eq m1 m2) with (Pos.compare m1 m2).
    change (Pos.compare_cont Eq m2 m1) with (Pos.compare m2 m1).
    rewrite (Pos.compare_antisym m1 m2).
    destruct (m1 ?= m2)%positive; eexists; split; reflexivity.
Qed.

Lemma ltb_asymmetric (x y : float64) : F64.ltb x y = true -> F64.ltb y x = false.
Proof.
  unfold F64.ltb, SFltb. intros L.
  destruct (SFcompare x y) as [[| |]|] eqn:E; try discriminate.
  assert (NX : x <> S754_nan) by (intros ->; discriminate).
  assert (NY : y <> S754_nan) by (intros ->; destruct x; discriminate).
  destruct (compare_flip x y NX NY) as (c & E1 & E2).
  rewrite E in E1. injection E1 as <-. rewrite E2. reflexivity.
Qed.

Lemma firstDifference_swap (l : list (Z * Z)) :
  firstDifference (swapPairs l) =
  option_map negb (firstDifference l).
Proof.
  induction l as [|[x y] l IH]; [reflexivity|].
  cbn [swapPairs map firstDifference fst snd]. fold (swapPairs l).
  rewrite (Z.eqb_sym y x). destruct (Z.eqb_spec x y) as [E|N]; [exact IH|].
  cbn [option_map]. f_equal.
  destruct (Z.ltb_spec y x), (Z.ltb_spec x y); cbn; try reflexivity; lia.
Qed.

Lemma firstDifference_none (l : list (Z * Z)) :
  firstDifference l = None <-> forallb (fun p => fst p =? snd p) l = true.
Proof.
  induction l as [|[x y] l IH]; [easy|].
  cbn [firstDifference forallb fst snd].
  destruct (x =? y); cbn [andb]; [exact IH | easy].
Qed.

Lemma intFields_swap (a b : Duration) : intFields b a = swapPairs (intFields a b).
Proof. reflexivity. Qed.

Lemma Equal_by_fields (a b : Duration) :
  Equal a b =
  forallb (fun p => fst p =? snd p) (intFields a b) && F64.eqb (TS a) (TS b).
Proof.
  unfold Equal, intFields. cbn [forallb fst snd].
  rewrite andb_true_r, !andb_assoc. reflexivity.
Qed.

Lemma LessThan_lexLess (a b : Duration) : LessThan a b = lexLess a b.
Proof.
  unfold LessThan, lexLess, intFields, firstDifference.
  rewrite lessThanTime_lex. unfold timeLexLess, firstDifference, neqb.
  destruct (hasDatePart a || hasDatePart b) eqn:G.
  - destruct (Y a =? Y b), (M a =? M b), (W a =? W b), (D a =? D b);
      reflexivity.
  - apply orb_false_elim in G as [GA GB].
    unfold hasDatePart, neqb in GA, GB.
    repeat match goal with
      | H : _ || _ = false |- _ => apply orb_false_elim in H as [? ?]
      | H : negb _ = false |- _ => apply negb_false_iff, Z.eqb_eq in H
      end.
    replace (Y a) with 0 by congruence. replace (Y b) with 0 by congruence.
    replace (M a) with 0 by congruence. replace (M b) with 0 by congruence.
    replace (W a) with 0 by congruence. replace (W b) with 0 by congruence.
    replace (D a) with 0 by congruence. replace (D b) with 0 by congruence.
    reflexivity.
Qed.

(** The guard of [LessThan] changes nothing: the answer is always the
    lexicographic comparison of all seven fields, in the order Y, M, W,
    D, TH, TM, TS. *)
Theorem LessThan_is_lexLess (a b : Duration) : LessThan a b = lexLess a b.
Proof. apply LessThan_lexLess. Qed.

(** [LessThan] never holds both ways; in particular no duration is less
    than itself. *)
Theorem LessThan_asymmetric (a b : Duration) :
  LessThan a b = true -> LessThan b a = false.
Proof.
  rewrite !LessThan_lexLess. unfold lexLess.
  rewrite (intFields_swap a b), firstDifference_swap.
  destruct (firstDifference (intFields a b)) as [r|]; cbn [option_map].
  - now intros ->.
  - apply ltb_asymmetric.
Qed.

Lemma LessThan_asymmetric_witness :
  LessThan (mkDuration 0 0 0 0 2 15 F64.zero) (mkDuration 0 0 0 0 1 30 F64.zero)
  = false.
Proof.
  apply (LessThan_asymmetric (mkDuration 0 0 0 0 1 30 F64.zero)
           (mkDuration 0 0 0 0 2 15 F64.zero)).
  reflexivity.
Defined.

Lemma finite_compare_lt (e1 e2 : Z) (m1 m2 : positive) :
  match e1 ?= e2 with
  | Eq => Pos.compare_cont Eq m1 m2
  | Lt => Lt
  | Gt => Gt
  end = Lt <->
  e1 < e2 \/ (e1 = e2 /\ (m1 < m2)%positive).
Proof.
  change (Pos.compare_cont Eq m1 m2) with (Pos.compare m1 m2).
  destruct (Z.compare_spec e1 e2); [destruct (Pos.compare_spec m1 m2)| |];
    split; intros X; try discriminate X; try reflexivity; try lia.
Qed.

Lemma finite_compare_gt (e1 e2 : Z) (m1 m2 : positive) :
  match e1 ?= e2 with
  | Eq => CompOpp (Pos.compare_cont Eq m1 m2)
  | Lt => Gt
  | Gt => Lt
  end = Lt <->
  e2 < e1 \/ (e1 = e2 /\ (m2 < m1)%positive).
Proof.
  change (Pos.compare_cont Eq m1 m2) with (Pos.compare m1 m2).
  destruct (Z.compare_spec e1 e2); [destruct (Pos.compare_spec m1 m2)| |];
    cbn [CompOpp]; split; intros X; try discriminate X; try reflexivity;
    try lia.
Qed.

Lemma ltb_finite (s1 s2 : bool) (m1 m2 : positive) (e1 e2 : Z) :
  F64.ltb (S754_finite s1 m1 e1) (S754_finite s2 m2 e2) = true <->
  match s1, s2 with
  | true, false => True
  | false, true => False
  | false, false => e1 < e2 \/ (e1 = e2 /\ (m1 < m2)%positive)
  | true, true => e2 < e1 \/ (e1 = e2 /\ (m2 < m1)%positive)
  end.
Proof.
  unfold F64.ltb, SFltb. cbn [SFcompare].
  destruct s1, s2.
  - rewrite <- finite_compare_gt.
    destruct (e1 ?= e2); [destruct (CompOpp _)| |]; split; intros X;
      try discriminate X; reflexivity.
  - split; [exact (fun _ => I) | reflexivity].
  - split; [discriminate | contradiction].
  - rewrite <- finite_compare_lt.
    destruct (e1 ?= e2); [destruct (Pos.compare_cont _ _ _)| |]; split;
      intros X; try discriminate X; reflexivity.
Qed.

Lemma ltb_transitive (x y z : float64) :
  F64.ltb x y = true -> F64.ltb y z = true -> F64.ltb x z = true.
Proof.
  destruct x as [s1|s1| |s1 m1 e1], y as [s2|s2| |s2 m2 e2],
    z as [s3|s3| |s3 m3 e3].
  all: try (intros A B; apply ltb_finite; apply ltb_finite in A;
            apply ltb_finite in B; destruct s1, s2, s3;
            try contradiction; try exact I; lia).
  all: unfold F64.ltb, SFltb; cbn [SFcompare].
  all: try discriminate.
  all: try (intros _ _; reflexivity).
  all: try (destruct s1; discriminate).
  all: try (destruct s2; discriminate).
  all: try (destruct s1, s2, s3;
            (discriminate || (intros; try discriminate; reflexivity))).
Qed.

Lemma firstDifference_transitive (xs : list Z) :
  forall (ys zs : list Z) (t1 t2 t3 : bool),
    List.length xs = List.length ys -> List.length ys = List.length zs ->
    (t1 = true -> t2 = true -> t3 = true) ->
    match firstDifference (combine xs ys) with Some r => r | None => t1 end
    = true ->
    match firstDifference (combine ys zs) with Some r => r | None => t2 end
    = true ->
    match firstDifference (combine xs zs) with Some r => r | None => t3 end
    = true.
Proof.
  induction xs as [|x xs IH]; intros [|y ys] [|z zs] t1 t2 t3 L1 L2 T;
    try discriminate L1; try discriminate L2.
  - cbn [combine firstDifference]. exact T.
  - cbn [combine firstDifference]. cbn [List.length] in L1, L2.
    injection L1 as L1. injection L2 as L2.
    destruct (Z.eqb_spec x y) as [Exy|Nxy], (Z.eqb_spec y z) as [Eyz|Nyz],
      (Z.eqb_spec x z) as [Exz|Nxz]; intros A B.
    + exact (IH ys zs t1 t2 t3 L1 L2 T A B).
    + exfalso. congruence.
    + exfalso. congruence.
    + subst y. exact B.
    + exfalso. congruence.
    + subst z. exact A.
    + exfalso. apply Z.ltb_lt in A. apply Z.ltb_lt in B. subst z. lia.
    + apply Z.ltb_lt. apply Z.ltb_lt in A. apply Z.ltb_lt in B. lia.
Qed.

(** [LessThan] is transitive, so with its asymmetry it is a strict
    order: durations can be sorted by it. *)
Theorem LessThan_transitive (a b c : Duration) :
  LessThan a b = true -> LessThan b c = true -> LessThan a c = true.
Proof.
  rewrite !LessThan_lexLess. unfold lexLess.
  apply (firstDifference_transitive
           [Y a; M a; W a; D a; TH a; TM a]
           [Y b; M b; W b; D b; TH b; TM b]
           [Y c; M c; W c; D c; TH c; TM c]
           (F64.ltb (TS a) (TS b)) (F64.ltb (TS b) (TS c))
           (F64.ltb (TS a) (TS c)) eq_refl eq_refl).
  apply ltb_transitive.
Qed.

Lemma LessThan_transitive_witness :
  LessThan (mkDuration 0 0 0 1 0 0 F64.zero) (mkDuration 1 0 0 0 0 0 F64.zero)
  = true.
Proof.
  apply (LessThan_transitive (mkDuration 0 0 0 1 0 0 F64.zero)
           (mkDuration 0 1 0 0 0 0 F64.zero)
           (mkDuration 1 0 0 0 0 0 F64.zero)); reflexivity.
Defined.

(** When neither seconds field is NaN, exactly one of [LessThan],
    [Equal] and [GreaterThan] holds. *)
Theorem comparison_trichotomy (a b : Duration) :
  TS a <> S754_nan -> TS b <> S754_nan ->
  (LessThan a b = true /\ Equal a b = false /\ GreaterThan a b = false) \/
  (LessThan a b = false /\ Equal a b = true /\ GreaterThan a b = false) \/
  (LessThan a b = false /\ Equal a b = false /\ GreaterThan a b = true).
Proof.
  intros NA NB. unfold GreaterThan.
  rewrite !LessThan_lexLess, Equal_by_fields. unfold lexLess.
  rewrite (intFields_swap a b), firstDifference_swap.
  destruct (firstDifference (intFields a b)) as [r|] eqn:FD; cbn [option_map].
  - assert (F : forallb (fun p => fst p =? snd p) (intFields a b) = false).
    { destruct (forallb _ _) eqn:E; [|reflexivity].
      apply firstDifference_none in E. congruence. }
    rewrite F. cbn [andb]. destruct r; cbn [negb]; tauto.
  - apply firstDifference_none in FD. rewrite FD. cbn [andb].
    destruct (compare_flip (TS a) (TS b) NA NB) as (c & E1 & E2).
    unfold F64.ltb, F64.eqb, SFltb, SFeqb. rewrite E1, E2.
    destruct c; cbn [CompOpp]; tauto.
Qed.

Lemma comparison_trichotomy_witness :
  LessThan (mkDuration 0 0 0 1 0 0 F64.zero) (mkDuration 0 0 0 2 0 0 F64.zero)
    = true /\
  Equal (mkDuration 0 0 0 1 0 0 F64.zero) (mkDuration 0 0 0 2 0 0 F64.zero)
    = false /\
  GreaterThan (mkDuration 0 0 0 1 0 0 F64.zero) (mkDuration 0 0 0 2 0 0 F64.zero)
    = false.
Proof.
  destruct (comparison_trichotomy
              (mkDuration 0 0 0 1 0 0 F64.zero)
              (mkDuration 0 0 0 2 0 0 F64.zero))
    as [T|[(L & _)|(L & _)]];
    [discriminate | discriminate | exact T | discriminate L | discriminate L].
Defined.

(** [Equal] is reflexive exactly on the durations whose seconds are not
    NaN. *)
Theorem Equal_reflexive_iff (d : Duration) :
  Equal d d = negb (F64.is_nan (TS d)).
Proof.
  rewrite Equal_by_fields.
  assert (F : forallb (fun p => fst p =? snd p) (intFields d d) = true).
  { unfold intFields. cbn [forallb fst snd]. now rewrite !Z.eqb_refl. }
  rewrite F. cbn [andb].
  destruct (TS d) as [s|s| |s m e] eqn:E; cbn [F64.is_nan negb];
    try (apply eqb_refl_not_nan; discriminate).
  reflexivity.
Qed.

(* ------------------------------------------------------------------ *)
(** ** Arithmetic on durations *)

Lemma add_comm_f64 (x y : float64) : F64.add x y = F64.add y x.
Proof.
  destruct x as [sx|sx| |sx mx ex], y as [sy|sy| |sy my ey];
    try reflexivity; try (destruct sx, sy; reflexivity).
  unfold F64.add, SFadd. rewrite (Z.min_comm ey ex). f_equal. apply Z.add_comm.
Qed.

Lemma Add_comm (a b : Duration) : Add a b = Add b a.
Proof.
  unfold Add. rewrite (add_comm_f64 (TS a) (TS b)).
  f_equal; unfold GoInt.add; f_equal; lia.
Qed.

(** [Add] is commutative: when the sum of the seconds is a number (not
    NaN), [Add a b] and [Add b a] are equal by [Equal], and the same
    in every field. *)
Theorem Add_commutative (a b : Duration) :
  F64.is_nan (F64.add (TS a) (TS b)) = false ->
  Equal (Add a b) (Add b a) = true /\ Add a b = Add b a.
Proof.
  intros N. split; [|apply Add_comm].
  rewrite (Add_comm b a). apply Equal_same. exact N.
Qed.

Lemma Add_commutative_witness :
  Equal (Add (mkDuration 1 0 0 3 0 0 oneAndAHalf)
             (mkDuration 0 2 0 5 0 0 (F64.of_Z 4)))
        (Add (mkDuration 0 2 0 5 0 0 (F64.of_Z 4))
             (mkDuration 1 0 0 3 0 0 oneAndAHalf)) = true.
Proof.
  apply (Add_commutative (mkDuration 1 0 0 3 0 0 oneAndAHalf)
           (mkDuration 0 2 0 5 0 0 (F64.of_Z 4))).
  reflexivity.
Defined.

Lemma neg_involutive_int (z : Z) : GoInt.in_range z -> GoInt.neg (GoInt.neg z) = z.
Proof. intros R. wrap_lia. Qed.

(** Negating twice gives the duration back. *)
Theorem Negate_involutive (d : Duration) :
  wellTyped d -> Negate (Negate d) = d.
Proof.
  intros (RY & RM & RW & RD & RH & RN & _).
  destruct d as [y m w dd th tm ts]. unfold Negate; cbn [Y M W D TH TM TS] in *.
  rewrite !neg_involutive_int by assumption.
  f_equal. destruct ts as [s|s| |s mm e]; cbn; now rewrite ?negb_involutive.
Qed.

Lemma Negate_involutive_witness :
  Negate (Negate (mkDuration GoInt.min_int 2 0 (-3) 4 0 (F64.of_Z 6)))
  = mkDuration GoInt.min_int 2 0 (-3) 4 0 (F64.of_Z 6).
Proof.
  apply Negate_involutive.
  unfold wellTyped, GoInt.in_range, GoInt.min_int, GoInt.max_int.
  cbn [Y M W D TH TM TS]. repeat split; try lia.
Defined.

Lemma sub_self_f64 (x : float64) :
  F64.eqb (F64.sub x x) F64.zero =
  match x with
  | S754_zero _ | S754_finite _ _ _ => true
  | S754_infinity _ | S754_nan => false
  end.
Proof.
  destruct x as [s|s| |s m e]; try (destruct s; reflexivity); try reflexivity.
  unfold F64.sub, SFsub. rewrite Z.sub_diag. reflexivity.
Qed.

(** A duration minus itself is the zero duration exactly when its
    seconds are a number: an infinity or a NaN leaves a NaN behind. *)
Theorem Subtract_self (d : Duration) :
  IsZero (Subtract d d) = finiteSeconds d.
Proof.
  unfold IsZero, Subtract, finiteSeconds; cbn [Y M W D TH TM TS].
  unfold GoInt.sub. rewrite !Z.sub_diag, sub_self_f64. reflexivity.
Qed.

Lemma mul_zero_f64 (x : float64) :
  F64.eqb (F64.mul x (F64.of_Z 0)) F64.zero =
  match x with
  | S754_zero _ | S754_finite _ _ _ => true
  | S754_infinity _ | S754_nan => false
  end.
Proof. destruct x as [s|s| |s m e]; try destruct s; reflexivity. Qed.

(** Multiplying by zero gives the zero duration exactly when the seconds
    are a number. *)
Theorem Multiply_by_zero (d : Duration) :
  IsZero (Multiply d 0) = finiteSeconds d.
Proof.
  unfold IsZero, Multiply, finiteSeconds; cbn [Y M W D TH TM TS].
  unfold GoInt.mul. rewrite !Z.mul_0_r, mul_zero_f64. reflexivity.
Qed.

(** The integer fields of [Multiply d (-1)] are those of [Negate d]. *)
Theorem Multiply_by_minus_one (d : Duration) :
  let m := Multiply d (-1) in
  let n := Negate d in
  Y m = Y n /\ M m = M n /\ W m = W n /\ D m = D n /\
  TH m = TH n /\ TM m = TM n.
Proof.
  cbn zeta. unfold Multiply, Negate; cbn [Y M W D TH TM].
  unfold GoInt.mul, GoInt.neg.
  repeat split; f_equal; lia.
Qed.

(** A duration is zero exactly when it has neither a date part nor a
    time part. *)
Theorem IsZero_no_parts (d : Duration) :
  IsZero d = negb (hasDatePart d) && negb (HasTimePart d).
Proof.
  unfold IsZero, hasDatePart, HasTimePart, neqb.
  destruct (Y d =? 0), (M d =? 0), (W d =? 0), (D d =? 0),
    (TH d =? 0), (TM d =? 0), (F64.eqb (TS d) F64.zero); reflexivity.
Qed.

Lemma zero_is_not_negative (d : Duration) :
  IsZero d = true -> IsNegative d = false.
Proof.
  unfold IsZero, IsNegative. intros Z.
  repeat match goal with
    | H : _ && _ = true |- _ => apply andb_prop in H as [? ?]
    | H : (_ =? 0) = true |- _ => apply Z.eqb_eq in H; rewrite H; clear H
    end.
  cbn [Z.ltb Z.compare orb].
  match goal with
  | E : F64.eqb (TS d) F64.zero = true |- _ =>
      destruct (TS d) as [s|s| |s m e]; try reflexivity;
      try (destruct s; discriminate E); discriminate E
  end.
Qed.

(** The zero duration is not negative, whatever the sign of its zero
    seconds. *)
Theorem IsZero_not_negative (d : Duration) :
  IsZero d = true -> IsNegative d = false.
Proof. apply zero_is_not_negative. Qed.

Lemma IsZero_not_negative_witness :
  IsNegative (mkDuration 0 0 0 0 0 0 (S754_zero true)) = false.
Proof. apply IsZero_not_negative. reflexivity. Defined.

(* ------------------------------------------------------------------ *)
(** ** The template against a field-by-field builder *)

Lemma append_assoc_s (a b c : string) : (a ++ b) ++ c = a ++ (b ++ c).
Proof. induction a as [|x a IH]; cbn [append]; [reflexivity | now rewrite IH]. Qed.

Lemma append_nil_r_s (a : string) : a ++ "" = a.
Proof. induction a as [|x a IH]; cbn [append]; [reflexivity | now rewrite IH]. Qed.

Lemma htmlEscape_uint (d : Decimal.uint) :
  htmlEscape (NilEmpty.string_of_uint d) = NilEmpty.string_of_uint d.
Proof.
  induction d; cbn [NilEmpty.string_of_uint htmlEscape]; try reflexivity;
    rewrite IHd; reflexivity.
Qed.

(** Decimal digits and a minus sign pass the HTML escaper unchanged. *)
Lemma htmlEscape_formatInt (n : Z) : htmlEscape (formatInt n) = formatInt n.
Proof.
  unfold formatInt, NilZero.string_of_int, NilZero.string_of_uint.
  destruct (Z.to_int n) as [d|d].
  - destruct d; try reflexivity; apply htmlEscape_uint.
  - cbn [htmlEscape]. change (htmlEscapeByte "-") with "-". cbn [append].
    f_equal. destruct d; try reflexivity; apply htmlEscape_uint.
Qed.

Lemma unit_step (n : Z) (letter out : string) :
  (if neqb n 0 then (out ++ htmlEscape (formatInt (abs n))) ++ letter else out)
  = out ++ unitText n letter.
Proof.
  unfold unitText. destruct (neqb n 0).
  - now rewrite htmlEscape_formatInt, append_assoc_s.
  - now rewrite append_nil_r_s.
Qed.

Lemma flag_step (b : bool) (text out : string) :
  (if b then out ++ text else out) = out ++ (if b then text else "").
Proof. destruct b; [reflexivity | now rewrite append_nil_r_s]. Qed.

Section Builder.
Context `{Arch}.

Lemma seconds_step (b : bool) (x out : string) :
  (if b then (out ++ x) ++ "S" else out) = out ++ (if b then x ++ "S" else "").
Proof. destruct b; [apply append_assoc_s | now rewrite append_nil_r_s]. Qed.

Lemma DurationString_builder (d : Duration) :
  DurationString d = Returns (if IsZero d then "P0D" else formatDuration d).
Proof.
  unfold DurationString. destruct (IsZero d); [reflexivity|].
  unfold tmpl.
  rewrite Execute_cons, signNode_ok, flag_step.
  rewrite Execute_cons, execNode_Text.
  rewrite Execute_cons, (unitNodes_ok "Y" "Y" d (Y d)), unit_step by reflexivity.
  rewrite Execute_cons, (unitNodes_ok "M" "M" d (M d)), unit_step by reflexivity.
  rewrite Execute_cons, (unitNodes_ok "W" "W" d (W d)), unit_step by reflexivity.
  rewrite Execute_cons, (unitNodes_ok "D" "D" d (D d)), unit_step by reflexivity.
  rewrite Execute_cons, timeNode_ok, flag_step.
  rewrite Execute_cons, (unitNodes_ok "TH" "H" d (TH d)), unit_step by reflexivity.
  rewrite Execute_cons, (unitNodes_ok "TM" "M" d (TM d)), unit_step by reflexivity.
  rewrite Execute_cons, secondsNode_ok, seconds_step.
  cbn [Execute]. f_equal.
  unfold formatDuration. change (isNegative d) with (IsNegative d).
  rewrite !append_assoc_s. reflexivity.
Qed.

(** [String] is the field-by-field builder: ["P0D"] for a zero duration;
    otherwise an optional ["-"], ["P"], each non-zero date field as its
    magnitude and letter, ["T"] when a time field is non-zero, then each
    non-zero time field; the template adds nothing and drops nothing. *)
Theorem DurationString_is_formatDuration (d : Duration) :
  DurationString d = Returns (if IsZero d then "P0D" else formatDuration d).
Proof. apply DurationString_builder. Qed.

(** The text begins with ["-"] exactly when the duration is negative. *)
Theorem DurationString_sign (d : Duration) :
  exists s, DurationString d = Returns s /\ firstByteIs "-" s = IsNegative d.
Proof.
  rewrite DurationString_builder. eexists. split; [reflexivity|].
  destruct (IsZero d) eqn:Z.
  - now rewrite (zero_is_not_negative d Z).
  - unfold formatDuration. destruct (IsNegative d); reflexivity.
Qed.

End Builder.

(* ------------------------------------------------------------------ *)
(** ** The decomposition of a [time.Duration] *)

Lemma FromTimeDuration_parts (td : Z) :
  GoInt.in_range td ->
  let d := FromTimeDuration td in
  hasDatePart d = false /\
  - 60 < TM d < 60 /\
  (0 <= td -> 0 <= TH d /\ 0 <= TM d) /\
  (td <= 0 -> TH d <= 0 /\ TM d <= 0) /\
  exists r,
    td = TH d * Hour + TM d * Minute + r /\
    - Minute < r < Minute /\ (0 <= td -> 0 <= r) /\ (td <= 0 -> r <= 0) /\
    TS d = F64.div (F64.of_Z r) (F64.of_Z Second).
Proof.
  intros R. cbn zeta. unfold FromTimeDuration; cbn [Y M W D TH TM TS].
  unfold GoInt.quo, GoInt.sub, GoInt.mul.
  unfold GoInt.in_range, GoInt.min_int, GoInt.max_int in R.
  unfold Hour, Minute, Second, Nanosecond in *.
  assert (H1 : GoInt.wrap (Z.quot td (60 * (60 * (1000000000 * 1))))
               = Z.quot td (60 * (60 * (1000000000 * 1)))).
  { apply GoIntFacts.wrap_id.
    unfold GoInt.in_range, GoInt.min_int, GoInt.max_int.
    Z.to_euclidean_division_equations. lia. }
  rewrite H1.
  set (h := Z.quot td (60 * (60 * (1000000000 * 1)))) in *.
  assert (Hh : - 2562048 < h < 2562048 /\
               - 3600000000000 < td - h * 3600000000000 < 3600000000000 /\
               (0 <= td -> 0 <= h /\ 0 <= td - h * 3600000000000) /\
               (td <= 0 -> h <= 0 /\ td - h * 3600000000000 <= 0)).
  { subst h. Z.to_euclidean_division_equations. lia. }
  assert (H2 : GoInt.wrap (h * (60 * (60 * (1000000000 * 1))))
               = h * 3600000000000).
  { rewrite GoIntFacts.wrap_id;
      [lia | unfold GoInt.in_range, GoInt.min_int, GoInt.max_int; lia]. }
  rewrite H2.
  assert (H3 : GoInt.wrap (td - h * 3600000000000) = td - h * 3600000000000).
  { apply GoIntFacts.wrap_id.
    unfold GoInt.in_range, GoInt.min_int, GoInt.max_int. lia. }
  rewrite H3.
  set (t1 := td - h * 3600000000000) in *.
  assert (H4 : GoInt.wrap (Z.quot t1 (60 * (1000000000 * 1)))
               = Z.quot t1 (60 * (1000000000 * 1))).
  { apply GoIntFacts.wrap_id.
    unfold GoInt.in_range, GoInt.min_int, GoInt.max_int.
    Z.to_euclidean_division_equations. lia. }
  rewrite H4.
  set (m := Z.quot t1 (60 * (1000000000 * 1))) in *.
  assert (Hm : - 60 < m < 60 /\
               - 60000000000 < t1 - m * 60000000000 < 60000000000 /\
               (0 <= t1 -> 0 <= m /\ 0 <= t1 - m * 60000000000) /\
               (t1 <= 0 -> m <= 0 /\ t1 - m * 60000000000 <= 0)).
  { subst m. Z.to_euclidean_division_equations. lia. }
  assert (H5 : GoInt.wrap (m * (60 * (1000000000 * 1))) = m * 60000000000).
  { rewrite GoIntFacts.wrap_id;
      [lia | unfold GoInt.in_range, GoInt.min_int, GoInt.max_int; lia]. }
  rewrite H5.
  assert (H6 : GoInt.wrap (t1 - m * 60000000000) = t1 - m * 60000000000).
  { apply GoIntFacts.wrap_id.
    unfold GoInt.in_range, GoInt.min_int, GoInt.max_int. lia. }
  rewrite H6.
  split; [reflexivity|].
  split; [lia|]. split; [lia|]. split; [lia|].
  exists (t1 - m * 60000000000).
  split; [lia|]. split; [lia|]. split; [lia|]. split; [lia|]. reflexivity.
Qed.

(** [FromTimeDuration] splits the nanoseconds exactly: no date field,
    fewer than sixty minutes, a remainder of less than sixty seconds
    that becomes the seconds field, and hours, minutes and remainder of
    the sign of the input. *)
Theorem FromTimeDuration_shape (td : Z) :
  GoInt.in_range td ->
  let d := FromTimeDuration td in
  hasDatePart d = false /\
  - 60 < TM d < 60 /\
  (0 <= td -> 0 <= TH d /\ 0 <= TM d) /\
  (td <= 0 -> TH d <= 0 /\ TM d <= 0) /\
  exists r,
    td = TH d * Hour + TM d * Minute + r /\
    - Minute < r < Minute /\ (0 <= td -> 0 <= r) /\ (td <= 0 -> r <= 0) /\
    TS d = F64.div (F64.of_Z r) (F64.of_Z Second).
Proof. apply FromTimeDuration_parts. Qed.

Lemma FromTimeDuration_shape_witness :
  hasDatePart (FromTimeDuration (90 * Second)) = false /\
  - 60 < TM (FromTimeDuration (90 * Second)) < 60.
Proof.
  pose proof (FromTimeDuration_shape (90 * Second)) as S.
  cbn zeta in S.
  assert (R : GoInt.in_range (90 * Second))
    by (unfold GoInt.in_range, GoInt.min_int, GoInt.max_int, Second, Nanosecond;
        lia).
  destruct (S R) as (A & B & _). split; [exact A | exact B].
Defined.

Section BridgeBack.
Context `{Arch}.

(** A whole number of seconds survives the way through [Duration]:
    [FromTimeDuration] and then [ToTimeDuration] give the nanoseconds
    back, for every [int64] count of nanoseconds that is a multiple of
    a second. *)
Theorem ToTimeDuration_FromTimeDuration (td n : Z) :
  GoInt.in_range td -> td = n * Second ->
  ToTimeDuration (FromTimeDuration td) = td.
Proof.
  intros R E.
  pose proof (FromTimeDuration_parts td R) as S. cbn zeta in S.
  destruct S as (_ & RM & _ & _ & r & Etd & Rr & _ & _ & ETS).
  set (d := FromTimeDuration td) in *.
  set (k := n - TH d * 3600 - TM d * 60).
  assert (Er : r = k * Second)
    by (subst k; unfold Hour, Minute, Second, Nanosecond in *; lia).
  assert (Rk : - 60 < k < 60)
    by (unfold Minute, Second, Nanosecond in *; lia).
  pose proof (wholeSeconds_exact k (wholeSeconds_all k Rk)) as (ET & EDIV & _).
  unfold ToTimeDuration, timeDuration.
  rewrite ETS, Er, EDIV.
  assert (int64_of_float (F64.mul (F64.of_Z k) (F64.of_Z Second))
          = k * Second) as ->.
  { apply (int64_of_float_neg _ _ ET).
    unfold GoInt.max_int, Second, Nanosecond. lia. }
  rewrite Er in Etd. clear ETS EDIV ET Er Rr E.
  unfold Hour, Minute, Second, Nanosecond in *. wrap_lia.
Qed.

(** Below a second the way back can lose a nanosecond: fifteen
    nanoseconds come back as fourteen. *)
Lemma fifteen_nanoseconds_lose_one :
  ToTimeDuration (FromTimeDuration 15) = 14.
Proof. vm_compute. reflexivity. Qed.

End BridgeBack.

Lemma ToTimeDuration_FromTimeDuration_witness :
  @ToTimeDuration amd64 (FromTimeDuration (5400 * Second)) = 5400 * Second.
Proof.
  apply (@ToTimeDuration_FromTimeDuration amd64 (5400 * Second) 5400).
  - unfold GoInt.in_range, GoInt.min_int, GoInt.max_int, Second, Nanosecond.
    lia.
  - reflexivity.
Defined.

Section BridgeConverse.
Context `{Arch}.

(** The converse: a duration that comes back equal has no date part
    and is such a decomposition, with [ns] the nanoseconds the code
    computes for its seconds.  So none of the conditions can be
    dropped. *)
Theorem restored_only_if_decomposed (d : Duration) (ns : Z) :
  ns = int64_of_float (F64.mul (TS d) (F64.of_Z Second)) ->
  Equal (FromTimeDuration (ToTimeDuration d)) d = true ->
  hasDatePart d = false /\
  F64.eqb (F64.div (F64.of_Z ns) (F64.of_Z Second)) (TS d) = true /\
  - Minute < ns < Minute /\ - 60 < TM d < 60 /\
  ((0 <= TH d /\ 0 <= TM d /\ 0 <= ns) \/
   (TH d <= 0 /\ TM d <= 0 /\ ns <= 0)) /\
  GoInt.in_range (TH d * Hour + TM d * Minute + ns).
Proof.
  intros Ens E.
  assert (Rns : GoInt.in_range ns)
    by (rewrite Ens; apply int64_of_float_in_range).
  pose proof (timeDuration_in_range d) as Rx.
  pose proof (timeDuration_wrap d) as Ew. rewrite <- Ens in Ew.
  rewrite ToTimeDuration_unfold in E.
  destruct (FromTimeDuration_parts (timeDuration d) Rx)
    as (ND & RM & SP & SN & r & Ex & Rr & rp & rn & ETS).
  pose proof (Equal_fields _ _ E) as (EY & EM & EW & ED & EH & EN & ES).
  rewrite EN in RM. rewrite EH, EN in SP, SN, Ex.
  assert (X : ns = r).
  { apply (same_remainder (TH d) (TM d) ns r Rns Rr). congruence. }
  subst r.
  split.
  { unfold hasDatePart. rewrite <- EY, <- EM, <- EW, <- ED. exact ND. }
  split; [rewrite <- ETS; exact ES|].
  split; [exact Rr|]. split; [exact RM|].
  split; [|rewrite <- Ex; exact Rx].
  destruct (Z.le_ge_cases 0 (timeDuration d)) as [G|G].
  - left. destruct (SP G) as [A B]. pose proof (rp G) as C.
    split; [exact A|]. split; [exact B | exact C].
  - right. destruct (SN G) as [A B]. pose proof (rn G) as C.
    split; [exact A|]. split; [exact B | exact C].
Qed.

End BridgeConverse.

Lemma restored_only_if_decomposed_witness :
  restoredFrom (mkDuration 0 0 0 0 2 15 oneAndAHalf) 1500000000.
Proof.
  destruct (@restored_only_if_decomposed amd64
              (mkDuration 0 0 0 0 2 15 oneAndAHalf) 1500000000)
    as (_ & E & R).
  - vm_compute. reflexivity.
  - vm_compute. reflexivity.
  - split; [vm_compute; repeat split; discriminate|].
    split; [exact E | exact R].
Defined.

(* ------------------------------------------------------------------ *)
(** ** What the parser accepts *)

Lemma afterSign_shape :
  exists r, afterSign = Cat (Chr "P") r.
Proof. eexists. reflexivity. Qed.

Lemma run_Chr_first (a : ascii) (r : regex) (pos : nat) (s : string)
  (c : captures) (k : cont) (res : captures) :
  run (Cat (Chr a) r) pos s c k = Some res -> firstByteIs a s = true.
Proof.
  cbn [run]. destruct s as [|b s]; [discriminate|].
  cbn [firstByteIs]. rewrite (Ascii.eqb_sym b a).
  destruct (Ascii.eqb a b); [reflexivity | discriminate].
Qed.

(** A text that parses begins with ["P"], or with ["-"] and then
    ["P"]; the empty text is refused. *)
Theorem accepted_begins_with_P (s : string) (d : Duration) :
  ParseISO8601 s = (d, None) ->
  firstByteIs "P" s = true \/
  exists s', s = String "-" s' /\ firstByteIs "P" s' = true.
Proof.
  unfold ParseISO8601, FindStringSubmatch.
  rewrite pattern_shape, searchFrom_start.
  destruct afterSign_shape as [r ->].
  destruct (run _ 0 s _ _) as [c|] eqn:E; [intros _ | discriminate].
  destruct (firstByteIs "-" s) eqn:F.
  - right. destruct s as [|a s]; [discriminate|].
    cbn [firstByteIs] in F. apply Ascii.eqb_eq in F. subst a.
    exists s. split; [reflexivity|].
    rewrite run_sign_present in E.
    destruct (run _ 1 s _ _) eqn:E1.
    + eapply run_Chr_first, E1.
    + cbn [orElse] in E. apply run_Chr_first in E. discriminate.
  - left. rewrite run_sign_absent in E by exact F.
    eapply run_Chr_first, E.
Qed.

Lemma accepted_begins_with_P_witness :
  firstByteIs "P" "P3W" = true \/
  exists s', "P3W" = String "-" s' /\ firstByteIs "P" s' = true.
Proof.
  apply (accepted_begins_with_P "P3W" (mkDuration 0 0 3 0 0 0 F64.zero)).
  vm_compute. reflexivity.
Defined.

(** *** The integer groups capture digits *)

Lemma substring_prefix (a b : string) :
  substring 0 (String.length a) (a ++ b) = a.
Proof.
  induction a as [|x a IH]; cbn [String.length append substring].
  - destruct b; reflexivity.
  - now rewrite IH.
Qed.

Lemma allDigits_snoc (a : string) (b : ascii) :
  allDigits a = true -> isDigit b = true -> allDigits (a ++ String b "") = true.
Proof.
  intros A B. apply allDigits_app; [exact A|].
  unfold allDigits. cbn. now rewrite B.
Qed.

Lemma digitCaptures_setNth_other (i : nat) (v : string) (c : captures) :
  digitGroup i = false -> digitCaptures c -> digitCaptures (setNth i v c).
Proof.
  intros I C j J. rewrite nth_setNth.
  destruct (Nat.eqb_spec j i) as [->|N]; [congruence|].
  cbn [andb]. apply C, J.
Qed.

Lemma digitCaptures_setNth_digits (i : nat) (v : string) (c : captures) :
  allDigits v = true -> digitCaptures c -> digitCaptures (setNth i v c).
Proof.
  intros V C j J. rewrite nth_setNth.
  destruct ((j =? i)%nat && (i <? List.length c)%nat); [exact V | apply C, J].
Qed.

Lemma digitCaptures_empty (n : nat) : digitCaptures (repeat "" n).
Proof.
  intros i _. replace (nth i (repeat "" n) "") with "".
  - reflexivity.
  - symmetry. revert i. induction n as [|n IH]; intros [|i]; cbn; auto.
Qed.

(** Rounds of [\d] that start [ds] bytes into the text [s0 = ds ++ s] of
    a group: whatever the group captures is made of digits. *)
Lemma rounds_digit_keeps (i : nat) (k : cont) (pos0 : nat) (s0 : string) :
  keeps k ->
  forall fuel ds s c res,
    s0 = ds ++ s -> allDigits ds = true -> digitCaptures c ->
    rounds (run Digit)
      (fun pos1 s1 c1 =>
         k pos1 s1 (setNth i (substring 0 (pos1 - pos0) s0) c1))
      fuel (String.length ds + pos0) s c = Some res ->
    digitCaptures res.
Proof.
  intros K fuel. induction fuel as [|fuel IH]; intros ds s c res S0 A C E;
    [discriminate|].
  cbn [rounds run] in E.
  destruct s as [|b s]; [discriminate|].
  destruct (isDigit b) eqn:B; [|discriminate].
  assert (A' : allDigits (ds ++ String b "") = true)
    by (apply allDigits_snoc; assumption).
  assert (S1 : s0 = (ds ++ String b "") ++ s)
    by (now rewrite append_assoc_s).
  assert (L : S (String.length ds + pos0)
              = (String.length (ds ++ String b "") + pos0)%nat).
  { clear. induction ds as [|x ds IHd]; cbn [String.length append]; lia. }
  rewrite L in E.
  destruct (rounds _ _ fuel _ s c) as [res'|] eqn:R; cbn [orElse] in E.
  - injection E as <-.
    eapply (IH (ds ++ String b "") s c); eassumption.
  - replace (String.length (ds ++ String b "") + pos0 - pos0)%nat
      with (String.length (ds ++ String b "")) in E by lia.
    rewrite S1, substring_prefix in E.
    eapply K; [|exact E].
    apply digitCaptures_setNth_digits; assumption.
Qed.

Lemma rounds_keeps
  (step : nat -> string -> captures -> cont -> option captures) (k : cont) :
  (forall pos s c k' res,
     keeps k' -> digitCaptures c -> step pos s c k' = Some res ->
     digitCaptures res) ->
  keeps k ->
  forall fuel pos s c res,
    digitCaptures c -> rounds step k fuel pos s c = Some res ->
    digitCaptures res.
Proof.
  intros Step K fuel. induction fuel as [|fuel IH]; intros pos s c res C E;
    [discriminate|].
  cbn [rounds] in E. eapply Step; [|exact C|exact E].
  intros p s1 c1 res1 C1 E1.
  destruct (rounds step k fuel p s1 c1) as [x|] eqn:R; cbn [orElse] in E1.
  - injection E1 as <-. eapply IH; eassumption.
  - eapply K; eassumption.
Qed.

(** A match of a well-captured expression keeps the integer groups made
    of digits. *)
Lemma run_keeps (r : regex) :
  wellCaptured r = true ->
  forall pos s c k res,
    keeps k -> digitCaptures c -> run r pos s c k = Some res ->
    digitCaptures res.
Proof.
  induction r as [| |a| |r1 IH1 r2 IH2|r1 IH1|r1 IH1|i r1 IH1];
    intros WC pos s c k res K C E; cbn [wellCaptured] in WC.
  - cbn [run] in E.
    destruct (pos =? 0)%nat; [eapply K; eassumption | discriminate].
  - cbn [run] in E. destruct s; [eapply K; eassumption | discriminate].
  - cbn [run] in E. destruct s as [|b s]; [discriminate|].
    destruct (Ascii.eqb a b); [eapply K; eassumption | discriminate].
  - cbn [run] in E. destruct s as [|b s]; [discriminate|].
    destruct (isDigit b); [eapply K; eassumption | discriminate].
  - cbn [run] in E. apply andb_prop in WC as [W1 W2].
    eapply (IH1 W1); [|exact C|exact E].
    intros p s1 c1 res1 C1 E1. eapply (IH2 W2); eassumption.
  - cbn [run] in E.
    destruct (run r1 pos s c k) as [x|] eqn:R; cbn [orElse] in E.
    + injection E as <-. eapply (IH1 WC); eassumption.
    + eapply K; eassumption.
  - cbn [run] in E. eapply rounds_keeps; [|exact K|exact C|exact E].
    intros p s1 c1 k' res1 K' C1 E1. eapply (IH1 WC); eassumption.
  - destruct (digitGroup i) eqn:DG.
    + destruct r1 as [| | | | | |r1|]; try discriminate.
      destruct r1; try discriminate.
      change (run (Group i (Plus Digit)) pos s c k)
        with (rounds (run Digit)
                (fun pos1 s1 c1 =>
                   k pos1 s1 (setNth i (substring 0 (pos1 - pos) s) c1))
                (S (String.length s)) pos s c) in E.
      exact (rounds_digit_keeps i k pos s K _ "" s c res
               eq_refl eq_refl C E).
    + cbn [run] in E. eapply (IH1 WC); [|exact C|exact E].
      intros p s1 c1 res1 C1 E1. eapply K; [|exact E1].
      apply digitCaptures_setNth_other; assumption.
Qed.

Lemma keeps_final (f : nat -> string) :
  keeps (fun pos1 _ c1 => Some (setNth 0 (f pos1) c1)).
Proof.
  intros p s c res C E.
  assert (R : res = setNth 0 (f p) c) by congruence.
  rewrite R. apply digitCaptures_setNth_other; [reflexivity | exact C].
Qed.

Lemma searchFrom_keeps (r : regex) (n : nat) :
  wellCaptured r = true ->
  forall s pos c, searchFrom r n pos s = Some c -> digitCaptures c.
Proof.
  intros WC s. induction s as [|a s IH]; intros pos c E; cbn [searchFrom] in E.
  - destruct (run r pos "" _ _) as [x|] eqn:R; [|discriminate].
    assert (X : x = c) by congruence. subst x.
    eapply (run_keeps r WC); [| |exact R].
    + apply (keeps_final (fun pos1 => substring 0 (pos1 - pos) "")).
    + apply digitCaptures_empty.
  - destruct (run r pos (String a s) _ _) as [x|] eqn:R.
    + assert (X : x = c) by congruence. subst x.
      eapply (run_keeps r WC); [| |exact R].
      * apply (keeps_final (fun pos1 => substring 0 (pos1 - pos) (String a s))).
      * apply digitCaptures_empty.
    + eapply IH, E.
Qed.

Lemma pattern_captures_digits (s : string) (c : captures) :
  FindStringSubmatch pattern s = Some c -> digitCaptures c.
Proof. apply searchFrom_keeps. reflexivity. Qed.

(** *** One sign for all fields *)

Lemma Atoi_unsigned (a : ascii) (s : string) :
  isDigit a = true ->
  Atoi (String a s) =
  if allDigits (String a s) then
    if GoInt.in_rangeb (decimalValue (String a s))
    then Ok (decimalValue (String a s)) else Err ErrRange
  else Err ErrSyntax.
Proof.
  destruct a as [[|] [|] [|] [|] [|] [|] [|] [|]]; intros E;
    try discriminate E; reflexivity.
Qed.

Lemma Atoi_digits (s : string) (v : Z) :
  allDigits s = true -> Atoi s = Ok v -> 0 <= v <= GoInt.max_int.
Proof.
  intros A E. destruct s as [|a s]; [discriminate|].
  assert (DA : isDigit a = true).
  { unfold allDigits in A. cbn [list_ascii_of_string forallb] in A.
    now apply andb_prop in A as [DA _]. }
  rewrite (Atoi_unsigned a s DA), A in E.
  destruct (GoInt.in_rangeb _) eqn:R; [|discriminate].
  injection E as <-.
  apply GoIntFacts.in_rangeb_spec in R. unfold GoInt.in_range in R.
  split; [apply decimalValue_nonneg, A | lia].
Qed.

Lemma binary_round_aux_unsigned (m e : Z) (l : location) :
  unsignedFloat (binary_round_aux F64.prec F64.emax false m e l).
Proof.
  unfold binary_round_aux.
  destruct (shr_fexp F64.prec F64.emax m e l) as [mrs e'].
  destruct (shr_fexp F64.prec F64.emax _ e' loc_Exact) as [mrs' e''].
  destruct (shr_m mrs'); [reflexivity| |exact I].
  destruct (e'' <=? F64.emax - F64.prec); reflexivity.
Qed.

Lemma ParseFloat_unsigned (s : string) (x : float64) :
  ParseFloat s = Ok x -> unsignedFloat x.
Proof.
  unfold ParseFloat. destruct (splitDot s) as [ip fp].
  match goal with |- (if ?w then _ else _) = _ -> _ => destruct w end;
    [|discriminate].
  set (n := decimalValue _). set (d := 10 ^ _).
  assert (U : unsignedFloat (nearestRatio n d)).
  { unfold nearestRatio. destruct n; try exact I; [reflexivity|].
    destruct (SFdiv_core_binary _ _ _ _ _ _) as [[q e] l].
    apply binary_round_aux_unsigned. }
  destruct (nearestRatio n d); try discriminate; intros [= <-]; exact U.
Qed.

Lemma unsigned_not_below_zero (x : float64) :
  unsignedFloat x ->
  F64.ltb x F64.zero = false /\ F64.ltb F64.zero (F64.neg x) = false.
Proof.
  destruct x as [s|s| |s m e]; cbn [unsignedFloat]; intros U; subst;
    split; reflexivity.
Qed.

Lemma intsWithin_assignInt (lo hi : Z) (name : string) (val : Z) (d : Duration) :
  lo <= val <= hi -> intsWithin lo hi d -> intsWithin lo hi (assignInt name val d).
Proof.
  intros V (RY & RM & RW & RD & RH & RN). unfold assignInt.
  repeat match goal with
    | |- context [String.eqb name ?x] => destruct (String.eqb name x)
    end;
    repeat split; cbn [Y M W D TH TM]; lia.
Qed.

Lemma TS_assignInt (name : string) (val : Z) (d : Duration) :
  TS (assignInt name val d) = TS d.
Proof.
  unfold assignInt.
  repeat match goal with
    | |- context [String.eqb name ?x] => destruct (String.eqb name x)
    end; reflexivity.
Qed.

Lemma parseGroups_oneSign (negative : bool) (names : list string) :
  forall (i : nat) (c : list string) (d dr : Duration),
    (forall j, integerField (nth j names "") = true ->
               allDigits (nth (i + j) c "") = true) ->
    oneSign negative d ->
    parseGroups negative c i names d = (dr, None) ->
    oneSign negative dr.
Proof.
  induction names as [|name names IH]; intros i c d dr A Q E.
  - cbn [parseGroups] in E. now injection E as <-.
  - assert (A' : forall j, integerField (nth j names "") = true ->
                          allDigits (nth (S i + j) c "") = true).
    { intros j J. replace (S i + j)%nat with (i + S j)%nat by lia.
      apply A. exact J. }
    cbn [parseGroups] in E.
    destruct ((i =? 0)%nat || String.eqb name "" || String.eqb (nth i c "") "");
      [eapply IH; eassumption|].
    destruct (integerField name) eqn:IF.
    + destruct (Atoi (nth i c "")) as [val|err] eqn:EA; [|discriminate].
      assert (V : 0 <= val <= GoInt.max_int).
      { eapply Atoi_digits; [|exact EA].
        specialize (A 0%nat IF). now rewrite Nat.add_0_r in A. }
      eapply IH; [exact A' | | exact E].
      unfold oneSign in *. destruct negative; destruct Q as [Q1 Q2].
      * split; [|now rewrite TS_assignInt].
        apply intsWithin_assignInt; [|exact Q1].
        unfold GoInt.max_int in *. wrap_lia.
      * split; [|now rewrite TS_assignInt].
        apply intsWithin_assignInt; assumption.
    + destruct (String.eqb name "second"); [|eapply IH; eassumption].
      destruct (ParseFloat (nth i c "")) as [val|err] eqn:PF; [|discriminate].
      pose proof (unsigned_not_below_zero val (ParseFloat_unsigned _ _ PF))
        as [U1 U2].
      eapply IH; [exact A' | | exact E].
      unfold oneSign in *. destruct negative; destruct Q as [Q1 Q2];
        (split; [exact Q1 | assumption]).
Qed.

Lemma integer_names_are_digit_groups (j : nat) :
  integerField (nth j (SubexpNames pattern) "") = true -> digitGroup j = true.
Proof.
  do 17 (destruct j as [|j];
         [cbn; intros E; first [discriminate E | reflexivity]|]).
  destruct j; cbn; discriminate.
Qed.

(** A text that parses gives fields of one sign: without a leading
    minus every integer field lies between 0 and the greatest [int] and
    the duration is not negative; with it every integer field lies
    between minus the greatest [int] and 0 and the seconds are not above
    zero. *)
Theorem parsed_fields_have_one_sign (s : string) (d : Duration) :
  ParseISO8601 s = (d, None) ->
  (firstByteIs "-" s = false ->
   intsWithin 0 GoInt.max_int d /\ IsNegative d = false) /\
  (firstByteIs "-" s = true ->
   intsWithin (- GoInt.max_int) 0 d /\ F64.ltb F64.zero (TS d) = false).
Proof.
  unfold ParseISO8601.
  destruct (FindStringSubmatch pattern s) as [c|] eqn:EM; [|discriminate].
  intros E.
  assert (Q : oneSign (firstByteIs "-" s) d).
  { eapply parseGroups_oneSign; [| |exact E].
    - intros j J. cbn [Nat.add].
      apply (pattern_captures_digits s c EM).
      apply integer_names_are_digit_groups, J.
    - unfold oneSign, intsWithin, GoInt.max_int.
      destruct (firstByteIs "-" s); cbn; repeat split; lia. }
  split; intros F; rewrite F in Q; destruct Q as [Q1 Q2].
  - split; [exact Q1|].
    destruct Q1 as (RY & RM & RW & RD & RH & RN).
    unfold IsNegative. rewrite Q2.
    repeat match goal with
      | |- context [?x <? 0] =>
          replace (x <? 0) with false by (symmetry; apply Z.ltb_ge; lia)
      end.
    reflexivity.
  - split; assumption.
Qed.

Lemma parsed_fields_have_one_sign_witness :
  intsWithin (- GoInt.max_int) 0 (fst (ParseISO8601 "-P1Y2M3DT4H5M6.5S")).
Proof.
  apply (proj2 (parsed_fields_have_one_sign "-P1Y2M3DT4H5M6.5S"
                  (fst (ParseISO8601 "-P1Y2M3DT4H5M6.5S"))
                  ltac:(vm_compute; reflexivity))).
  reflexivity.
Defined.

(* ------------------------------------------------------------------ *)
(** ** From a duration to its text and back *)

(** *** The decimal digits of a positive integer *)

Lemma decimal_acc (u : Decimal.uint) :
  forall acc : positive,
    fold_left (fun n c => n * 10 + digitValue c)
      (list_ascii_of_string (NilEmpty.string_of_uint u)) (Z.pos acc)
    = Z.pos (Pos.of_uint_acc u acc).
Proof.
  induction u as [|u IH|u IH|u IH|u IH|u IH|u IH|u IH|u IH|u IH|u IH];
    intros acc;
    cbn [NilEmpty.string_of_uint list_ascii_of_string fold_left Pos.of_uint_acc];
    [reflexivity|..];
    rewrite <- IH; f_equal;
    match goal with
    | |- context [digitValue ?c] =>
        let v := eval vm_compute in (digitValue c) in
        change (digitValue c) with v
    end; lia.
Qed.

Lemma decimal_uint (u : Decimal.uint) :
  decimalValue (NilEmpty.string_of_uint u) = Z.of_N (Pos.of_uint u).
Proof.
  unfold decimalValue.
  induction u as [|u IH|u IH|u IH|u IH|u IH|u IH|u IH|u IH|u IH|u IH];
    cbn [NilEmpty.string_of_uint list_ascii_of_string fold_left Pos.of_uint];
    [reflexivity | exact IH |..];
    cbn [Z.of_N]; rewrite <- decimal_acc; f_equal.
Qed.

Lemma allDigits_uint (u : Decimal.uint) :
  allDigits (NilEmpty.string_of_uint u) = true.
Proof.
  unfold allDigits.
  induction u; cbn [NilEmpty.string_of_uint list_ascii_of_string forallb];
    [reflexivity|..]; rewrite IHu; reflexivity.
Qed.

Lemma formatInt_pos (p : positive) :
  formatInt (Z.pos p) = NilEmpty.string_of_uint (Pos.to_uint p).
Proof.
  unfold formatInt. cbn [Z.to_int NilZero.string_of_int].
  unfold NilZero.string_of_uint.
  pose proof (DecimalPos.Unsigned.to_uint_nonnil p) as N.
  destruct (Pos.to_uint p); [contradiction|..]; reflexivity.
Qed.

(** What the formatter writes for a positive field: digits, at least
    one, that [Atoi] reads back. *)
Lemma formatInt_digits (n : Z) :
  0 < n ->
  allDigits (formatInt n) = true /\
  decimalValue (formatInt n) = n /\
  exists a s, formatInt n = String a s /\ isDigit a = true.
Proof.
  intros P. destruct n as [|p|p]; try lia.
  rewrite formatInt_pos.
  pose proof (allDigits_uint (Pos.to_uint p)) as A.
  split; [exact A|]. split.
  - rewrite decimal_uint, DecimalPos.Unsigned.of_to. reflexivity.
  - pose proof (DecimalPos.Unsigned.to_uint_nonnil p) as N.
    destruct (NilEmpty.string_of_uint (Pos.to_uint p)) as [|a s] eqn:E.
    + destruct (Pos.to_uint p); try contradiction; discriminate E.
    + exists a, s. split; [reflexivity|].
      unfold allDigits in A. cbn [list_ascii_of_string forallb] in A.
      now apply andb_prop in A as [DA _].
Qed.

Lemma Atoi_formatInt (n : Z) :
  0 < n <= GoInt.max_int -> Atoi (formatInt n) = Ok n.
Proof.
  intros R. destruct (formatInt_digits n) as (A & V & a & s & E & DA); [lia|].
  rewrite E in *. rewrite (Atoi_unsigned a s DA), A, V.
  replace (GoInt.in_rangeb n) with true; [reflexivity|].
  symmetry. apply GoIntFacts.in_rangeb_spec.
  unfold GoInt.in_range, GoInt.min_int, GoInt.max_int in *. lia.
Qed.

(** *** One unit under the matcher *)

Lemma length_append_s (a b : string) :
  String.length (a ++ b) = (String.length a + String.length b)%nat.
Proof. induction a as [|x a IH]; cbn [append String.length]; [reflexivity | now rewrite IH]. Qed.

Lemma rounds_Digit_step (k : cont) (fuel pos : nat) (b : ascii) (s : string)
  (c : captures) :
  rounds (run Digit) k (S fuel) pos (String b s) c =
  if isDigit b
  then orElse (rounds (run Digit) k fuel (S pos) s c) (k (S pos) s c)
  else None.
Proof. reflexivity. Qed.

Lemma rounds_Digit_end (k : cont) (fuel pos : nat) (c : captures) :
  rounds (run Digit) k fuel pos "" c = None.
Proof. destruct fuel; reflexivity. Qed.

Lemma rounds_stuck (k : cont) (fuel pos : nat) (s : string) (c : captures) :
  startsWithDigit s = false -> rounds (run Digit) k fuel pos s c = None.
Proof.
  intros F. destruct s as [|b s]; [apply rounds_Digit_end|].
  destruct fuel; [reflexivity|]. rewrite rounds_Digit_step.
  cbn [startsWithDigit] in F. now rewrite F.
Qed.

(** [\d+] takes all the digits in front of a byte that is not one. *)
Lemma rounds_greedy (ds : string) :
  allDigits ds = true -> ds <> "" ->
  forall fuel pos tail c k res,
    (String.length ds <= fuel)%nat ->
    startsWithDigit tail = false ->
    k (String.length ds + pos)%nat tail c = Some res ->
    rounds (run Digit) k fuel pos (ds ++ tail) c = Some res.
Proof.
  induction ds as [|b ds IH]; intros A N fuel pos tail c k res F T K;
    [congruence|].
  unfold allDigits in A. cbn [list_ascii_of_string forallb] in A.
  apply andb_prop in A as [B A].
  destruct fuel as [|fuel]; [cbn in F; lia|].
  change (String b ds ++ tail) with (String b (ds ++ tail)).
  rewrite rounds_Digit_step, B.
  destruct (string_dec ds "") as [->|NE].
  - cbn [append]. rewrite rounds_stuck by exact T. exact K.
  - rewrite (IH A NE fuel (S pos) tail c k res);
      [reflexivity | cbn [String.length] in *; lia | exact T |].
    cbn [String.length] in *. rewrite <- plus_n_Sm. exact K.
Qed.

Lemma run_unitGroup (outer : nat) (L : ascii) (pos : nat) (s : string)
  (c : captures) (k : cont) :
  run (unitGroup outer L) pos s c k =
  rounds (run Digit)
    (fun p2 s2 c2 =>
       run (Chr L) p2 s2 (setNth (S outer) (substring 0 (p2 - pos) s) c2)
         (fun p1 s1 c1 => k p1 s1 (setNth outer (substring 0 (p1 - pos) s) c1)))
    (S (String.length s)) pos s c.
Proof. reflexivity. Qed.

Lemma rounds_never (L : ascii) (k : cont) :
  (forall p s c, neverLetter L s = true -> k p s c = None) ->
  forall fuel pos s c,
    neverLetter L s = true -> rounds (run Digit) k fuel pos s c = None.
Proof.
  intros K fuel. induction fuel as [|fuel IH]; intros pos s c N;
    [reflexivity|].
  destruct s as [|b s]; [apply rounds_Digit_end|].
  rewrite rounds_Digit_step.
  cbn [neverLetter] in N. destruct (isDigit b); [|reflexivity].
  rewrite IH, K by exact N. reflexivity.
Qed.

Lemma neverLetter_first (L : ascii) (s : string) :
  isDigit L = false -> neverLetter L s = true -> firstByteIs L s = false.
Proof.
  intros DL N. destruct s as [|b s]; [reflexivity|].
  cbn [neverLetter firstByteIs] in *.
  destruct (Ascii.eqb_spec b L) as [->|NE]; [|reflexivity].
  rewrite DL in N. discriminate.
Qed.

(** The unit of another letter does not match. *)
Lemma unitGroup_fails (outer : nat) (L : ascii) (pos : nat) (s : string)
  (c : captures) (k : cont) :
  isDigit L = false -> neverLetter L s = true ->
  run (unitGroup outer L) pos s c k = None.
Proof.
  intros DL N. rewrite run_unitGroup. apply rounds_never with (L := L); [|exact N].
  intros p s1 c1 N1. cbn [run].
  pose proof (neverLetter_first L s1 DL N1) as F.
  destruct s1 as [|b s1]; [reflexivity|].
  cbn [firstByteIs] in F. rewrite Ascii.eqb_sym, F. reflexivity.
Qed.

(** A unit as the formatter writes it: nothing for zero, else digits and
    the letter; the component takes it and leaves its captures. *)
Lemma component_run (outer : nat) (L : ascii) (n : Z) (pos : nat)
  (rest : string) (c : captures) (k : cont) (res : captures) :
  isDigit L = false -> 0 <= n -> neverLetter L rest = true ->
  k (unitEnd n pos) rest (unitCaptures outer n L c) = Some res ->
  run (component outer L) pos (digitsText n L rest) c k = Some res.
Proof.
  intros DL P N K.
  unfold unitEnd, unitCaptures, digitsText in *.
  change (component outer L) with (Opt (unitGroup outer L)). cbn [run].
  destruct (neqb n 0) eqn:NZ.
  - assert (PN : 0 < n).
    { unfold neqb in NZ. apply negb_true_iff, Z.eqb_neq in NZ. lia. }
    destruct (formatInt_digits n PN) as (A & _ & a & s & E & _).
    assert (NE : formatInt n <> "") by (rewrite E; discriminate).
    rewrite run_unitGroup.
    rewrite (rounds_greedy (formatInt n) A NE _ pos (String L rest) c _ res);
      [reflexivity | | exact DL |].
    + rewrite length_append_s. lia.
    + cbn [run]. rewrite Ascii.eqb_refl.
      replace (String.length (formatInt n) + pos - pos)%nat
        with (String.length (formatInt n)) by lia.
      rewrite substring_prefix.
      replace (S (String.length (formatInt n) + pos) - pos)%nat
        with (String.length (formatInt n ++ String L "")) 
        by (rewrite length_append_s; cbn [String.length]; lia).
      replace (formatInt n ++ String L rest)
        with ((formatInt n ++ String L "") ++ rest)
        by (now rewrite append_assoc_s).
      rewrite substring_prefix. exact K.
  - rewrite unitGroup_fails by assumption. exact K.
Qed.

Lemma neverLetter_digits (L : ascii) (ds t : string) :
  allDigits ds = true -> neverLetter L (ds ++ t) = neverLetter L t.
Proof.
  unfold allDigits. induction ds as [|b ds IH]; intros A; [reflexivity|].
  cbn [list_ascii_of_string forallb] in A. apply andb_prop in A as [B A].
  cbn [append neverLetter]. rewrite B. apply IH, A.
Qed.

Lemma neverLetter_digitsText (L L' : ascii) (n : Z) (rest : string) :
  0 <= n -> isDigit L' = false -> Ascii.eqb L' L = false ->
  neverLetter L rest = true ->
  neverLetter L (digitsText n L' rest) = true.
Proof.
  intros P DL NE N. unfold digitsText.
  destruct (neqb n 0) eqn:NZ; [|exact N].
  assert (PN : 0 < n).
  { unfold neqb in NZ. apply negb_true_iff, Z.eqb_neq in NZ. lia. }
  destruct (formatInt_digits n PN) as (A & _).
  rewrite neverLetter_digits by exact A.
  cbn [neverLetter]. now rewrite DL, NE.
Qed.

(** *** The whole pattern on a formatted text *)

Lemma run_Cat (r1 r2 : regex) (pos : nat) (s : string) (c : captures) (k : cont) :
  run (Cat r1 r2) pos s c k =
  run r1 pos s c (fun pos1 s1 c1 => run r2 pos1 s1 c1 k).
Proof. reflexivity. Qed.

Lemma run_Chr_match (a : ascii) (pos : nat) (s : string) (c : captures)
  (k : cont) :
  run (Chr a) pos (String a s) c k = k (S pos) s c.
Proof. cbn [run]. now rewrite Ascii.eqb_refl. Qed.

Lemma run_secondsGroup_end (pos : nat) (c : captures) (k : cont) :
  run secondsGroup pos "" c k = k pos "" c.
Proof. reflexivity. Qed.

Lemma run_timeGroup_end (pos : nat) (c : captures) (k : cont) :
  run timeGroup pos "" c k = k pos "" c.
Proof. reflexivity. Qed.

Lemma run_timeGroup_T (pos : nat) (t : string) (c : captures) (k : cont) :
  run timeGroup pos (String "T" t) c k =
  orElse
    (run (Cat (component 11 "H") (Cat (component 13 "M") secondsGroup))
       (S pos) t c
       (fun p1 s1 c1 =>
          k p1 s1 (setNth 10 (substring 0 (p1 - pos) (String "T" t)) c1)))
    (k pos (String "T" t) c).
Proof. reflexivity. Qed.

Lemma timeGroup_run (th tm : Z) (pos : nat) (c : captures) (k : cont)
  (res : captures) :
  0 <= th -> 0 <= tm ->
  k (timeEnd th tm pos) "" (timeCaptures th tm pos c) = Some res ->
  run timeGroup pos (timeText th tm) c k = Some res.
Proof.
  intros PH PM K. unfold timeCaptures, timeText, timeEnd in *.
  destruct (neqb th 0 || neqb tm 0).
  - rewrite run_timeGroup_T.
    match goal with |- orElse ?x _ = _ => assert (R : x = Some res) end;
      [|now rewrite R].
    rewrite run_Cat.
    apply component_run;
      [reflexivity | exact PH
      | apply neverLetter_digitsText; (reflexivity || assumption) |].
    cbv beta. rewrite run_Cat.
    apply component_run; [reflexivity | exact PM | reflexivity |].
    cbv beta. rewrite run_secondsGroup_end. exact K.
  - rewrite run_timeGroup_end. exact K.
Qed.

Lemma neverLetter_timeText (L : ascii) (th tm : Z) :
  Ascii.eqb "T" L = false -> neverLetter L (timeText th tm) = true.
Proof.
  intros NE. unfold timeText. destruct (neqb th 0 || neqb tm 0); [|reflexivity].
  cbn [neverLetter]. change (isDigit "T") with false. cbv iota.
  now rewrite NE.
Qed.

Lemma afterSign_units :
  afterSign =
  Cat (Chr "P")
    (Cat (component 2 "Y")
       (Cat (component 4 "M")
          (Cat (component 6 "W")
             (Cat (component 8 "D") (Cat timeGroup Eol))))).
Proof. reflexivity. Qed.

Ltac never_letter :=
  repeat (apply neverLetter_digitsText; [assumption | reflexivity | reflexivity |]);
  apply neverLetter_timeText; reflexivity.

(** The pattern matches the text of a duration of non-negative fields,
    and each named group captures the digits of its field. *)
Lemma match_formatted (d : Duration) :
  intsWithin 0 GoInt.max_int d ->
  exists c,
    FindStringSubmatch pattern (durationText d) = Some c /\ namedCaptures d c.
Proof.
  intros ((PY & _) & (PM & _) & (PW & _) & (PD & _) & (PH & _) & (PN & _)).
  unfold FindStringSubmatch.
  rewrite pattern_shape, searchFrom_start, run_sign_absent by reflexivity.
  rewrite afterSign_units. unfold durationText.
  eexists. split.
  - rewrite run_Cat, run_Chr_match, run_Cat.
    apply component_run; [reflexivity | exact PY | never_letter |].
    cbv beta. rewrite run_Cat.
    apply component_run; [reflexivity | exact PM | never_letter |].
    cbv beta. rewrite run_Cat.
    apply component_run; [reflexivity | exact PW | never_letter |].
    cbv beta. rewrite run_Cat.
    apply component_run; [reflexivity | exact PD | never_letter |].
    cbv beta. rewrite run_Cat.
    apply timeGroup_run; [exact PH | exact PN |].
    cbv beta. reflexivity.
  - unfold namedCaptures, timeCaptures, timeEnd, unitCaptures, digitsOf.
    destruct (neqb (Y d) 0), (neqb (M d) 0), (neqb (W d) 0), (neqb (D d) 0),
      (neqb (TH d) 0), (neqb (TM d) 0); cbn [orb];
      repeat split; reflexivity.
Qed.

(** *** The loop over the groups of a formatted text *)

Lemma parseGroups_unnamed (negative : bool) (c : list string) (i : nat)
  (names : list string) (d : Duration) :
  parseGroups negative c i ("" :: names) d
  = parseGroups negative c (S i) names d.
Proof. cbn [parseGroups String.eqb]. now rewrite orb_true_r. Qed.

Lemma parseGroups_field (name : string) (n : Z) (c : list string) (i : nat)
  (names : list string) (d : Duration) :
  integerField name = true -> String.eqb name "" = false -> i <> 0%nat ->
  nth i c "" = digitsOf n -> 0 <= n <= GoInt.max_int ->
  assignInt name 0 d = d ->
  parseGroups false c i (name :: names) d
  = parseGroups false c (S i) names (assignInt name n d).
Proof.
  intros IF NE I P R A0. cbn [parseGroups].
  rewrite IF, NE, P. apply Nat.eqb_neq in I. rewrite I. cbn [orb].
  unfold digitsOf. destruct (neqb n 0) eqn:NZ.
  - assert (PN : 0 < n).
    { unfold neqb in NZ. apply negb_true_iff, Z.eqb_neq in NZ. lia. }
    destruct (formatInt_digits n PN) as (_ & _ & a & s & E & _).
    rewrite Atoi_formatInt by lia. rewrite E. reflexivity.
  - unfold neqb in NZ. apply negb_false_iff, Z.eqb_eq in NZ. subst n.
    cbn [String.eqb]. now rewrite A0.
Qed.

Lemma parseGroups_no_seconds (c : list string) (i : nat) (d : Duration) :
  nth i c "" = "" -> parseGroups false c i ["second"] d = (d, None).
Proof.
  intros P. cbn [parseGroups]. rewrite P. cbn [String.eqb].
  now rewrite orb_true_r.
Qed.

Lemma parse_named (d : Duration) (c : captures) :
  intsWithin 0 GoInt.max_int d -> TS d = F64.zero -> namedCaptures d c ->
  parseGroups false c 0 (SubexpNames pattern) zeroDuration = (d, None).
Proof.
  intros (RY & RM & RW & RD & RH & RN) ETS (CY & CM & CW & CD & CH & CN & CS).
  cbn [SubexpNames pattern].
  rewrite !parseGroups_unnamed.
  rewrite (parseGroups_field "year" (Y d)) by (reflexivity || lia || assumption).
  rewrite !parseGroups_unnamed.
  rewrite (parseGroups_field "month" (M d)) by (reflexivity || lia || assumption).
  rewrite !parseGroups_unnamed.
  rewrite (parseGroups_field "week" (W d)) by (reflexivity || lia || assumption).
  rewrite !parseGroups_unnamed.
  rewrite (parseGroups_field "day" (D d)) by (reflexivity || lia || assumption).
  rewrite !parseGroups_unnamed.
  rewrite (parseGroups_field "hour" (TH d)) by (reflexivity || lia || assumption).
  rewrite !parseGroups_unnamed.
  rewrite (parseGroups_field "minute" (TM d)) by (reflexivity || lia || assumption).
  rewrite !parseGroups_unnamed.
  rewrite parseGroups_no_seconds by exact CS.
  destruct d as [y m w dd th tm ts]. cbn [TS] in ETS. subst ts. reflexivity.
Qed.

(** *** The formatter and the parser, composed *)

Lemma unitText_app (n : Z) (L : ascii) (rest : string) :
  0 <= n -> unitText n (String L "") ++ rest = digitsText n L rest.
Proof.
  intros P. unfold unitText, digitsText, abs.
  replace (n <? 0) with false by (symmetry; apply Z.ltb_ge; lia).
  destruct (neqb n 0); [|reflexivity].
  now rewrite append_assoc_s.
Qed.

Section RoundTrip.
Context `{Arch}.

Lemma formatDuration_text (d : Duration) :
  intsWithin 0 GoInt.max_int d -> TS d = F64.zero ->
  formatDuration d = durationText d.
Proof.
  intros ((PY & _) & (PM & _) & (PW & _) & (PD & _) & (PH & _) & (PN & _)) ETS.
  unfold formatDuration, durationText, IsNegative, HasTimePart.
  rewrite ETS.
  repeat match goal with
    | |- context [?x <? 0] =>
        replace (x <? 0) with false by (symmetry; apply Z.ltb_ge; lia)
    end.
  change (F64.ltb F64.zero F64.zero) with false.
  change (F64.eqb F64.zero F64.zero) with true.
  cbn [orb negb]. rewrite orb_false_r.
  change ("" ++ "P" ++ ?x) with (String "P" x). f_equal.
  rewrite !unitText_app by assumption. do 4 f_equal.
  unfold timeText.
  destruct (neqb (TH d) 0) eqn:EH, (neqb (TM d) 0) eqn:EM; cbn [orb];
    try reflexivity.
  unfold digitsText. now rewrite EH, EM.
Qed.

(** A duration of non-negative integer fields and no seconds comes back
    from its own text: [String] returns a text that [ParseISO8601]
    accepts, and the result is the duration itself. *)
Theorem integer_duration_round_trip (d : Duration) :
  intsWithin 0 GoInt.max_int d -> TS d = F64.zero ->
  exists s, DurationString d = Returns s /\ ParseISO8601 s = (d, None).
Proof.
  intros R ETS. rewrite DurationString_builder.
  destruct (IsZero d) eqn:Z.
  - exists "P0D". split; [reflexivity|].
    assert (E : d = zeroDuration).
    { unfold IsZero in Z.
      repeat match goal with
        | H : _ && _ = true |- _ => apply andb_prop in H as [? ?]
        | H : (_ =? 0) = true |- _ => apply Z.eqb_eq in H
        end.
      destruct d as [y m w dd th tm ts]; cbn [Y M W D TH TM TS] in *.
      now subst. }
    rewrite E. vm_compute. reflexivity.
  - exists (formatDuration d). split; [reflexivity|].
    rewrite (formatDuration_text d R ETS).
    unfold ParseISO8601.
    destruct (match_formatted d R) as (c & E & N).
    rewrite E. change (firstByteIs "-" (durationText d)) with false.
    apply parse_named; assumption.
Qed.

End RoundTrip.

Lemma integer_duration_round_trip_witness :
  exists s,
    @DurationString amd64 (mkDuration 10 0 3 0 0 45 F64.zero) = Returns s /\
    ParseISO8601 s = (mkDuration 10 0 3 0 0 45 F64.zero, None).
Proof.
  apply (@integer_duration_round_trip amd64 (mkDuration 10 0 3 0 0 45 F64.zero)).
  - unfold intsWithin, GoInt.max_int. cbn [Y M W D TH TM]. lia.
  - reflexivity.
Defined.

(** *** Durations below zero *)

Lemma unitText_negative (n : Z) (L : string) :
  - GoInt.max_int <= n <= 0 -> unitText n L = unitText (- n) L.
Proof.
  intros R. unfold unitText, abs, neqb.
  replace (- n =? 0) with (n =? 0)
    by (destruct (Z.eqb_spec n 0), (Z.eqb_spec (- n) 0); lia).
  destruct (Z.eqb_spec n 0) as [->|N]; [reflexivity|]. cbn [negb].
  replace (n <? 0) with true by (symmetry; apply Z.ltb_lt; lia).
  replace (- n <? 0) with false by (symmetry; apply Z.ltb_ge; lia).
  f_equal. f_equal. unfold GoInt.max_int in R. wrap_lia.
Qed.

Section RoundTripNegative.
Context `{Arch}.

Lemma formatDuration_negative (d : Duration) :
  intsWithin (- GoInt.max_int) 0 d -> TS d = F64.zero -> IsZero d = false ->
  formatDuration d = String "-" (formatDuration (magnitudes d)).
Proof.
  intros (RY & RM & RW & RD & RH & RN) ETS Z.
  assert (NEG : IsNegative d = true).
  { unfold IsZero in Z. unfold IsNegative. rewrite ETS in *.
    change (F64.eqb F64.zero F64.zero) with true in Z.
    rewrite andb_true_r in Z.
    destruct (Z.eqb_spec (Y d) 0), (Z.eqb_spec (M d) 0), (Z.eqb_spec (W d) 0),
      (Z.eqb_spec (D d) 0), (Z.eqb_spec (TH d) 0), (Z.eqb_spec (TM d) 0);
      try discriminate Z;
      repeat match goal with
        | |- context [?x <? 0] =>
            first [ replace (x <? 0) with true
                      by (symmetry; apply Z.ltb_lt; lia)
                  | replace (x <? 0) with false
                      by (symmetry; apply Z.ltb_ge; lia) ]
        end;
      cbn [orb]; rewrite ?orb_true_r; reflexivity. }
  assert (POS : IsNegative (magnitudes d) = false).
  { unfold IsNegative, magnitudes; cbn [Y M W D TH TM TS].
    repeat match goal with
      | |- context [?x <? 0] =>
          replace (x <? 0) with false by (symmetry; apply Z.ltb_ge; lia)
      end.
    reflexivity. }
  assert (HT : HasTimePart (magnitudes d) = HasTimePart d).
  { unfold HasTimePart, magnitudes, neqb; cbn [TH TM TS]. rewrite ETS.
    replace (- TH d =? 0) with (TH d =? 0)
      by (destruct (Z.eqb_spec (TH d) 0), (Z.eqb_spec (- TH d) 0); lia).
    replace (- TM d =? 0) with (TM d =? 0)
      by (destruct (Z.eqb_spec (TM d) 0), (Z.eqb_spec (- TM d) 0); lia).
    reflexivity. }
  unfold formatDuration. rewrite NEG, POS, HT.
  unfold magnitudes at 1 2 3 4 5 6 7 8; cbn [Y M W D TH TM TS]. rewrite ETS.
  rewrite (unitText_negative (Y d)), (unitText_negative (M d)),
    (unitText_negative (W d)), (unitText_negative (D d)),
    (unitText_negative (TH d)), (unitText_negative (TM d)) by assumption.
  reflexivity.
Qed.

(** A duration whose integer fields are all zero or below, without
    seconds and not zero, comes back from its own text as an [Equal]
    duration: [String] writes the minus sign once and the parser hands
    it to every field. *)
Theorem negative_duration_round_trip (d : Duration) :
  intsWithin (- GoInt.max_int) 0 d -> TS d = F64.zero -> IsZero d = false ->
  exists s d',
    DurationString d = Returns s /\ ParseISO8601 s = (d', None) /\
    Equal d' d = true.
Proof.
  intros R ETS Z. rewrite DurationString_builder, Z.
  assert (RM : intsWithin 0 GoInt.max_int (magnitudes d)).
  { destruct R as (RY & RMo & RW & RD & RH & RN).
    unfold intsWithin, magnitudes; cbn [Y M W D TH TM]. lia. }
  rewrite (formatDuration_negative d R ETS Z),
    (formatDuration_text (magnitudes d) RM eq_refl).
  destruct (match_formatted (magnitudes d) RM) as (c & E & N).
  destruct (FindStringSubmatch_minus (durationText (magnitudes d)) c
              eq_refl E) as (c' & E' & A).
  pose proof (parse_named (magnitudes d) c RM eq_refl N) as P.
  destruct (parseGroups_negative (SubexpNames pattern) 0 c' c
              zeroDuration zeroDuration (magnitudes d)
              (named_groups_agree c' c A) negationOf_zero P)
    as (d' & P' & (EY & EM & EW & ED & EH & EN & ES)).
  exists (String "-" (durationText (magnitudes d))), d'.
  split; [reflexivity|]. split.
  - unfold ParseISO8601. rewrite E'. exact P'.
  - destruct R as (RY & RMo & RW & RD & RH & RN).
    unfold magnitudes in *; cbn [Y M W D TH TM TS] in *.
    unfold Equal. rewrite EY, EM, EW, ED, EH, EN, ETS.
    assert (T : F64.eqb (TS d') F64.zero = true)
      by (destruct (TS d') as [[|]|[|]| |[|] ? ?]; try discriminate ES;
          reflexivity).
    rewrite T, andb_true_r.
    unfold GoInt.max_int in *.
    repeat match goal with
      | |- context [GoInt.neg (- ?x) =? ?x] =>
          replace (GoInt.neg (- x)) with x by wrap_lia; rewrite Z.eqb_refl
      end.
    reflexivity.
Qed.

End RoundTripNegative.

Lemma negative_duration_round_trip_witness :
  exists s d',
    @DurationString amd64 (mkDuration (-1) (-2) 0 (-3) (-4) 0 F64.zero)
      = Returns s /\
    ParseISO8601 s = (d', None) /\
    Equal d' (mkDuration (-1) (-2) 0 (-3) (-4) 0 F64.zero) = true.
Proof.
  apply (@negative_duration_round_trip amd64
           (mkDuration (-1) (-2) 0 (-3) (-4) 0 F64.zero)).
  - unfold intsWithin, GoInt.max_int. cbn [Y M W D TH TM]. lia.
  - reflexivity.
  - reflexivity.
Defined.

(* ------------------------------------------------------------------ *)
(** ** The matcher against the words of the expression *)

Lemma rounds_sound (P : nat -> string -> Prop)
  (step : nat -> string -> captures -> cont -> option captures) (r : regex) :
  (forall pos s c k res,
     step pos s c k = Some res ->
     exists w s' c',
       s = w ++ s' /\ lang r w /\
       (capturesSatisfy P c -> capturesSatisfy P c') /\
       k (String.length w + pos)%nat s' c' = Some res) ->
  forall k fuel pos s c res,
    rounds step k fuel pos s c = Some res ->
    exists w s' c',
      s = w ++ s' /\ lang (Plus r) w /\
      (capturesSatisfy P c -> capturesSatisfy P c') /\
      k (String.length w + pos)%nat s' c' = Some res.
Proof.
  intros Step k fuel. induction fuel as [|fuel IH]; intros pos s c res E;
    [discriminate|].
  cbn [rounds] in E.
  apply Step in E as (w1 & s1 & c1 & -> & L1 & C1 & E).
  destruct (rounds step k fuel _ s1 c1) as [x|] eqn:R; cbn [orElse] in E.
  - assert (X : x = res) by congruence. subst x.
    apply IH in R as (w2 & s2 & c2 & -> & L2 & C2 & E2).
    exists (w1 ++ w2), s2, c2. repeat split.
    + now rewrite append_assoc_s.
    + now apply LPlusMore.
    + auto.
    + rewrite length_append_s.
      replace (String.length w1 + String.length w2 + pos)%nat
        with (String.length w2 + (String.length w1 + pos))%nat by lia.
      exact E2.
  - exists w1, s1, c1. repeat split; [now apply LPlusOne | exact C1 | exact E].
Qed.

(** Soundness of the matcher.  When [run r] succeeds, it has consumed a
    word of [r] and then called its continuation on the rest, with
    captures that still satisfy what the groups of [r] guarantee; after
    a final [$] nothing is left. *)
Lemma run_sound (P : nat -> string -> Prop) (r : regex) :
  groupsSatisfy P r ->
  forall pos s c k res,
    run r pos s c k = Some res ->
    exists w s' c',
      s = w ++ s' /\ lang r w /\
      (capturesSatisfy P c -> capturesSatisfy P c') /\
      (endsWithEol r = true -> s' = "") /\
      k (String.length w + pos)%nat s' c' = Some res.
Proof.
  induction r as [| |a| |r1 IH1 r2 IH2|r1 IH1|r1 IH1|i r1 IH1];
    intros G pos s c k res E; cbn [groupsSatisfy] in G.
  - cbn [run] in E. destruct (pos =? 0)%nat; [|discriminate].
    exists "", s, c. repeat split; [constructor | auto | discriminate | exact E].
  - cbn [run] in E. destruct s; [|discriminate].
    exists "", "", c. repeat split; [constructor | auto | exact E].
  - cbn [run] in E. destruct s as [|b s]; [discriminate|].
    destruct (Ascii.eqb_spec a b) as [->|]; [|discriminate].
    exists (String b ""), s, c.
    repeat split; [constructor | auto | discriminate | exact E].
  - cbn [run] in E. destruct s as [|b s]; [discriminate|].
    destruct (isDigit b) eqn:B; [|discriminate].
    exists (String b ""), s, c.
    repeat split; [now constructor | auto | discriminate | exact E].
  - destruct G as [G1 G2]. rewrite run_Cat in E.
    apply (IH1 G1) in E as (w1 & s1 & c1 & -> & L1 & C1 & _ & E).
    apply (IH2 G2) in E as (w2 & s2 & c2 & -> & L2 & C2 & Z2 & E).
    exists (w1 ++ w2), s2, c2. repeat split.
    + now rewrite append_assoc_s.
    + now apply LCat.
    + auto.
    + exact Z2.
    + rewrite length_append_s.
      replace (String.length w1 + String.length w2 + pos)%nat
        with (String.length w2 + (String.length w1 + pos))%nat by lia.
      exact E.
  - cbn [run] in E.
    destruct (run r1 pos s c k) as [x|] eqn:R; cbn [orElse] in E.
    + assert (X : x = res) by congruence. subst x.
      apply (IH1 G) in R as (w & s' & c' & -> & L & C & _ & E1).
      exists w, s', c'.
      repeat split; [now apply LOptSome | exact C | discriminate | exact E1].
    + exists "", s, c.
      repeat split; [apply LOptNone | auto | discriminate | exact E].
  - cbn [run] in E.
    apply (rounds_sound P (run r1) r1) in E.
    + destruct E as (w & s' & c' & -> & L & C & E).
      exists w, s', c'. repeat split; [exact L | exact C | discriminate | exact E].
    + intros p s0 c0 k0 res0 E0.
      apply (IH1 G) in E0 as (w & s' & c' & -> & L & C & _ & E1).
      exists w, s', c'. repeat split; assumption.
  - destruct G as [GP G1]. cbn [run] in E.
    apply (IH1 G1) in E as (w & s' & c' & -> & L & C & _ & E).
    replace (String.length w + pos - pos)%nat with (String.length w) in E by lia.
    rewrite substring_prefix in E.
    exists w, s', (setNth i w c').
    repeat split; [now apply LGroup | | discriminate | exact E].
    intros C0 j. rewrite nth_setNth.
    destruct ((j =? i)%nat && (i <? List.length c')%nat) eqn:J.
    + apply andb_prop in J as [J _]. apply Nat.eqb_eq in J. subst j.
      apply GP, L.
    + apply C, C0.
Qed.

Lemma lang_alphabet (r : regex) (w : string) :
  lang r w -> forallb (inAlphabet r) (list_ascii_of_string w) = true.
Proof.
  assert (App : forall f a b,
            forallb f (list_ascii_of_string (a ++ b))
            = forallb f (list_ascii_of_string a)
              && forallb f (list_ascii_of_string b)).
  { intros f a b. induction a as [|x a IH];
      cbn [append list_ascii_of_string forallb]; [reflexivity|].
    now rewrite IH, andb_assoc. }
  assert (Weak : forall (f g : ascii -> bool) l,
            (forall ch, f ch = true -> g ch = true) ->
            forallb f l = true -> forallb g l = true).
  { intros f g l FG. induction l as [|x l IH]; cbn [forallb]; [easy|].
    intros E. apply andb_prop in E as [E1 E2].
    now rewrite (FG x E1), (IH E2). }
  induction 1 as [| |a|b B|r1 r2 w1 w2 _ IH1 _ IH2| |r w _ IH|r w _ IH
                 |r w1 w2 _ IH1 _ IH2|i r w _ IH];
    cbn [inAlphabet list_ascii_of_string forallb]; try reflexivity.
  - now rewrite Ascii.eqb_refl.
  - now rewrite B.
  - rewrite App. apply andb_true_intro. split.
    + eapply Weak; [|exact IH1]. intros ch ->. reflexivity.
    + eapply Weak; [|exact IH2]. intros ch ->. apply orb_true_r.
  - exact IH.
  - exact IH.
  - rewrite App. apply andb_true_intro. split; [exact IH1 | exact IH2].
  - exact IH.
Qed.

Lemma pattern_alphabet (ch : ascii) :
  inAlphabet (expr pattern) ch = durationByte ch.
Proof.
  destruct ch as [[|] [|] [|] [|] [|] [|] [|] [|]]; vm_compute; reflexivity.
Qed.

(** What the pattern matches: the whole text is a word of the
    expression, and the captures satisfy what its groups guarantee. *)
Lemma pattern_sound (P : nat -> string -> Prop) (s : string) (c : captures) :
  groupsSatisfy P (expr pattern) ->
  (forall i, P i "") ->
  FindStringSubmatch pattern s = Some c ->
  lang (expr pattern) s /\ forall i, i <> 0%nat -> P i (nth i c "").
Proof.
  intros G P0 E. unfold FindStringSubmatch in E.
  assert (Sh : exists r, expr pattern = Cat Bol r)
    by (eexists; apply pattern_shape).
  destruct Sh as [r Sh].
  assert (G' : groupsSatisfy P (Cat Bol r)) by (rewrite <- Sh; exact G).
  assert (Z : endsWithEol (Cat Bol r) = true) by (rewrite <- Sh; reflexivity).
  rewrite Sh in *. rewrite searchFrom_start in E.
  destruct G' as [_ G']. cbn [endsWithEol] in Z.
  apply (run_sound P r G') in E as (w & s' & c' & -> & L & C & Z' & E).
  rewrite (Z' Z), append_nil_r_s in *.
  split.
  - replace w with ("" ++ w) by reflexivity. apply LCat; [constructor | exact L].
  - intros i I.
    assert (X : c = setNth 0 (substring 0 (String.length w + 0 - 0) w) c')
      by congruence.
    rewrite X, nth_setNth.
    replace (i =? 0)%nat with false by (symmetry; apply Nat.eqb_neq; exact I).
    cbn [andb]. apply C.
    intros j. replace (nth j (repeat "" (S (NumSubexp pattern))) "") with "".
    + apply P0.
    + clear. generalize (S (NumSubexp pattern)). intros n. revert j.
      induction n as [|n IH]; intros [|j]; cbn [repeat nth]; auto.
Qed.

(* ------------------------------------------------------------------ *)
(** ** The bytes of an accepted text *)

Lemma groupsSatisfy_True (r : regex) : groupsSatisfy (fun _ _ => True) r.
Proof. induction r; cbn [groupsSatisfy]; auto. Qed.

Lemma forallb_same {A : Type} (f g : A -> bool) (l : list A) :
  (forall x, f x = g x) -> forallb f l = forallb g l.
Proof.
  intros FG. induction l as [|x l IH]; cbn [forallb]; [reflexivity|].
  now rewrite FG, IH.
Qed.

(** A text with a byte that is neither a digit nor one of
    [- P Y M W D T H S .] is refused: no blank, no lower-case
    designator, no comma, no plus sign. *)
Theorem foreign_byte_is_refused (s : string) :
  forallb durationByte (list_ascii_of_string s) = false ->
  ParseISO8601 s = (zeroDuration, Some ErrCouldNotParse).
Proof.
  intros B. unfold ParseISO8601.
  destruct (FindStringSubmatch pattern s) as [c|] eqn:E; [exfalso | reflexivity].
  apply (pattern_sound (fun _ _ => True)) in E as [L _];
    [| apply groupsSatisfy_True | auto].
  apply lang_alphabet in L.
  rewrite (forallb_same _ durationByte _ pattern_alphabet) in L.
  congruence.
Qed.

Lemma foreign_byte_is_refused_witness :
  ParseISO8601 "P1Y 2M" = (zeroDuration, Some ErrCouldNotParse).
Proof.
  apply (foreign_byte_is_refused "P1Y 2M"). vm_compute. reflexivity.
Defined.

(* ------------------------------------------------------------------ *)
(** ** The errors of the parser *)

Lemma lang_digits (w : string) :
  lang (Plus Digit) w -> allDigits w = true /\ w <> "".
Proof.
  intros L. remember (Plus Digit) as r eqn:R.
  induction L as [| |a|b B|r1 r2 w1 w2 _ _ _ _| |r w _ _|r w L _
                 |r w1 w2 L1 _ L2 IH2|i r w _ _]; try discriminate R.
  - injection R as ->. inversion L as [| | |b B| | | | | |]; subst.
    split; [|discriminate]. unfold allDigits.
    cbn [list_ascii_of_string forallb]. now rewrite B.
  - injection R as ->. inversion L1 as [| | |b B| | | | | |]; subst.
    destruct (IH2 eq_refl) as [A _].
    split; [|discriminate]. unfold allDigits in *.
    cbn [append list_ascii_of_string forallb]. now rewrite B, A.
Qed.

Lemma digit_is_no_dot (c : ascii) : isDigit c = true -> Ascii.eqb c "." = false.
Proof.
  intros D. destruct (Ascii.eqb_spec c "."); [subst; discriminate | reflexivity].
Qed.

Lemma splitDot_digits (w t : string) :
  allDigits w = true ->
  splitDot (w ++ t) = (w ++ fst (splitDot t), snd (splitDot t)).
Proof.
  unfold allDigits. induction w as [|c w IH]; intros A.
  - cbn [append]. now destruct (splitDot t).
  - cbn [list_ascii_of_string forallb] in A. apply andb_prop in A as [C A].
    cbn [append splitDot]. rewrite (digit_is_no_dot c C), (IH A).
    reflexivity.
Qed.

Lemma nonempty_eqb (w : string) : w <> "" -> String.eqb w "" = false.
Proof. destruct w; [congruence | reflexivity]. Qed.

(** What the seconds group matches, [\d+(\.\d+)?], is never malformed
    for [ParseFloat]. *)
Lemma lang_seconds (w : string) :
  lang (Cat (Plus Digit) (Opt (Cat (Chr ".") (Plus Digit)))) w ->
  forall e, ParseFloat w = Err e -> e = ErrRange.
Proof.
  intros L. inversion L as [| | | |r1 r2 w1 w2 L1 L2| | | | |]; subst.
  apply lang_digits in L1 as [A1 N1].
  assert (S : exists fp,
            splitDot (w1 ++ w2) = (w1, fp) /\
            match fp with
            | Some f => negb (String.eqb f "") && allDigits f
            | None => true
            end = true).
  { rewrite (splitDot_digits w1 w2 A1).
    inversion L2 as [| | | | |r|r w L3| | |]; subst.
    - exists None. cbn [splitDot fst snd]. now rewrite append_nil_r_s.
    - inversion L3 as [| | | |r1 r2 w3 w4 L4 L5| | | | |]; subst.
      inversion L4; subst.
      apply lang_digits in L5 as [A4 N4].
      exists (Some w4). cbn [append splitDot Ascii.eqb Bool.eqb fst snd].
      rewrite append_nil_r_s, A4, (nonempty_eqb w4 N4). split; reflexivity. }
  destruct S as (fp & S & W). unfold ParseFloat. rewrite S.
  rewrite (nonempty_eqb w1 N1), A1, W. cbn [negb andb].
  intros e. destruct (nearestRatio _ _); intros E; congruence.
Qed.

Lemma pattern_groups_parsable : groupsSatisfy parsable (expr pattern).
Proof.
  cbn.
  repeat match goal with
    | |- _ /\ _ => split
    | |- True => exact I
    | |- forall w, lang (Plus Digit) w -> parsable _ w =>
        intros w L; split; [intros _; apply lang_digits, L | discriminate]
    | |- forall w, lang _ w -> parsable 16 w =>
        intros w L; split; [discriminate | intros _; right; apply lang_seconds, L]
    | |- forall w, lang _ w -> parsable _ w =>
        intros w _; split; discriminate
    end.
Qed.

Lemma parsable_empty (i : nat) : parsable i "".
Proof. split; [reflexivity | now left]. Qed.

Lemma Atoi_digits_error (s : string) (e : error) :
  s <> "" -> allDigits s = true -> Atoi s = Err e -> e = ErrRange.
Proof.
  intros N A E. destruct s as [|a s]; [congruence|].
  assert (DA : isDigit a = true).
  { unfold allDigits in A. cbn [list_ascii_of_string forallb] in A.
    now apply andb_prop in A as [DA _]. }
  rewrite (Atoi_unsigned a s DA), A in E.
  destruct (GoInt.in_rangeb _); congruence.
Qed.

Lemma parseGroups_errors (negative : bool) (names : list string) :
  forall (i : nat) (c : list string) (d dr : Duration) (e : error),
    (forall j, parsable (i + j) (nth (i + j) c "")) ->
    (forall j, integerField (nth j names "") = true ->
               digitGroup (i + j) = true) ->
    (forall j, String.eqb (nth j names "") "second" = true ->
               (i + j = 16)%nat) ->
    parseGroups negative c i names d = (dr, Some e) ->
    e = ErrRange.
Proof.
  induction names as [|name names IH]; intros i c d dr e A NI NS E.
  - cbn [parseGroups] in E. discriminate.
  - assert (A' : forall j, parsable (S i + j) (nth (S i + j) c "")).
    { intros j. replace (S i + j)%nat with (i + S j)%nat by lia. apply A. }
    assert (NI' : forall j, integerField (nth j names "") = true ->
                            digitGroup (S i + j) = true).
    { intros j J. replace (S i + j)%nat with (i + S j)%nat by lia.
      apply NI. exact J. }
    assert (NS' : forall j, String.eqb (nth j names "") "second" = true ->
                            (S i + j = 16)%nat).
    { intros j J. replace (S i + j)%nat with (i + S j)%nat by lia.
      apply NS. exact J. }
    specialize (A 0%nat). specialize (NI 0%nat). specialize (NS 0%nat).
    rewrite Nat.add_0_r in A, NI, NS. cbn [nth] in NI, NS.
    destruct A as [AD AS].
    cbn [parseGroups] in E.
    destruct ((i =? 0)%nat || String.eqb name "" || String.eqb (nth i c "") "")
      eqn:Skip; [eapply IH; eassumption|].
    apply orb_false_elim in Skip as [_ Part].
    assert (PN : nth i c "" <> "").
    { intros X. rewrite X in Part. discriminate. }
    destruct (integerField name) eqn:IF.
    + destruct (Atoi (nth i c "")) as [val|err] eqn:EA.
      * eapply IH; eassumption.
      * assert (X : err = e) by congruence. subst err.
        eapply Atoi_digits_error; [exact PN | | exact EA]. auto.
    + destruct (String.eqb name "second") eqn:SN; [|eapply IH; eassumption].
      destruct (ParseFloat (nth i c "")) as [val|err] eqn:PF.
      * eapply IH; eassumption.
      * assert (X : err = e) by congruence. subst err.
        destruct (AS (NS eq_refl)) as [X|X]; [congruence|].
        apply X. reflexivity.
Qed.

Lemma second_name_is_16 (j : nat) :
  String.eqb (nth j (SubexpNames pattern) "") "second" = true -> j = 16%nat.
Proof.
  do 17 (destruct j as [|j];
         [cbn; intros E; first [discriminate E | reflexivity]|]).
  destruct j; cbn; discriminate.
Qed.

(** The parser has two errors and no third.  A text that the pattern
    does not match gives [ErrCouldNotParse] with the zero duration; a
    text that it matches can only fail on a number out of range.  The
    syntax error of [strconv] never comes out of [ParseISO8601]. *)
Theorem parse_errors (s : string) (d : Duration) (e : error) :
  ParseISO8601 s = (d, Some e) ->
  (e = ErrCouldNotParse /\ d = zeroDuration /\ MatchString pattern s = false) \/
  (e = ErrRange /\ MatchString pattern s = true).
Proof.
  unfold ParseISO8601, MatchString.
  destruct (FindStringSubmatch pattern s) as [c|] eqn:EM.
  - intros E. right. split; [|reflexivity].
    apply (pattern_sound parsable) in EM as [_ C];
      [| apply pattern_groups_parsable | apply parsable_empty].
    eapply parseGroups_errors; [| | |exact E].
    + intros j. cbn [Nat.add]. destruct j as [|j]; [|apply C; discriminate].
      split; discriminate.
    + intros j. cbn [Nat.add]. apply integer_names_are_digit_groups.
    + intros j. cbn [Nat.add]. apply second_name_is_16.
  - intros [= <- <-]. left. repeat split.
Qed.

Lemma parse_errors_witness :
  (ErrRange = ErrCouldNotParse /\
   mkDuration 1 0 0 0 0 0 F64.zero = zeroDuration /\
   MatchString pattern "P1Y9223372036854775808M" = false) \/
  (ErrRange = ErrRange /\ MatchString pattern "P1Y9223372036854775808M" = true).
Proof.
  apply (parse_errors "P1Y9223372036854775808M"
           (mkDuration 1 0 0 0 0 0 F64.zero) ErrRange).
  vm_compute. reflexivity.
Defined.
